(** * Webhook ingestion and query service: a shallow embedding

    The service of [app/main.py], [app/storage.py], [app/metrics.py] and
    [app/config.py], embedded as pure functions with explicit state.

    - A Python [str] is a [string]: a sequence of code points, here the code
      points below 256 (the alphabet of an HTTP header, which the framework
      decodes as Latin-1); text with higher code points is outside the
      model.  Where a property compares letters up to case it says which
      letters: [str.lower] folds more than SQLite's [LOWER] and [LIKE], which
      fold A-Z only.  The order of SQLite's BINARY collation (memcmp on
      UTF-8) is the order on code points, [String.le].
    - The [messages] table is a finite map from [message_id], its primary
      key, to the other five columns.  Of SQLite's resource limits the
      length of a LIKE pattern is modelled, which a query parameter can
      exceed; the length of a statement or of a value is not.
    - A storage call returns a [result]: a value, or the exception it raised.
    - The clock, the HMAC, the JSON parser and the schema validator are
      parameters of the handlers.
    - A Python [float] is a binary64, [PrimFloat.float]; an [int] that only
      counts is a [nat], any other a [Z]. *)

From Stdlib Require Import ZArith NArith Ascii String List Bool Floats Lia.
From stdpp Require Import gmap strings list sorting.

Local Open Scope string_scope.
Local Open Scope list_scope.

(** A decimal literal denotes the nearest binary64, as it does in Python. *)
#[local] Set Warnings "-inexact-float".

(** ** Python and SQLite text primitives *)

Module Text.

Definition code (c : ascii) : N := N_of_ascii c.

Definition in_range (lo hi : N) (c : ascii) : bool :=
  ((lo <=? code c) && (code c <=? hi))%N.

Definition shift_char (d : N) (c : ascii) : ascii := ascii_of_N (code c + d).

Fixpoint map_string (f : ascii -> ascii) (s : string) : string :=
  match s with
  | EmptyString => EmptyString
  | String c s' => String (f c) (map_string f s')
  end.

Fixpoint forall_string (p : ascii -> bool) (s : string) : bool :=
  match s with
  | EmptyString => true
  | String c s' => p c && forall_string p s'
  end.

(** SQLite folds case on [A-Z] only, in [lower()] and in [LIKE]. *)
Definition ascii_lower (c : ascii) : ascii :=
  if in_range 65 90 c then shift_char 32 c else c.

Definition ascii_upper (c : ascii) : ascii :=
  if in_range 97 122 c then ascii_of_N (code c - 32) else c.

Definition sqlite_lower : string -> string := map_string ascii_lower.

(** [str.lower()]: below 256 the cased capitals are [A-Z] and U+00C0..U+00DE
    without the multiplication sign U+00D7; each maps 32 places up. *)
Definition py_lower_char (c : ascii) : ascii :=
  if in_range 65 90 c || (in_range 192 222 c && negb (code c =? 215)%N)
  then shift_char 32 c else c.

Definition py_lower : string -> string := map_string py_lower_char.

(** [str.isspace()] below 256: TAB..CR, FS..US, space, NEL, NBSP. *)
Definition py_isspace (c : ascii) : bool :=
  in_range 9 13 c || in_range 28 32 c || (code c =? 133)%N || (code c =? 160)%N.

Fixpoint lstrip (s : string) : string :=
  match s with
  | EmptyString => EmptyString
  | String c s' => if py_isspace c then lstrip s' else s
  end.

Fixpoint rstrip (s : string) : string :=
  match s with
  | EmptyString => EmptyString
  | String c s' =>
      match rstrip s' with
      | EmptyString => if py_isspace c then EmptyString else String c EmptyString
      | r => String c r
      end
  end.

(** [str.strip()] *)
Definition py_strip (s : string) : string := rstrip (lstrip s).

Definition is_ascii : string -> bool := forall_string (fun c => (code c <? 128)%N).

(** Python truthiness of a [str] and of an [Optional[str]]. *)
Definition truthy (s : string) : bool :=
  match s with EmptyString => false | String _ _ => true end.

Definition truthy_opt (o : option string) : bool :=
  match o with None => false | Some s => truthy s end.

(** What a C-string reader sees of a text value: SQLite's pattern matcher
    stops at the first NUL. *)
Fixpoint c_str (s : string) : string :=
  match s with
  | EmptyString => EmptyString
  | String c s' => if (code c =? 0)%N then EmptyString else String c (c_str s')
  end.

(** SQLite's [patternCompare] for [LIKE] without an ESCAPE clause: [%] matches
    any run of characters, [_] exactly one, any other character itself up to
    ASCII case. *)
Fixpoint pattern_compare (p s : string) : bool :=
  match p with
  | EmptyString => match s with EmptyString => true | String _ _ => false end
  | String c p' =>
      if (code c =? 37)%N then
        (fix skip (s : string) : bool :=
           pattern_compare p' s ||
           match s with EmptyString => false | String _ s' => skip s' end) s
      else
        match s with
        | EmptyString => false
        | String d s' =>
            ((code c =? 95)%N || Ascii.eqb (ascii_lower c) (ascii_lower d))
            && pattern_compare p' s'
        end
  end.

(** [text LIKE pattern] *)
Definition sql_like (text pattern : string) : bool :=
  pattern_compare (c_str pattern) (c_str text).

(** [s >= t] under the BINARY collation. *)
Definition sql_ge (s t : string) : bool := String.leb t s.

End Text.

(** ** app/config.py *)

Module Config.

Record Settings := {
  webhook_secret : option string;
  database_url : string;
  log_level : string
}.

(** The process environment, [os.environ]. *)
Definition environ := gmap string string.

(** [_env(name, default)] *)
Definition _env (env : environ) (name : string) (default : option string)
  : option string :=
  match (match env !! name with Some v => Some v | None => default end) with
  | None => None
  | Some v => Some (Text.py_strip v)
  end.

(** [x or d] for an [Optional[str]] [x]. *)
Definition or_default (x : option string) (d : string) : string :=
  match x with
  | Some v => if Text.truthy v then v else d
  | None => d
  end.

(** [get_settings()].  [str.upper()] is taken on [a-z]: no other character
    below 256 upper-cases into the letters of INFO or DEBUG, so the membership
    test is the same. *)
Definition get_settings (env : environ) : Settings :=
  let webhook_secret := _env env "WEBHOOK_SECRET" None in
  let database_url :=
    or_default (_env env "DATABASE_URL" (Some "sqlite:////data/app.db"))
               "sqlite:////data/app.db" in
  let log_level :=
    Text.map_string Text.ascii_upper
      (or_default (_env env "LOG_LEVEL" (Some "INFO")) "INFO") in
  let log_level :=
    if bool_decide (log_level = "INFO") || bool_decide (log_level = "DEBUG")
    then log_level else "INFO" in
  let webhook_secret :=
    match webhook_secret with
    | Some "" => None
    | other => other
    end in
  {| webhook_secret := webhook_secret;
     database_url := database_url;
     log_level := log_level |}.

End Config.

(** ** Exceptions *)

Inductive exn :=
| ValueError (msg : string)
| KeyError
| TypeError (msg : string)
| OverflowError (msg : string)
| OperationalError (msg : string).

Inductive result (A : Type) :=
| Ok (a : A)
| Raise (e : exn).

Arguments Ok {A} a.
Arguments Raise {A} e.

Definition bind {A B} (r : result A) (k : A -> result B) : result B :=
  match r with
  | Ok a => k a
  | Raise e => Raise e
  end.

Notation "'let*' x ':=' r 'in' k" := (bind r (fun x => k))
  (at level 10, x name, r at level 100, k at level 200).

(** ** app/metrics.py *)

Module Metrics.

(** A [Dict[float, int]], keys in insertion order and compared with [==]. *)
Definition fdict := list (float * nat).

Fixpoint fdict_get (k : float) (d : fdict) : option nat :=
  match d with
  | [] => None
  | (k', v) :: d' => if PrimFloat.eqb k' k then Some v else fdict_get k d'
  end.

Fixpoint fdict_set (k : float) (v : nat) (d : fdict) : fdict :=
  match d with
  | [] => [(k, v)]
  | (k', v') :: d' =>
      if PrimFloat.eqb k' k then (k', v) :: d' else (k', v') :: fdict_set k v d'
  end.

Record Histogram := {
  buckets : list float;
  counts : fdict;
  sum : float;
  count : nat
}.

(** [set(...)]: the first of each class of [==] is kept. *)
Fixpoint float_set (l : list float) : list float :=
  match l with
  | [] => []
  | x :: l' => x :: filter (fun y => negb (PrimFloat.eqb x y)) (float_set l')
  end.

Fixpoint insert_sorted (x : float) (l : list float) : list float :=
  match l with
  | [] => [x]
  | y :: l' => if PrimFloat.ltb x y then x :: l else y :: insert_sorted x l'
  end.

(** [sorted(...)], stable.  Without NaN, as here, the result does not depend
    on the order in which the set yields its elements. *)
Definition float_sorted (l : list float) : list float :=
  fold_right insert_sorted [] l.

(** [Histogram.with_buckets] *)
Definition with_buckets (bs : list float) : result Histogram :=
  let b := float_sorted (float_set bs) in
  match b with
  | [] => Raise (ValueError "histogram buckets cannot be empty")
  | _ =>
      Ok {| buckets := b;
            counts := map (fun ub => (ub, 0)) b;
            sum := 0%float;
            count := 0 |}
  end.

(** The loop of [Histogram.observe]: [counts[ub] += 1] reads, then writes. *)
Fixpoint observe_buckets (value : float) (bs : list float) (cs : fdict)
  : result fdict :=
  match bs with
  | [] => Ok cs
  | ub :: bs' =>
      if PrimFloat.leb value ub then
        match fdict_get ub cs with
        | Some n => observe_buckets value bs' (fdict_set ub (n + 1) cs)
        | None => Raise KeyError
        end
      else observe_buckets value bs' cs
  end.

(** [Histogram.observe] *)
Definition observe (h : Histogram) (value : float) : result Histogram :=
  let* cs := observe_buckets value (buckets h) (counts h) in
  Ok {| buckets := buckets h;
        counts := cs;
        sum := PrimFloat.add (sum h) value;
        count := count h + 1 |}.

Record Metrics := {
  http_requests_total : gmap (string * Z) nat;
  webhook_requests_total : gmap string nat;
  request_latency : Histogram
}.

Definition latency_buckets : list float :=
  [0.005; 0.01; 0.025; 0.05; 0.1; 0.25; 0.5; 1.0; 2.5; 5.0]%float.

(** [Metrics.__init__] *)
Definition init : result Metrics :=
  let* h := with_buckets latency_buckets in
  Ok {| http_requests_total := ∅;
        webhook_requests_total := ∅;
        request_latency := h |}.

(** The state [Metrics.__init__] builds: every bucket at zero. *)
Definition fresh : Metrics :=
  {| http_requests_total := ∅;
     webhook_requests_total := ∅;
     request_latency :=
       {| buckets := latency_buckets;
          counts := map (fun ub => (ub, 0)) latency_buckets;
          sum := 0%float;
          count := 0 |} |}.

(** [d[k] = d.get(k, 0) + 1] *)
Definition incr `{Countable K} (k : K) (d : gmap K nat) : gmap K nat :=
  <[k := default 0 (d !! k) + 1]> d.

Definition inc_http (m : Metrics) (path : string) (status : Z) : Metrics :=
  {| http_requests_total := incr (path, status) (http_requests_total m);
     webhook_requests_total := webhook_requests_total m;
     request_latency := request_latency m |}.

Definition inc_webhook (m : Metrics) (res : string) : Metrics :=
  {| http_requests_total := http_requests_total m;
     webhook_requests_total := incr res (webhook_requests_total m);
     request_latency := request_latency m |}.

(** [max(a, b)]: the first argument unless the second is greater. *)
Definition py_max (a b : float) : float := if PrimFloat.ltb a b then b else a.

(** The value [observe_latency] records. *)
Definition clamp (seconds : float) : float := py_max 0%float seconds.

Definition observe_latency (m : Metrics) (seconds : float) : result Metrics :=
  let* h := observe (request_latency m) (clamp seconds) in
  Ok {| http_requests_total := http_requests_total m;
        webhook_requests_total := webhook_requests_total m;
        request_latency := h |}.

(** A sequence of [observe_latency] calls. *)
Fixpoint observe_latencies (m : Metrics) (obs : list float) : result Metrics :=
  match obs with
  | [] => Ok m
  | s :: obs' => let* m' := observe_latency m s in observe_latencies m' obs'
  end.

(** The exposition, line by line; a sample keeps its value as a number. *)
Inductive label_value :=
| LStr (s : string)
| LInt (z : Z)
| LFloat (f : float)
| LInf.

Inductive sample_value :=
| VInt (n : nat)
| VFloat (f : float).

Inductive line :=
| Comment (text : string)
| Sample (name : string) (labels : list (string * label_value)) (v : sample_value).

(** [_esc] *)
Fixpoint _esc (v : string) : string :=
  match v with
  | EmptyString => EmptyString
  | String c v' =>
      if (Text.code c =? 92)%N || (Text.code c =? 34)%N
      then String "\" (String c (_esc v'))
      else String c (_esc v')
  end.

(** The order of [sorted] on the keys [(path, status)]. *)
Definition http_key_le (a b : (string * Z) * nat) : Prop :=
  let '((p1, s1), _) := a in
  let '((p2, s2), _) := b in
  if bool_decide (p1 = p2) then (s1 <= s2)%Z else String.le p1 p2.

Definition webhook_key_le (a b : string * nat) : Prop := String.le a.1 b.1.

#[global] Instance http_key_le_dec : RelDecision http_key_le.
Proof.
  intros [[p1 s1] n1] [[p2 s2] n2]; unfold http_key_le.
  destruct (bool_decide (p1 = p2)); apply _.
Defined.

#[global] Instance webhook_key_le_dec : RelDecision webhook_key_le.
Proof. intros a b; unfold webhook_key_le; apply _. Defined.

(** The bucket lines: [cum = h.counts.get(ub, cum)]. *)
Fixpoint bucket_lines (cs : fdict) (cum : nat) (bs : list float) : list line :=
  match bs with
  | [] => []
  | ub :: bs' =>
      let cum := default cum (fdict_get ub cs) in
      Sample "request_latency_seconds_bucket" [("le", LFloat ub)] (VInt cum)
      :: bucket_lines cs cum bs'
  end.

Definition histogram_lines (h : Histogram) : list line :=
  [Comment "HELP request_latency_seconds Request latency";
   Comment "TYPE request_latency_seconds histogram"]
  ++ bucket_lines (counts h) 0 (buckets h)
  ++ [Sample "request_latency_seconds_bucket" [("le", LInf)] (VInt (count h));
      Sample "request_latency_seconds_sum" [] (VFloat (sum h));
      Sample "request_latency_seconds_count" [] (VInt (count h))].

(** [Metrics.render_prometheus] *)
Definition render_prometheus (m : Metrics) : list line :=
  [Comment "HELP http_requests_total Total HTTP requests";
   Comment "TYPE http_requests_total counter"]
  ++ map (fun '((path, status), val) =>
            Sample "http_requests_total"
                   [("path", LStr (_esc path)); ("status", LInt status)]
                   (VInt val))
         (merge_sort http_key_le (map_to_list (http_requests_total m)))
  ++ [Comment "HELP webhook_requests_total Webhook requests by result";
      Comment "TYPE webhook_requests_total counter"]
  ++ map (fun '(res, val) =>
            Sample "webhook_requests_total" [("result", LStr (_esc res))]
                   (VInt val))
         (merge_sort webhook_key_le (map_to_list (webhook_requests_total m)))
  ++ histogram_lines (request_latency m).

End Metrics.

(** ** app/storage.py *)

Module Storage.

(** A row of [messages] as [dict(r)] gives it. *)
Record Row := {
  message_id : string;
  from_msisdn : string;
  to_msisdn : string;
  ts : string;
  text : option string;
  created_at : string
}.

(** The columns stored under the primary key. *)
Record stored := {
  s_from_msisdn : string;
  s_to_msisdn : string;
  s_ts : string;
  s_text : option string;
  s_created_at : string
}.

Definition to_row (kv : string * stored) : Row :=
  {| message_id := kv.1;
     from_msisdn := s_from_msisdn kv.2;
     to_msisdn := s_to_msisdn kv.2;
     ts := s_ts kv.2;
     text := s_text kv.2;
     created_at := s_created_at kv.2 |}.

(** The database file: whether a connection can be opened, and the table
    [messages] once SCHEMA_SQL has created it. *)
Record database := {
  reachable : bool;
  messages : option (gmap string stored)
}.

Definition ready (t : gmap string stored) : database :=
  {| reachable := true; messages := Some t |}.

(** [self._connect()] *)
Definition _connect (db : database) : result unit :=
  if reachable db then Ok tt
  else Raise (OperationalError "unable to open database file").

(** A statement over [messages]. *)
Definition from_messages (db : database) : result (gmap string stored) :=
  match messages db with
  | Some t => Ok t
  | None => Raise (OperationalError "no such table: messages")
  end.

(** [init_schema_sync]: CREATE TABLE IF NOT EXISTS. *)
Definition init_schema_sync (db : database) : result database :=
  let* _ := _connect db in
  Ok {| reachable := reachable db;
        messages := Some (default ∅ (messages db)) |}.

(** [schema_exists_sync]: a lookup in sqlite_master. *)
Definition schema_exists_sync (db : database) : result bool :=
  let* _ := _connect db in
  Ok (bool_decide (is_Some (messages db))).

Record InsertResult := { dup : bool }.

(** [insert_message_sync]; [now] is what [utc_now_iso()] returns.  The
    primary key raises IntegrityError on a taken [message_id], which the
    function turns into [dup=True]. *)
Definition insert_message_sync (now : string) (db : database)
    (message_id from_msisdn to_msisdn ts : string) (text : option string)
  : result (InsertResult * database) :=
  let* _ := _connect db in
  let created_at := now in
  let* t := from_messages db in
  match t !! message_id with
  | Some _ => Ok ({| dup := true |}, db)
  | None =>
      Ok ({| dup := false |},
          {| reachable := reachable db;
             messages :=
               Some (<[message_id :=
                         {| s_from_msisdn := from_msisdn;
                            s_to_msisdn := to_msisdn;
                            s_ts := ts;
                            s_text := text;
                            s_created_at := created_at |}]> t) |})
  end.

(** One conjunct of the WHERE clause, with its argument. *)
Inductive cond :=
| FromEq (arg : string)    (* from_msisdn = ? *)
| TsGe (arg : string)      (* ts >= ? *)
| TextLike (arg : string). (* LOWER(COALESCE(text,'')) LIKE ? *)

(** [_build_filters] *)
Definition _build_filters (from_filter since q : option string) : list cond :=
  (match from_filter with
   | Some f => if Text.truthy f then [FromEq f] else []
   | None => []
   end)
  ++ (match since with
      | Some s => if Text.truthy s then [TsGe s] else []
      | None => []
      end)
  ++ (match q with
      | Some q => [TextLike ("%" +:+ Text.py_lower q +:+ "%")]
      | None => []
      end).

Definition cond_holds (r : Row) (c : cond) : bool :=
  match c with
  | FromEq a => bool_decide (from_msisdn r = a)
  | TsGe a => Text.sql_ge (ts r) a
  | TextLike p => Text.sql_like (Text.sqlite_lower (default "" (text r))) p
  end.

(** The conjuncts are joined with AND. *)
Definition where_holds (w : list cond) (r : Row) : bool :=
  forallb (cond_holds r) w.

(** ORDER BY ts ASC, message_id ASC *)
Definition row_le (a b : Row) : Prop :=
  if bool_decide (ts a = ts b)
  then String.le (message_id a) (message_id b)
  else String.le (ts a) (ts b).

#[global] Instance row_le_dec : RelDecision row_le.
Proof. intros a b; unfold row_le; destruct (bool_decide (ts a = ts b)); apply _. Defined.

(** LIMIT ? OFFSET ?: a negative limit is no limit, a negative offset is 0. *)
Definition limit_offset {A} (limit offset : Z) (l : list A) : list A :=
  let l := drop (Z.to_nat offset) l in
  if (limit <? 0)%Z then l else take (Z.to_nat limit) l.

(** An [int] bound to a statement has to fit SQLite's 64-bit INTEGER. *)
Definition bind_int (z : Z) : result Z :=
  if ((- 2 ^ 63 <=? z) && (z <? 2 ^ 63))%Z then Ok z
  else Raise (OverflowError "Python int too large to convert to SQLite INTEGER").

(** SELECT ... FROM messages WHERE ... *)
Definition select_where (w : list cond) (t : gmap string stored) : list Row :=
  filter (fun r => where_holds w r = true) (to_row <$> map_to_list t).

(** The bytes of a text in UTF-8, the encoding in which a [str] is bound to
    a statement: two for a code point from 128 on. *)
Fixpoint utf8_length (s : string) : N :=
  match s with
  | EmptyString => 0%N
  | String c s' => ((if (Text.code c <? 128)%N then 1 else 2) + utf8_length s')%N
  end.

(** SQLITE_MAX_LIKE_PATTERN_LENGTH: the LIKE function refuses a pattern of
    more bytes, each time it is called. *)
Definition like_pattern_limit : N := 50000%N.

Definition like_refused (c : cond) : bool :=
  match c with
  | TextLike p => (like_pattern_limit <? utf8_length p)%N
  | _ => false
  end.

(** The WHERE clause on one row: the conjuncts are tried in order up to the
    first that fails; [None] when a LIKE that is reached is refused. *)
Fixpoint where_eval (w : list cond) (r : Row) : option bool :=
  match w with
  | [] => Some true
  | c :: w' =>
      if like_refused c then None
      else if cond_holds r c then where_eval w' r else Some false
  end.

(** Stepping a statement over [messages]: it fails when the WHERE clause
    fails on a row. *)
Definition scan (w : list cond) (t : gmap string stored) : result unit :=
  if forallb (fun r => bool_decide (is_Some (where_eval w r))) (to_row <$> map_to_list t)
  then Ok tt
  else Raise (OperationalError "LIKE or GLOB pattern too complex").

Record MessagesPage := {
  rows : list Row;
  total : nat
}.

(** [list_messages_sync] *)
Definition list_messages_sync (db : database) (limit offset : Z)
    (from_filter since q : option string) : result MessagesPage :=
  let* _ := _connect db in
  let w := _build_filters from_filter since q in
  let* t := from_messages db in
  let* _ := scan w t in
  let total := length (select_where w t) in
  let* limit := bind_int limit in
  let* offset := bind_int offset in
  let rows := limit_offset limit offset (merge_sort row_le (select_where w t)) in
  Ok {| rows := rows; total := total |}.

(** An entry of [messages_per_sender]: the keys are "from" and "count". *)
Record SenderCount := {
  from : string;
  count : nat
}.

Record Stats := {
  total_messages : nat;
  senders_count : nat;
  messages_per_sender : list SenderCount;
  first_message_ts : option string;
  last_message_ts : option string
}.

(** The distinct values of [from_msisdn]. *)
Definition senders (rs : list Row) : gset string :=
  list_to_set (from_msisdn <$> rs).

(** GROUP BY from_msisdn with COUNT( * ): one entry for each sender. *)
Definition group_by_sender (rs : list Row) : list SenderCount :=
  (fun s =>
     {| from := s;
        count := length (filter (fun r => from_msisdn r = s) rs) |})
  <$> elements (senders rs).

(** ORDER BY c DESC; SQL leaves the order among equal counts open. *)
Definition count_ge (a b : SenderCount) : Prop := (count b <= count a)%nat.

#[global] Instance count_ge_dec : RelDecision count_ge.
Proof. intros a b; unfold count_ge; apply _. Defined.

(** MIN(ts) and MAX(ts): NULL over no rows. *)
Fixpoint min_ts (rs : list Row) : option string :=
  match rs with
  | [] => None
  | r :: rs' =>
      match min_ts rs' with
      | None => Some (ts r)
      | Some m => Some (if String.leb (ts r) m then ts r else m)
      end
  end.

Fixpoint max_ts (rs : list Row) : option string :=
  match rs with
  | [] => None
  | r :: rs' =>
      match max_ts rs' with
      | None => Some (ts r)
      | Some m => Some (if String.leb m (ts r) then ts r else m)
      end
  end.

(** [stats_sync] *)
Definition stats_sync (db : database) : result Stats :=
  let* _ := _connect db in
  let* t := from_messages db in
  let rs := to_row <$> map_to_list t in
  let total := length rs in
  let senders := size (senders rs) in
  let per_sender := take 10 (merge_sort count_ge (group_by_sender rs)) in
  Ok {| total_messages := total;
        senders_count := senders;
        messages_per_sender := per_sender;
        first_message_ts := min_ts rs;
        last_message_ts := max_ts rs |}.

End Storage.

(** ** JSON values and app/models.py *)

#[local] Unset Elimination Schemes.

Inductive json :=
| JNull
| JBool (b : bool)
| JInt (z : Z)
| JFloat (f : float)
| JStr (s : string)
| JList (l : list json)
| JDict (d : list (string * json)).

#[local] Set Elimination Schemes.

(** [d.get(key)] on a parsed object: [None] when the key is missing. *)
Fixpoint dict_get (key : string) (d : list (string * json)) : json :=
  match d with
  | [] => JNull
  | (k, v) :: d' => if String.eqb k key then v else dict_get key d'
  end.

(** [data.get("message_id") if isinstance(data, dict) else None] *)
Definition best_effort_message_id (data : json) : json :=
  match data with
  | JDict d => dict_get "message_id" d
  | _ => JNull
  end.

Module Models.

Record WebhookMessageIn := {
  message_id : string;
  from_msisdn : string;
  to_msisdn : string;
  ts : string;
  text : option string
}.

(** The outcome of [WebhookMessageIn.model_validate]: the message, or the
    list [e.errors()] of the ValidationError. *)
Inductive validation :=
| Valid (msg : WebhookMessageIn)
| Invalid (errors : list json).

(** [MessageOut( **r )] keeps the six columns of the row. *)
Definition MessageOut := Storage.Row.

Record MessagesListOut := {
  data : list MessageOut;
  total : nat;
  limit : Z;
  offset : Z
}.

End Models.

(** ** app/main.py *)

Module Main.

Definition bytes := list Byte.byte.

Record response := {
  status_code : Z;
  content : json
}.

(** [request.state.webhook_log_fields] *)
Record log_fields := {
  log_message_id : json;
  log_dup : bool;
  log_result : string
}.

(** The module-level [settings], [metrics] and [storage]. *)
Record App := {
  settings : Config.Settings;
  metrics : Metrics.Metrics;
  db : Storage.database
}.

Definition with_metrics (app : App) (m : Metrics.Metrics) : App :=
  {| settings := settings app; metrics := m; db := db app |}.

Definition with_db (app : App) (d : Storage.database) : App :=
  {| settings := settings app; metrics := metrics app; db := d |}.

(** What a handler leaves behind: the response or the exception that left
    it, the application state, and the log fields it set. *)
Record handled := {
  outcome : result response;
  app_after : App;
  webhook_log_fields : option log_fields
}.

(** The middleware's [status_code]: 500 unless the handler returned. *)
Definition resolved_status (o : result response) : Z :=
  match o with
  | Ok r => status_code r
  | Raise _ => 500
  end.

(** [hmac.compare_digest] on two [str]: ASCII only. *)
Definition compare_digest (a b : string) : result bool :=
  if Text.is_ascii a && Text.is_ascii b then Ok (String.eqb a b)
  else Raise (TypeError "comparing strings with non-ASCII characters is not supported").

(** What [json.dumps] with [allow_nan=False] accepts: no float in the value
    is an infinity or NaN. *)
Fixpoint json_finite (j : json) : bool :=
  match j with
  | JFloat x => PrimFloat.is_finite x
  | JList l => forallb json_finite l
  | JDict d => forallb (fun kv => json_finite (snd kv)) d
  | _ => true
  end.

(** [JSONResponse(status_code, content)] renders its content when it is
    built, with [json.dumps(..., allow_nan=False)], which raises ValueError
    on a float that is not finite.  The other ways in which rendering can
    fail are outside the model: a string with a lone surrogate, which the
    encoding to UTF-8 refuses, is not a string of the model's alphabet, and
    the recursion limit of the encoder is a limit of the interpreter.  The
    properties of the handler therefore say of a validation error that it
    is answered 422 or leaves by an exception, and name the exception only
    for a float that is not finite. *)
Definition JSONResponse (status_code : Z) (content : json) : result response :=
  if json_finite content
  then Ok {| status_code := status_code; content := content |}
  else Raise (ValueError "Out of range float values are not JSON compliant").

(** [_validation_422]: a detail that is not a list is wrapped in one. *)
Definition _validation_422 (detail : json) : result response :=
  let detail := match detail with JList _ => detail | _ => JList [detail] end in
  JSONResponse 422 (JDict [("detail", detail)]).

Definition invalid_signature_401 : response :=
  {| status_code := 401; content := JDict [("detail", JStr "invalid signature")] |}.

Definition status_ok_200 : response :=
  {| status_code := 200; content := JDict [("status", JStr "ok")] |}.

Definition not_ready_503 : response :=
  {| status_code := 503; content := JDict [("status", JStr "not_ready")] |}.

Definition ready_200 : response :=
  {| status_code := 200; content := JDict [("status", JStr "ready")] |}.

Definition invalid_json_detail : json :=
  JDict [("loc", JList [JStr "body"]);
         ("msg", JStr "Invalid JSON");
         ("type", JStr "value_error.jsondecode")].

(** The outcome of validating the query parameters of GET /messages. *)
Inductive messages_response :=
| MessagesOk (out : Models.MessagesListOut)
| QueryInvalid.

Section Handlers.

(** [hmac.new(secret.encode("utf-8"), body, hashlib.sha256).hexdigest()] *)
Variable hmac_sha256_hexdigest : string -> bytes -> string.

(** [json.loads(raw.decode("utf-8"))]: [None] when either call raises. *)
Variable decode_json : bytes -> option json.

(** [WebhookMessageIn.model_validate] *)
Variable model_validate : json -> Models.validation.

(** A match of ISO_UTC_Z_REGEX. *)
Variable matches_iso_utc_z : string -> bool.

(** [_signature_valid] *)
Definition _signature_valid (secret : string) (body : bytes)
    (provided_hex : string) : result bool :=
  let mac := hmac_sha256_hexdigest secret body in
  compare_digest mac (Text.py_lower (Text.py_strip provided_hex)).

(** The branch of [webhook] taken when the signature check fails. *)
Definition reject_signature (app : App) (raw : bytes) : handled :=
  let msg_id :=
    match (match raw with [] => Some (JDict []) | _ => decode_json raw end) with
    | Some data => best_effort_message_id data
    | None => JNull
    end in
  {| outcome := Ok invalid_signature_401;
     app_after := with_metrics app (Metrics.inc_webhook (metrics app) "invalid_signature");
     webhook_log_fields :=
       Some {| log_message_id := msg_id; log_dup := false;
               log_result := "invalid_signature" |} |}.

Definition raised (app : App) (e : exn) : handled :=
  {| outcome := Raise e; app_after := app; webhook_log_fields := None |}.

(** The rest of [webhook], after the signature check has passed. *)
Definition accept_signature (now : string) (app : App) (raw : bytes) : handled :=
  match decode_json raw with
  | None =>
      {| outcome := _validation_422 invalid_json_detail;
         app_after := with_metrics app (Metrics.inc_webhook (metrics app) "validation_error");
         webhook_log_fields :=
           Some {| log_message_id := JNull; log_dup := false;
                   log_result := "validation_error" |} |}
  | Some payload =>
      match model_validate payload with
      | Models.Invalid errors =>
          {| outcome := _validation_422 (JList errors);
             app_after := with_metrics app (Metrics.inc_webhook (metrics app) "validation_error");
             webhook_log_fields :=
               Some {| log_message_id := best_effort_message_id payload;
                       log_dup := false;
                       log_result := "validation_error" |} |}
      | Models.Valid msg =>
          match Storage.insert_message_sync now (db app)
                  (Models.message_id msg) (Models.from_msisdn msg)
                  (Models.to_msisdn msg) (Models.ts msg) (Models.text msg) with
          | Raise e => raised app e
          | Ok (ins, db') =>
              let res := if Storage.dup ins then "duplicate" else "created" in
              let app := with_db app db' in
              {| outcome := Ok status_ok_200;
                 app_after := with_metrics app (Metrics.inc_webhook (metrics app) res);
                 webhook_log_fields :=
                   Some {| log_message_id := JStr (Models.message_id msg);
                           log_dup := Storage.dup ins;
                           log_result := res |} |}
          end
      end
  end.

(** POST /webhook: [sig] is the X-Signature header, [raw] the body. *)
Definition webhook (now : string) (app : App) (sig : option string)
    (raw : bytes) : handled :=
  match sig with
  | None => reject_signature app raw
  | Some sig =>
      if negb (Text.truthy sig) then reject_signature app raw
      else if negb (Text.truthy_opt (Config.webhook_secret (settings app)))
      then reject_signature app raw
      else
        match _signature_valid
                (default "" (Config.webhook_secret (settings app))) raw sig with
        | Raise e => raised app e
        | Ok false => reject_signature app raw
        | Ok true => accept_signature now app raw
        end
  end.

(** GET /messages with its declared bounds: limit in [1, 100] (default 50),
    offset at least 0 (default 0), since matching the timestamp pattern. *)
Definition get_messages (app : App) (limit offset : option Z)
    (from_msisdn since q : option string) : result messages_response :=
  let limit := default 50%Z limit in
  let offset := default 0%Z offset in
  if negb ((1 <=? limit) && (limit <=? 100))%Z then Ok QueryInvalid
  else if (offset <? 0)%Z then Ok QueryInvalid
  else if negb (match since with Some s => matches_iso_utc_z s | None => true end)
  then Ok QueryInvalid
  else
    let* page := Storage.list_messages_sync (db app) limit offset from_msisdn since q in
    Ok (MessagesOk {| Models.data := Storage.rows page;
                      Models.total := Storage.total page;
                      Models.limit := limit;
                      Models.offset := offset |}).

(** GET /stats *)
Definition get_stats (app : App) : result Storage.Stats :=
  Storage.stats_sync (db app).

(** GET /health/live *)
Definition health_live : response :=
  {| status_code := 200; content := JDict [("status", JStr "live")] |}.

(** GET /health/ready *)
Definition health_ready (app : App) : response :=
  if negb (Text.truthy_opt (Config.webhook_secret (settings app)))
  then not_ready_503
  else
    match Storage.schema_exists_sync (db app) with
    | Ok true => ready_200
    | Ok false => not_ready_503
    | Raise _ => not_ready_503
    end.

End Handlers.

End Main.

(** ** Drivers: sequences of calls *)

Module Run.

(** One call of [insert_message_sync]: the clock and the five arguments. *)
Record attempt := {
  at_now : string;
  at_message_id : string;
  at_from_msisdn : string;
  at_to_msisdn : string;
  at_ts : string;
  at_text : option string
}.

(** The attempt a validated message becomes in the handler. *)
Definition attempt_of (now : string) (msg : Models.WebhookMessageIn) : attempt :=
  {| at_now := now;
     at_message_id := Models.message_id msg;
     at_from_msisdn := Models.from_msisdn msg;
     at_to_msisdn := Models.to_msisdn msg;
     at_ts := Models.ts msg;
     at_text := Models.text msg |}.

Definition insert_attempt (db : Storage.database) (a : attempt)
  : result (Storage.InsertResult * Storage.database) :=
  Storage.insert_message_sync (at_now a) db (at_message_id a)
    (at_from_msisdn a) (at_to_msisdn a) (at_ts a) (at_text a).

(** The attempts one after the other: the flags in order and the database
    they leave. *)
Fixpoint insert_all (db : Storage.database) (atts : list attempt)
  : result (list Storage.InsertResult * Storage.database) :=
  match atts with
  | [] => Ok ([], db)
  | a :: atts' =>
      let* r := insert_attempt db a in
      let* rs := insert_all r.2 atts' in
      Ok (r.1 :: rs.1, rs.2)
  end.

(** One POST /webhook: the clock, the X-Signature header and the body. *)
Record request := {
  rq_now : string;
  rq_sig : option string;
  rq_raw : Main.bytes
}.

Section Requests.

Variable hmac_sha256_hexdigest : string -> Main.bytes -> string.
Variable decode_json : Main.bytes -> option json.
Variable model_validate : json -> Models.validation.

Definition post (app : Main.App) (r : request) : Main.handled :=
  Main.webhook hmac_sha256_hexdigest decode_json model_validate
    (rq_now r) app (rq_sig r) (rq_raw r).

(** The requests one after the other, each on the state the last one left. *)
Definition post_all (app : Main.App) (rs : list request) : Main.App :=
  fold_left (fun app r => Main.app_after (post app r)) rs app.

(** A request that passes the signature check under [secret] and whose body
    parses and validates to [msg]. *)
Definition delivers (secret : string) (r : request) (msg : Models.WebhookMessageIn)
  : Prop :=
  exists sig payload,
    rq_sig r = Some sig /\ Text.truthy sig = true /\
    Main._signature_valid hmac_sha256_hexdigest secret (rq_raw r) sig = Ok true /\
    decode_json (rq_raw r) = Some payload /\
    model_validate payload = Models.Valid msg.

End Requests.

(** The row a message becomes when it is stored at [now]. *)
Definition row_of (now : string) (msg : Models.WebhookMessageIn) : Storage.Row :=
  {| Storage.message_id := Models.message_id msg;
     Storage.from_msisdn := Models.from_msisdn msg;
     Storage.to_msisdn := Models.to_msisdn msg;
     Storage.ts := Models.ts msg;
     Storage.text := Models.text msg;
     Storage.created_at := now |}.

(** SELECT * FROM messages WHERE message_id = ? *)
Definition rows_with_id (id : string) (db : Storage.database) : list Storage.Row :=
  match Storage.messages db with
  | Some t => filter (fun r => Storage.message_id r = id) (Storage.to_row <$> map_to_list t)
  | None => []
  end.

(** The pages of a listing: offsets 0, limit, 2 limit, ... *)
Definition pages (db : Storage.database) (limit : Z) (n : nat)
    (from_filter since q : option string) : list (result Storage.MessagesPage) :=
  (fun k => Storage.list_messages_sync db limit (Z.of_nat k * limit) from_filter since q)
  <$> seq 0 n.

(** What a test reads off a listing: the ids in order and the total. *)
Definition ids_and_total (r : result Storage.MessagesPage) : option (list string * nat) :=
  match r with
  | Ok page => Some (Storage.message_id <$> Storage.rows page, Storage.total page)
  | Raise _ => None
  end.

End Run.

(** ** Sample data: the messages and the client of the test suite *)

Module Sample.

Definition m1 : Models.WebhookMessageIn :=
  {| Models.message_id := "m1";
     Models.from_msisdn := "+919876543210";
     Models.to_msisdn := "+14155550100";
     Models.ts := "2025-01-15T10:00:00Z";
     Models.text := Some "Hello Alpha" |}.

(** The id of [m1] again, with other values. *)
Definition m1_again : Models.WebhookMessageIn :=
  {| Models.message_id := "m1";
     Models.from_msisdn := "+14155550100";
     Models.to_msisdn := "+919876543210";
     Models.ts := "2025-01-15T12:00:00Z";
     Models.text := None |}.

Definition m2 : Models.WebhookMessageIn :=
  {| Models.message_id := "m2";
     Models.from_msisdn := "+919876543210";
     Models.to_msisdn := "+14155550100";
     Models.ts := "2025-01-15T10:00:00Z";
     Models.text := Some "hello beta" |}.

Definition m3 : Models.WebhookMessageIn :=
  {| Models.message_id := "m3";
     Models.from_msisdn := "+14155550100";
     Models.to_msisdn := "+919876543210";
     Models.ts := "2025-01-15T11:00:00Z";
     Models.text := Some "Gamma" |}.

(** Stand-ins for the library calls, enough to run a request: a body is one
    byte that names the message it carries, and its digest is "ab" followed
    by nothing else. *)
Definition toy_hmac (secret : string) (body : Main.bytes) : string := "ab".

Definition toy_decode (raw : Main.bytes) : option json :=
  match raw with
  | [b] => Some (JInt (Z.of_N (Byte.to_N b)))
  | _ => None
  end.

Definition toy_validate (payload : json) : Models.validation :=
  match payload with
  | JInt 1 => Models.Valid m1
  | JInt 2 => Models.Valid m2
  | JInt 3 => Models.Valid m3
  | JInt 4 => Models.Valid m1_again
  | _ => Models.Invalid []
  end.

Definition signed (now : string) (b : Byte.byte) : Run.request :=
  {| Run.rq_now := now; Run.rq_sig := Some "ab"; Run.rq_raw := [b] |}.

Definition settings : Config.Settings :=
  Config.get_settings {[ "WEBHOOK_SECRET" := "test-secret" ]}.

(** The application after start-up on an empty database file. *)
Definition app0 : Main.App :=
  {| Main.settings := settings;
     Main.metrics := Metrics.fresh;
     Main.db := Storage.ready ∅ |}.

(** The table after [m1], [m2] and [m3] have been stored. *)
Definition three : gmap string Storage.stored :=
  list_to_map
    ((fun m : Models.WebhookMessageIn =>
        (Models.message_id m,
         {| Storage.s_from_msisdn := Models.from_msisdn m;
            Storage.s_to_msisdn := Models.to_msisdn m;
            Storage.s_ts := Models.ts m;
            Storage.s_text := Models.text m;
            Storage.s_created_at := "2025-01-16T00:00:00Z" |}))
     <$> [m1; m2; m3]).

(** A message whose text starts with a capital outside ASCII, U+00C0. *)
Definition m4 : Models.WebhookMessageIn :=
  {| Models.message_id := "m4";
     Models.from_msisdn := "+33123456789";
     Models.to_msisdn := "+14155550100";
     Models.ts := "2025-01-15T12:00:00Z";
     Models.text := Some (String "192" " la carte") |}.

Definition accented : gmap string Storage.stored :=
  {[ Models.message_id m4 :=
       {| Storage.s_from_msisdn := Models.from_msisdn m4;
          Storage.s_to_msisdn := Models.to_msisdn m4;
          Storage.s_ts := Models.ts m4;
          Storage.s_text := Models.text m4;
          Storage.s_created_at := "2025-01-16T00:00:00Z" |} ]}.

End Sample.

(** ** The filters, the tallies and the histogram in the words of the specification *)

Module Spec.

(** [p] is a prefix of [s], case ignored. *)
Fixpoint prefix_ci (p s : string) : bool :=
  match p with
  | EmptyString => true
  | String c p' =>
      match s with
      | EmptyString => false
      | String d s' =>
          Ascii.eqb (Text.py_lower_char c) (Text.py_lower_char d) && prefix_ci p' s'
      end
  end.

(** "the textContains value occurring case-insensitively as a substring of
    the message's text" *)
Fixpoint occurs_ci (q text : string) : bool :=
  prefix_ci q text ||
  match text with
  | EmptyString => false
  | String _ text' => occurs_ci q text'
  end.

(** "a message with absent text is treated as having empty text" *)
Definition text_contains (q : string) (r : Storage.Row) : bool :=
  occurs_ci q (default "" (Storage.text r)).

(** The number of rows a sender has. *)
Definition rows_from (rs : list Storage.Row) (s : string) : nat :=
  length (filter (fun r => Storage.from_msisdn r = s) rs).

(** The number of values at most [ub]. *)
Definition count_le (ub : float) (vs : list float) : nat :=
  length (filter (fun v => PrimFloat.leb v ub = true) vs).

(** The histogram in the words of the specification, after the values [vs]
    were recorded: every bucket holds the number of values at most its upper
    bound, with the sum (added up in order) and the count. *)
Definition histogram_of (vs : list float) : Metrics.Histogram :=
  {| Metrics.buckets := Metrics.latency_buckets;
     Metrics.counts := map (fun ub => (ub, count_le ub vs)) Metrics.latency_buckets;
     Metrics.sum := fold_left PrimFloat.add vs 0%float;
     Metrics.count := length vs |}.

(** Keys that a dictionary tells apart: each equal to itself under [==] and
    to no other one. *)
Fixpoint distinct_keys (ks : list float) : bool :=
  match ks with
  | [] => true
  | k :: ks' =>
      PrimFloat.eqb k k
      && forallb (fun k' => negb (PrimFloat.eqb k k') && negb (PrimFloat.eqb k' k)) ks'
      && distinct_keys ks'
  end.

(** Text the LIKE operator reads as it stands: ASCII without NUL and without
    the wildcards [%] and [_]. *)
Definition plain_char (c : ascii) : bool :=
  ((Text.code c <? 128) && negb (Text.code c =? 0)
   && negb (Text.code c =? 37) && negb (Text.code c =? 95))%N.

Definition plain : string -> bool := Text.forall_string plain_char.

Definition no_nul : string -> bool :=
  Text.forall_string (fun c => negb (Text.code c =? 0)%N).

(** "the secret is unconfigured, or the X-Signature header is absent, or the
    header does not match the HMAC-SHA256 hex digest of the raw body under
    the configured secret"; the header is compared the way the code compares
    it, stripped and lower-cased. *)
Definition signature_rejected (hmac : string -> Main.bytes -> string)
    (secret sig : option string) (raw : Main.bytes) : Prop :=
  secret = None \/ sig = None \/
  exists k s, secret = Some k /\ sig = Some s /\
              Text.py_lower (Text.py_strip s) <> hmac k raw.

(** The filters in the words of the specification: every given filter
    holds. *)
Definition matches (from_filter since q : option string) (r : Storage.Row) : Prop :=
  (forall f, from_filter = Some f -> f <> "" -> Storage.from_msisdn r = f) /\
  (forall s, since = Some s -> s <> "" -> String.le s (Storage.ts r)) /\
  (forall x, q = Some x -> text_contains x r = true).

End Spec.

(** ** app/main.py: start-up *)

Module Server.

(** [_startup]: [storage.init_schema()]; the logging calls around it leave
    the application state alone. *)
Definition _startup (app : Main.App) : result Main.App :=
  let* d := Storage.init_schema_sync (Main.db app) in
  Ok (Main.with_db app d).

End Server.

(** ** app/metrics.py: label values and counters *)

Module Exposition.

(** [v.replace(old, new)] for a one-character [old]. *)
Fixpoint replace_char (old : ascii) (new : string) (v : string) : string :=
  match v with
  | EmptyString => EmptyString
  | String c v' =>
      if Ascii.eqb c old then new +:+ replace_char old new v'
      else String c (replace_char old new v')
  end.

Definition backslash : ascii := ascii_of_N 92.
Definition quote : ascii := ascii_of_N 34.

(** [_esc] as it is written: the backslashes first, then the quotes. *)
Definition _esc_steps (v : string) : string :=
  replace_char quote (String backslash (String quote ""))
    (replace_char backslash (String backslash (String backslash "")) v).

(** How a reader of the exposition format takes a label value: a backslash
    quotes the character after it. *)
Fixpoint unescape (s : string) : string :=
  match s with
  | EmptyString => EmptyString
  | String c s' =>
      if Ascii.eqb c backslash then
        match s' with
        | EmptyString => EmptyString
        | String d s'' => String d (unescape s'')
        end
      else String c (unescape s')
  end.

(** A label value that can stand between two quotes: every backslash is
    followed by a backslash or a quote it escapes, and there is no other
    quote. *)
Fixpoint well_escaped (s : string) : bool :=
  match s with
  | EmptyString => true
  | String c s' =>
      if Ascii.eqb c backslash then
        match s' with
        | EmptyString => false
        | String d s'' =>
            (Ascii.eqb d backslash || Ascii.eqb d quote) && well_escaped s''
        end
      else negb (Ascii.eqb c quote) && well_escaped s'
  end.

(** Calls of [inc_http] and of [inc_webhook], one after the other. *)
Definition inc_http_all (m : Metrics.Metrics) (calls : list (string * Z))
  : Metrics.Metrics :=
  fold_left (fun m c => Metrics.inc_http m c.1 c.2) calls m.

Definition inc_webhook_all (m : Metrics.Metrics) (calls : list string)
  : Metrics.Metrics :=
  fold_left Metrics.inc_webhook calls m.

(** The number of calls with the key [k]. *)
Definition calls_with `{EqDecision K} (k : K) (calls : list K) : nat :=
  length (filter (fun c => c = k) calls).

Definition http_line (e : (string * Z) * nat) : Metrics.line :=
  let '((path, status), val) := e in
  Metrics.Sample "http_requests_total"
    [("path", Metrics.LStr (Metrics._esc path)); ("status", Metrics.LInt status)]
    (Metrics.VInt val).

Definition webhook_line (e : string * nat) : Metrics.line :=
  let '(res, val) := e in
  Metrics.Sample "webhook_requests_total" [("result", Metrics.LStr (Metrics._esc res))]
    (Metrics.VInt val).

End Exposition.

(** ** app/logging_utils.py *)

Module Logging.

(** A [dict] with string keys, in insertion order. *)
Definition dict := list (string * json).

(** [d.get(k)], [None] kept apart from a stored null. *)
Fixpoint lookup (k : string) (d : dict) : option json :=
  match d with
  | [] => None
  | (k', v) :: d' => if String.eqb k' k then Some v else lookup k d'
  end.

(** [k in d] *)
Definition dict_has (k : string) (d : dict) : bool :=
  match lookup k d with Some _ => true | None => false end.

(** [d[k] = v]: a key already there keeps its place. *)
Fixpoint dict_set (k : string) (v : json) (d : dict) : dict :=
  match d with
  | [] => [(k, v)]
  | (k', v') :: d' =>
      if String.eqb k' k then (k', v) :: d' else (k', v') :: dict_set k v d'
  end.

(** [d.update(e)] *)
Definition dict_update (d e : dict) : dict :=
  fold_left (fun d kv => dict_set kv.1 kv.2 d) e d.

(** What [JsonFormatter.format] reads of a [LogRecord]: [extra] is
    [getattr(record, "extra", None)], [exc_info] the formatted exception
    when there is one. *)
Record LogRecord := {
  levelname : string;
  name : string;
  message : string;
  extra : option json;
  exc_info : option string
}.

(** The payload [JsonFormatter.format] hands to [json.dumps]; [now] is
    [utc_now_iso()]. *)
Definition format (now : string) (record : LogRecord) : dict :=
  let payload :=
    [("ts", JStr now);
     ("level", JStr (levelname record));
     ("logger", JStr (name record));
     ("message", JStr (message record))] in
  let payload :=
    match extra record with
    | Some (JDict e) =>
        fold_left (fun p kv => if dict_has kv.1 p then p else dict_set kv.1 kv.2 p)
                  e payload
    | _ => payload
    end in
  match exc_info record with
  | Some text => dict_set "exc_info" (JStr text) payload
  | None => payload
  end.

(** [StructLogger(name).info(message, **fields)]: the record that reaches
    the formatter. *)
Definition info (logger message : string) (fields : dict) : LogRecord :=
  {| levelname := "INFO"; name := logger; message := message;
     extra := Some (JDict fields); exc_info := None |}.

End Logging.

(** ** app/main.py: the request middleware *)

Module Middleware.

(** [int(x)] of a float: the integer part, towards zero. *)
Definition py_int (x : float) : result Z :=
  match Prim2SF x with
  | S754_zero _ => Ok 0%Z
  | S754_finite s m e =>
      let a := if (0 <=? e)%Z then (Z.pos m * 2 ^ e)%Z else (Z.pos m / 2 ^ (- e))%Z in
      Ok (if s then (- a)%Z else a)
  | S754_infinity _ => Raise (OverflowError "cannot convert float infinity to integer")
  | S754_nan => Raise (ValueError "cannot convert float NaN to integer")
  end.

(** What the middleware reads of the request; [request_id] is the
    [uuid.uuid4()] drawn for it. *)
Record Request := {
  request_id : string;
  method : string;
  path : string
}.

(** The dictionary a handler's [webhook_log_fields] are. *)
Definition fields_dict (wf : Main.log_fields) : Logging.dict :=
  [("message_id", Main.log_message_id wf);
   ("dup", JBool (Main.log_dup wf));
   ("result", JStr (Main.log_result wf))].

(** What the middleware leaves behind: the response or the exception that
    left it, the application state, and the record it logged. *)
Record served := {
  outcome : result Main.response;
  app_after : Main.App;
  logged : option Logging.LogRecord
}.

(** [request_logging_middleware]: [start] and [stop] are the two readings of
    [now_monotonic()], [call_next] the handler of the route. *)
Definition request_logging_middleware (start stop : float) (request : Request)
    (call_next : Main.App -> Main.handled) (app : Main.App) : served :=
  let h := call_next app in
  let status_code := Main.resolved_status (Main.outcome h) in
  let app := Main.app_after h in
  let latency_s := PrimFloat.sub stop start in
  match py_int (PrimFloat.mul latency_s 1000) with
  | Raise e => {| outcome := Raise e; app_after := app; logged := None |}
  | Ok latency_ms =>
      let m := Metrics.inc_http (Main.metrics app) (path request) status_code in
      match Metrics.observe_latency m latency_s with
      | Raise e =>
          {| outcome := Raise e; app_after := Main.with_metrics app m; logged := None |}
      | Ok m =>
          let extra :=
            [("request_id", JStr (request_id request));
             ("method", JStr (method request));
             ("path", JStr (path request));
             ("status", JInt status_code);
             ("latency_ms", JInt latency_ms)] in
          let extra :=
            match Main.webhook_log_fields h with
            | Some wf => Logging.dict_update extra (fields_dict wf)
            | None => extra
            end in
          {| outcome := Main.outcome h;
             app_after := Main.with_metrics app m;
             logged := Some (Logging.info "api" "request" extra) |}
      end
  end.

(** One request as it reaches the application. *)
Record call := {
  c_start : float;
  c_stop : float;
  c_request : Request;
  c_handler : Main.App -> Main.handled
}.

Definition serve (app : Main.App) (c : call) : served :=
  request_logging_middleware (c_start c) (c_stop c) (c_request c) (c_handler c) app.

(** The requests one after the other, each on the state the last one left. *)
Definition serve_all (app : Main.App) (calls : list call) : Main.App :=
  fold_left (fun app c => app_after (serve app c)) calls app.

(** The value [observe_latency] records for a call. *)
Definition recorded (c : call) : float :=
  Metrics.clamp (PrimFloat.sub (c_stop c) (c_start c)).

(** The requests counted so far, over all paths and statuses. *)
Definition http_total (m : Metrics.Metrics) : nat :=
  sum_list_with snd (map_to_list (Metrics.http_requests_total m)).

(** A [PlainTextResponse]; the content is kept line by line. *)
Record text_response := {
  text_status : Z;
  media_type : string;
  text_content : list Metrics.line
}.

(** GET /metrics *)
Definition get_metrics (app : Main.App) : text_response :=
  {| text_status := 200;
     media_type := "text/plain; version=0.0.4";
     text_content := Metrics.render_prometheus (Main.metrics app) |}.

End Middleware.

(** A webhook request and a probe, as they reach the middleware. *)
Module SampleCalls.

Definition post_m1 : Middleware.call :=
  {| Middleware.c_start := 1%float;
     Middleware.c_stop := 1.25%float;
     Middleware.c_request :=
       {| Middleware.request_id := "r1"; Middleware.method := "POST";
          Middleware.path := "/webhook" |};
     Middleware.c_handler := fun app =>
       Main.webhook Sample.toy_hmac Sample.toy_decode Sample.toy_validate
         "2025-01-16T00:00:00Z" app (Some "ab") [Byte.x01] |}.

Definition live : Middleware.call :=
  {| Middleware.c_start := 2%float;
     Middleware.c_stop := 2.5%float;
     Middleware.c_request :=
       {| Middleware.request_id := "r2"; Middleware.method := "GET";
          Middleware.path := "/health/live" |};
     Middleware.c_handler := fun app =>
       {| Main.outcome := Ok Main.health_live; Main.app_after := app;
          Main.webhook_log_fields := None |} |}.

End SampleCalls.

(** ** app/metrics.py: a histogram over any buckets *)

Module Buckets.

(** Calls of [Histogram.observe], one after the other. *)
Fixpoint observe_all (h : Metrics.Histogram) (vs : list float)
  : result Metrics.Histogram :=
  match vs with
  | [] => Ok h
  | v :: vs' => let* h' := Metrics.observe h v in observe_all h' vs'
  end.

(** A float that is a number: equal to itself under [==]. *)
Definition is_number (x : float) : bool := PrimFloat.eqb x x.

(** The line of one bucket. *)
Definition bucket_line (ub : float) (n : nat) : Metrics.line :=
  Metrics.Sample "request_latency_seconds_bucket" [("le", Metrics.LFloat ub)]
    (Metrics.VInt n).

End Buckets.

(** The webhook requests counted so far, over all results. *)
Module Totals.

Definition webhook_total (m : Metrics.Metrics) : nat :=
  sum_list_with snd (map_to_list (Metrics.webhook_requests_total m)).

(** The status of each result a webhook request can be counted under. *)
Definition status_of_result : list (Z * string) :=
  [(401%Z, "invalid_signature"); (422%Z, "validation_error");
   (200%Z, "created"); (200%Z, "duplicate")].

End Totals.

(** ** The filtered set, in words that do not go through the query *)

Module Filtered.

(** The filters before [q] hold on a row: [from_msisdn] is the [from] given,
    [ts] is at least the [since] given in the order of code points; an
    empty value is no filter. *)
Definition reaches_text (f s : option string) (r : Storage.Row) : Prop :=
  (forall x, f = Some x -> x <> "" -> Storage.from_msisdn r = x) /\
  (forall x, s = Some x -> x <> "" -> String.le x (Storage.ts r)).

(** All the filters given hold on a row, the text filter as SQLite's LIKE
    reads the pattern made of [q]. *)
Definition passes (f s q : option string) (r : Storage.Row) : Prop :=
  reaches_text f s r /\
  (forall x, q = Some x ->
             Text.sql_like (Text.sqlite_lower (default "" (Storage.text r)))
                           ("%" +:+ Text.py_lower x +:+ "%") = true).

(** The pattern made of [q], the lower-cased [q] between two percent signs,
    is within SQLite's limit of 50,000 bytes in UTF-8. *)
Definition fits (q : option string) : bool :=
  match q with
  | Some x => (Storage.utf8_length ("%" +:+ Text.py_lower x +:+ "%") <=? 50000)%N
  | None => true
  end.

(** [p] is a prefix of [s], the letters A-Z and a-z taken up to case and
    every other character as it is. *)
Fixpoint prefix_ci (p s : string) : bool :=
  match p with
  | EmptyString => true
  | String c p' =>
      match s with
      | EmptyString => false
      | String d s' =>
          Ascii.eqb (Text.ascii_lower c) (Text.ascii_lower d) && prefix_ci p' s'
      end
  end.

(** [q] occurs in [text], up to the case of the letters A-Z. *)
Fixpoint occurs_ci (q text : string) : bool :=
  prefix_ci q text ||
  match text with
  | EmptyString => false
  | String _ text' => occurs_ci q text'
  end.

(** The filters as plain text: [q] occurs in the text of the row, an absent
    text counting as empty. *)
Definition matches (f s q : option string) (r : Storage.Row) : Prop :=
  reaches_text f s r /\
  (forall x, q = Some x -> occurs_ci x (default "" (Storage.text r)) = true).

End Filtered.

(** * Properties *)

(** ** Text *)

(** A property of all 256 characters, by enumeration. *)
Lemma forall_ascii (P : ascii -> bool) :
  forallb (fun n => P (ascii_of_nat n)) (seq 0 256) = true -> forall c, P c = true.
Proof.
  intros H c. rewrite <- (ascii_nat_embedding c).
  rewrite forallb_forall in H. apply H. apply in_seq.
  pose proof (nat_ascii_bounded c). lia.
Qed.

Lemma lstrip_whitespace (s : string) :
  Text.forall_string Text.py_isspace s = true -> Text.lstrip s = "".
Proof.
  induction s as [|c s IH]; simpl; [reflexivity|].
  intros H. apply andb_prop in H as [Hc Hs]. rewrite Hc. auto.
Qed.

Lemma py_strip_whitespace (s : string) :
  Text.forall_string Text.py_isspace s = true -> Text.py_strip s = "".
Proof. intros H. unfold Text.py_strip. now rewrite lstrip_whitespace. Qed.

Lemma pattern_percent_any (s : string) : Text.pattern_compare "%" s = true.
Proof. induction s as [|c s IH]; simpl in *; [reflexivity|]. now rewrite IH. Qed.

Lemma like_percent_percent (s : string) : Text.sql_like s "%%" = true.
Proof.
  unfold Text.sql_like. change (Text.c_str "%%") with "%%".
  generalize (Text.c_str s) as u. intros u.
  change (Text.pattern_compare "%%" u)
    with ((fix skip (s : string) : bool :=
             Text.pattern_compare "%" s ||
             match s with EmptyString => false | String _ s' => skip s' end) u).
  destruct u; now rewrite pattern_percent_any.
Qed.

(** ** Configuration and readiness *)

Lemma secret_none_of_blank (env : Config.environ) :
  (env !! "WEBHOOK_SECRET" = None \/
   exists v, env !! "WEBHOOK_SECRET" = Some v /\
             Text.forall_string Text.py_isspace v = true) ->
  Config.webhook_secret (Config.get_settings env) = None.
Proof.
  intros [H | (v & H & Hv)]; unfold Config.get_settings, Config._env; simpl;
    rewrite H; [reflexivity|].
  now rewrite (py_strip_whitespace v Hv).
Qed.

(** C10.  When WEBHOOK_SECRET is unset, empty or made of whitespace only, the
    settings hold no secret; then every POST /webhook, whatever its
    X-Signature header and body, is answered 401 "invalid signature" and
    GET /health/ready is answered 503. *)
Theorem empty_secret_treated_as_absent (env : Config.environ) :
  (env !! "WEBHOOK_SECRET" = None \/
   exists v, env !! "WEBHOOK_SECRET" = Some v /\
             Text.forall_string Text.py_isspace v = true) ->
  Config.webhook_secret (Config.get_settings env) = None /\
  (forall hmac decode validate now m d sig raw,
     Main.outcome
       (Main.webhook hmac decode validate now
          {| Main.settings := Config.get_settings env;
             Main.metrics := m; Main.db := d |} sig raw)
     = Ok Main.invalid_signature_401) /\
  (forall m d,
     Main.health_ready
       {| Main.settings := Config.get_settings env;
          Main.metrics := m; Main.db := d |}
     = Main.not_ready_503).
Proof.
  intros H. pose proof (secret_none_of_blank env H) as Hs.
  split; [exact Hs|]. split.
  - intros hmac decode validate now m d sig raw.
    unfold Main.webhook; cbn [Main.settings]. rewrite Hs.
    destruct sig as [sig|]; [|reflexivity].
    destruct (Text.truthy sig); reflexivity.
  - intros m d. unfold Main.health_ready; cbn [Main.settings]. now rewrite Hs.
Qed.

Lemma empty_secret_treated_as_absent_witness :
  let app :=
    {| Main.settings :=
         Config.get_settings {[ "WEBHOOK_SECRET" := String " " (String "009" "") ]};
       Main.metrics := Metrics.fresh;
       Main.db := Storage.ready ∅ |} in
  Config.webhook_secret (Main.settings app) = None /\
  Main.outcome
    (Main.webhook Sample.toy_hmac Sample.toy_decode Sample.toy_validate
       "2025-01-16T00:00:00Z" app (Some "ab") [Byte.x01])
  = Ok Main.invalid_signature_401 /\
  Main.health_ready app = Main.not_ready_503.
Proof.
  destruct (empty_secret_treated_as_absent
              {[ "WEBHOOK_SECRET" := String " " (String "009" "") ]})
    as (H1 & H2 & H3).
  { right. exists (String " " (String "009" "")). split; reflexivity. }
  exact (conj H1 (conj (H2 _ _ _ _ _ _ _ _) (H3 _ _))).
Defined.

Lemma truthy_opt_true (o : option string) :
  Text.truthy_opt o = true <-> exists s, o = Some s /\ s <> "".
Proof.
  split.
  - destruct o as [[|c s]|]; simpl; try discriminate. intros _. now eexists.
  - intros (s & -> & Hs). destruct s; [congruence|reflexivity].
Qed.

(** C8.  GET /health/ready answers 200 "ready" exactly when a non-empty secret
    is configured, the table [messages] exists and a connection can be opened;
    in every other case it answers 503 "not_ready".  On a reachable database
    without the table, [schema_exists_sync] returns False and does not
    raise; on an unreachable one it raises, and the handler answers 503. *)
Theorem readiness (app : Main.App) :
  (Main.health_ready app = Main.ready_200 <->
     (exists s, Config.webhook_secret (Main.settings app) = Some s /\ s <> "") /\
     is_Some (Storage.messages (Main.db app)) /\
     Storage.reachable (Main.db app) = true) /\
  (Main.health_ready app = Main.ready_200 \/
   Main.health_ready app = Main.not_ready_503) /\
  (Storage.reachable (Main.db app) = true ->
   Storage.messages (Main.db app) = None ->
   Storage.schema_exists_sync (Main.db app) = Ok false) /\
  (Storage.reachable (Main.db app) = false ->
   (exists e, Storage.schema_exists_sync (Main.db app) = Raise e) /\
   Main.health_ready app = Main.not_ready_503).
Proof.
  unfold Main.health_ready, Storage.schema_exists_sync, Storage._connect.
  rewrite <- truthy_opt_true.
  destruct (Text.truthy_opt (Config.webhook_secret (Main.settings app)));
    destruct (Storage.reachable (Main.db app));
    destruct (Storage.messages (Main.db app)) as [t|]; simpl;
    repeat split; try (intros; discriminate); try tauto; eauto;
    try (intros (_ & [? ?] & _); discriminate);
    try (intros (? & _); discriminate);
    try (intros (_ & _ & ?); discriminate);
    try (right; reflexivity); try (left; reflexivity).
Qed.

(** ** Idempotent insert *)

Lemma insert_fresh now t id f to ts tx :
  t !! id = None ->
  Storage.insert_message_sync now (Storage.ready t) id f to ts tx
  = Ok ({| Storage.dup := false |},
        Storage.ready
          (<[id := {| Storage.s_from_msisdn := f; Storage.s_to_msisdn := to;
                      Storage.s_ts := ts; Storage.s_text := tx;
                      Storage.s_created_at := now |}]> t)).
Proof. intros H. unfold Storage.insert_message_sync; simpl. now rewrite H. Qed.

Lemma insert_taken now t id f to ts tx :
  is_Some (t !! id) ->
  Storage.insert_message_sync now (Storage.ready t) id f to ts tx
  = Ok ({| Storage.dup := true |}, Storage.ready t).
Proof. intros [v H]. unfold Storage.insert_message_sync; simpl. now rewrite H. Qed.

(** An insert into a ready database returns; the table only grows, every
    stored row is kept, and the flag tells whether the id was taken. *)
Lemma insert_attempt_ready t a :
  exists flag t',
    Run.insert_attempt (Storage.ready t) a = Ok (flag, Storage.ready t') /\
    t ⊆ t' /\
    is_Some (t' !! Run.at_message_id a) /\
    Storage.dup flag = bool_decide (is_Some (t !! Run.at_message_id a)).
Proof.
  unfold Run.insert_attempt.
  destruct (t !! Run.at_message_id a) as [v|] eqn:E.
  - eexists _, t. rewrite insert_taken by eauto. repeat split; eauto.
  - eexists _, _. rewrite insert_fresh by exact E. repeat split.
    + now apply insert_subseteq.
    + rewrite lookup_insert_eq. eauto.
Qed.

Lemma insert_all_ready atts : forall t,
  exists flags t',
    Run.insert_all (Storage.ready t) atts = Ok (flags, Storage.ready t') /\
    t ⊆ t' /\
    forall i a, atts !! i = Some a -> is_Some (t !! Run.at_message_id a) ->
                flags !! i = Some {| Storage.dup := true |}.
Proof.
  induction atts as [|a atts IH]; intros t; simpl.
  - exists [], t. repeat split; [reflexivity|]. intros i a H; destruct i; discriminate.
  - destruct (insert_attempt_ready t a) as (flag & t1 & -> & Hsub & _ & Hflag); simpl.
    destruct (IH t1) as (flags & t2 & -> & Hsub2 & Hflags); simpl.
    exists (flag :: flags), t2. repeat split.
    + now transitivity t1.
    + intros [|i] b Hb Hin; simpl in *.
      * injection Hb as ->. destruct flag as [d]; simpl in *.
        now rewrite Hflag, bool_decide_eq_true_2.
      * apply (Hflags i b Hb). destruct Hin as [v Hv].
        exists v. eapply lookup_weaken; eauto.
Qed.

Lemma rows_with_id_ready id t :
  Run.rows_with_id id (Storage.ready t)
  = match t !! id with
    | Some v => [Storage.to_row (id, v)]
    | None => []
    end.
Proof.
  unfold Run.rows_with_id; simpl.
  assert (filter (fun r => Storage.message_id r = id) (Storage.to_row <$> map_to_list t)
          ≡ₚ match t !! id with Some v => [Storage.to_row (id, v)] | None => [] end) as HP.
  { induction t as [|i x m Hi IH] using map_ind.
    - now rewrite map_to_list_empty, lookup_empty.
    - rewrite map_to_list_insert by exact Hi. rewrite fmap_cons, filter_cons; simpl.
      destruct (decide (i = id)) as [->|Hne].
      + rewrite lookup_insert_eq, IH, Hi. reflexivity.
      + rewrite lookup_insert_ne by exact Hne. exact IH. }
  destruct (t !! id).
  - now apply Permutation_singleton_r in HP.
  - now apply Permutation_nil_r in HP.
Qed.

Section WebhookFacts.

Variable hmac : string -> Main.bytes -> string.
Variable decode : Main.bytes -> option json.
Variable validate : json -> Models.validation.

#[local] Abbreviation post := (Run.post hmac decode validate).
#[local] Abbreviation post_all := (Run.post_all hmac decode validate).
#[local] Abbreviation delivers := (Run.delivers hmac decode validate).

(** A request never removes or changes a stored row, nor the settings. *)
Lemma post_keeps app r t :
  Main.db app = Storage.ready t ->
  exists t', Main.db (Main.app_after (post app r)) = Storage.ready t' /\ t ⊆ t' /\
             Main.settings (Main.app_after (post app r)) = Main.settings app.
Proof.
  intros Hdb. unfold Run.post, Main.webhook.
  assert (exists t', Main.db (Main.app_after (Main.reject_signature decode app (Run.rq_raw r)))
                     = Storage.ready t' /\ t ⊆ t' /\
                     Main.settings (Main.app_after (Main.reject_signature decode app (Run.rq_raw r)))
                     = Main.settings app) as Hrej by (exists t; simpl; auto).
  assert (forall e, exists t', Main.db (Main.app_after (Main.raised app e)) = Storage.ready t' /\
                               t ⊆ t' /\
                               Main.settings (Main.app_after (Main.raised app e))
                               = Main.settings app) as Hraise by (intros e; exists t; simpl; auto).
  destruct (Run.rq_sig r) as [sig|]; [|exact Hrej].
  destruct (negb (Text.truthy sig)); [exact Hrej|].
  destruct (negb (Text.truthy_opt _)); [exact Hrej|].
  destruct (Main._signature_valid _ _ _ _) as [[|]|e]; [|exact Hrej|apply Hraise].
  unfold Main.accept_signature.
  destruct (decode (Run.rq_raw r)) as [payload|]; [|exists t; simpl; auto].
  destruct (validate payload) as [msg|errs]; [|exists t; simpl; auto].
  destruct (insert_attempt_ready t (Run.attempt_of (Run.rq_now r) msg))
    as (flag & t' & Hins & Hsub & _).
  unfold Run.insert_attempt in Hins; simpl in Hins. rewrite Hdb, Hins.
  exists t'; simpl; auto.
Qed.

Lemma post_all_keeps rs : forall app t,
  Main.db app = Storage.ready t ->
  exists t', Main.db (post_all app rs) = Storage.ready t' /\ t ⊆ t' /\
             Main.settings (post_all app rs) = Main.settings app.
Proof.
  induction rs as [|r rs IH]; intros app t Hdb; simpl.
  - exists t; auto.
  - destruct (post_keeps app r t Hdb) as (t1 & H1 & Hsub1 & Hset1).
    destruct (IH _ t1 H1) as (t2 & H2 & Hsub2 & Hset2).
    exists t2. repeat split; [exact H2|now transitivity t1|congruence].
Qed.

(** A delivered message is answered 200, inserted when its id is free and
    flagged as a duplicate when it is taken. *)
Lemma post_delivers app secret r msg t :
  Config.webhook_secret (Main.settings app) = Some secret -> secret <> "" ->
  Main.db app = Storage.ready t ->
  delivers secret r msg ->
  let taken := bool_decide (is_Some (t !! Models.message_id msg)) in
  Main.outcome (post app r) = Ok Main.status_ok_200 /\
  Main.webhook_log_fields (post app r)
  = Some {| Main.log_message_id := JStr (Models.message_id msg);
            Main.log_dup := taken;
            Main.log_result := if taken then "duplicate" else "created" |} /\
  Run.insert_attempt (Main.db app) (Run.attempt_of (Run.rq_now r) msg)
  = Ok ({| Storage.dup := taken |}, Main.db (Main.app_after (post app r))).
Proof.
  intros Hsec Hne Hdb (sig & payload & Hsig & Htr & Hvalid & Hdec & Hval) taken.
  unfold Run.post, Main.webhook. rewrite Hsig, Htr, Hsec; simpl.
  destruct secret as [|c secret]; [congruence|]. simpl. rewrite Hvalid.
  unfold Main.accept_signature. rewrite Hdec, Hval.
  destruct (insert_attempt_ready t (Run.attempt_of (Run.rq_now r) msg))
    as ([d] & t' & Hins & _ & _ & Hflag).
  simpl in Hflag. fold taken in Hflag. subst d.
  rewrite Hdb, Hins.
  unfold Run.insert_attempt in Hins; simpl in Hins. rewrite Hins. simpl.
  now destruct taken.
Qed.

End WebhookFacts.

Lemma first_insert_row now msg t :
  t !! Models.message_id msg = None ->
  exists t1,
    Run.insert_attempt (Storage.ready t) (Run.attempt_of now msg)
    = Ok ({| Storage.dup := false |}, Storage.ready t1) /\
    t1 !! Models.message_id msg
    = Some {| Storage.s_from_msisdn := Models.from_msisdn msg;
              Storage.s_to_msisdn := Models.to_msisdn msg;
              Storage.s_ts := Models.ts msg;
              Storage.s_text := Models.text msg;
              Storage.s_created_at := now |}.
Proof.
  intros H. eexists. split.
  - unfold Run.insert_attempt; simpl. now apply insert_fresh.
  - now rewrite lookup_insert_eq.
Qed.

Lemma rows_with_id_stored now msg t :
  t !! Models.message_id msg
  = Some {| Storage.s_from_msisdn := Models.from_msisdn msg;
            Storage.s_to_msisdn := Models.to_msisdn msg;
            Storage.s_ts := Models.ts msg;
            Storage.s_text := Models.text msg;
            Storage.s_created_at := now |} ->
  Run.rows_with_id (Models.message_id msg) (Storage.ready t) = [Run.row_of now msg].
Proof. intros H. now rewrite rows_with_id_ready, H. Qed.

(** C1.  Storage: the first insert of a message (its id is not yet in the
    table) returns the flag "created" and leaves exactly one row with that
    id, holding the message's values; after it, in any sequence of further
    attempts, every attempt with the same id (whatever its other values)
    returns the flag "duplicate", and the row is still the first one.
    Handler: the request that delivers the message first and a later request
    that delivers a message with the same id, with any requests in between,
    are both answered 200 with body status ok; the first is recorded as
    created, the later one as a duplicate that leaves the database as it
    was. *)
Theorem idempotent_insert
    (hmac : string -> Main.bytes -> string)
    (decode : Main.bytes -> option json)
    (validate : json -> Models.validation)
    (app : Main.App) (secret : string) (t : gmap string Storage.stored)
    (first again : Run.request) (between : list Run.request)
    (m m' : Models.WebhookMessageIn) :
  Config.webhook_secret (Main.settings app) = Some secret -> secret <> "" ->
  Main.db app = Storage.ready t ->
  t !! Models.message_id m = None ->
  Run.delivers hmac decode validate secret first m ->
  Run.delivers hmac decode validate secret again m' ->
  Models.message_id m' = Models.message_id m ->
  let h1 := Run.post hmac decode validate app first in
  let app2 := Run.post_all hmac decode validate (Main.app_after h1) between in
  let h2 := Run.post hmac decode validate app2 again in
  (forall now, exists t1,
      Run.insert_attempt (Storage.ready t) (Run.attempt_of now m)
      = Ok ({| Storage.dup := false |}, Storage.ready t1) /\
      Run.rows_with_id (Models.message_id m) (Storage.ready t1) = [Run.row_of now m] /\
      forall atts, exists flags t2,
        Run.insert_all (Storage.ready t1) atts = Ok (flags, Storage.ready t2) /\
        Run.rows_with_id (Models.message_id m) (Storage.ready t2) = [Run.row_of now m] /\
        forall i a, atts !! i = Some a ->
                    Run.at_message_id a = Models.message_id m ->
                    flags !! i = Some {| Storage.dup := true |}) /\
  Main.outcome h1 = Ok Main.status_ok_200 /\
  Main.webhook_log_fields h1
  = Some {| Main.log_message_id := JStr (Models.message_id m);
            Main.log_dup := false; Main.log_result := "created" |} /\
  Run.rows_with_id (Models.message_id m) (Main.db (Main.app_after h1))
  = [Run.row_of (Run.rq_now first) m] /\
  Main.outcome h2 = Ok Main.status_ok_200 /\
  Main.webhook_log_fields h2
  = Some {| Main.log_message_id := JStr (Models.message_id m);
            Main.log_dup := true; Main.log_result := "duplicate" |} /\
  Main.db (Main.app_after h2) = Main.db app2 /\
  Run.rows_with_id (Models.message_id m) (Main.db (Main.app_after h2))
  = [Run.row_of (Run.rq_now first) m].
Proof.
  intros Hsec Hne Hdb Hfree Hfirst Hagain Hid h1 app2 h2.
  split.
  { intros now. destruct (first_insert_row now m t Hfree) as (t1 & Hins & Hrow).
    exists t1. split; [exact Hins|]. split; [now apply rows_with_id_stored|].
    intros atts. destruct (insert_all_ready atts t1) as (flags & t2 & Hall & Hsub & Hflags).
    exists flags, t2. split; [exact Hall|]. split.
    - apply rows_with_id_stored. eapply lookup_weaken; eauto.
    - intros i a Ha Hida. apply (Hflags i a Ha). rewrite Hida. eauto. }
  (* the first request *)
  destruct (post_delivers hmac decode validate app secret first m t Hsec Hne Hdb Hfirst)
    as (Hout1 & Hlog1 & Hins1).
  rewrite bool_decide_eq_false_2 in Hlog1, Hins1 by (rewrite Hfree; apply is_Some_None).
  destruct (first_insert_row (Run.rq_now first) m t Hfree) as (t1 & Hins1' & Hrow1).
  rewrite Hdb, Hins1' in Hins1. injection Hins1 as Hdb1. fold h1 in Hdb1, Hout1, Hlog1.
  (* the requests in between *)
  destruct (post_keeps hmac decode validate app first t Hdb) as (t1' & _ & _ & Hset1).
  fold h1 in Hset1.
  destruct (post_all_keeps hmac decode validate between (Main.app_after h1) t1 (eq_sym Hdb1))
    as (t2 & Hdb2 & Hsub2 & Hset2).
  fold app2 in Hdb2, Hset2.
  assert (t2 !! Models.message_id m' = t1 !! Models.message_id m) as Hrow2.
  { rewrite Hid, Hrow1. eapply lookup_weaken; eauto. }
  (* the later request *)
  assert (Config.webhook_secret (Main.settings app2) = Some secret) as Hsec2 by congruence.
  destruct (post_delivers hmac decode validate app2 secret again m' t2 Hsec2 Hne Hdb2 Hagain)
    as (Hout2 & Hlog2 & Hins2).
  rewrite bool_decide_eq_true_2 in Hlog2, Hins2 by (rewrite Hrow2, Hrow1; eauto).
  fold h2 in Hout2, Hlog2, Hins2.
  rewrite Hdb2 in Hins2. unfold Run.insert_attempt in Hins2; simpl in Hins2.
  rewrite insert_taken in Hins2 by (rewrite Hrow2, Hrow1; eauto).
  injection Hins2 as Hdb3.
  rewrite <- Hdb1, <- Hdb3, Hdb2, Hid in *.
  repeat split; auto.
  - now apply rows_with_id_stored.
  - apply rows_with_id_stored. rewrite Hrow2. exact Hrow1.
Qed.

Lemma idempotent_insert_witness :
  let h1 := Run.post Sample.toy_hmac Sample.toy_decode Sample.toy_validate
              Sample.app0 (Sample.signed "2025-01-16T00:00:00Z" Byte.x01) in
  let app2 := Run.post_all Sample.toy_hmac Sample.toy_decode Sample.toy_validate
                (Main.app_after h1) [Sample.signed "2025-01-16T00:00:01Z" Byte.x02] in
  let h2 := Run.post Sample.toy_hmac Sample.toy_decode Sample.toy_validate
              app2 (Sample.signed "2025-01-16T00:00:02Z" Byte.x04) in
  Main.outcome h1 = Ok Main.status_ok_200 /\
  Main.outcome h2 = Ok Main.status_ok_200 /\
  Run.rows_with_id "m1" (Main.db (Main.app_after h2))
  = [Run.row_of "2025-01-16T00:00:00Z" Sample.m1].
Proof.
  assert (Run.delivers Sample.toy_hmac Sample.toy_decode Sample.toy_validate
            "test-secret" (Sample.signed "2025-01-16T00:00:00Z" Byte.x01) Sample.m1) as D1.
  { exists "ab", (JInt 1). repeat split; reflexivity. }
  assert (Run.delivers Sample.toy_hmac Sample.toy_decode Sample.toy_validate
            "test-secret" (Sample.signed "2025-01-16T00:00:02Z" Byte.x04) Sample.m1_again) as D2.
  { exists "ab", (JInt 4). repeat split; reflexivity. }
  destruct (idempotent_insert Sample.toy_hmac Sample.toy_decode Sample.toy_validate
              Sample.app0 "test-secret" ∅
              (Sample.signed "2025-01-16T00:00:00Z" Byte.x01)
              (Sample.signed "2025-01-16T00:00:02Z" Byte.x04)
              [Sample.signed "2025-01-16T00:00:01Z" Byte.x02]
              Sample.m1 Sample.m1_again
              eq_refl ltac:(discriminate) eq_refl eq_refl D1 D2 eq_refl)
    as (_ & H1 & _ & _ & H2 & _ & _ & H3).
  exact (conj H1 (conj H2 H3)).
Defined.

(** ** The signature gate *)

Lemma forall_string_lstrip p s :
  Text.forall_string p s = true -> Text.forall_string p (Text.lstrip s) = true.
Proof.
  induction s as [|c s IH]; simpl; [reflexivity|]. intros H.
  destruct (Text.py_isspace c); [|exact H].
  apply andb_prop in H as [_ H]. auto.
Qed.

Lemma forall_string_rstrip p s :
  Text.forall_string p s = true -> Text.forall_string p (Text.rstrip s) = true.
Proof.
  induction s as [|c s IH]; simpl; [reflexivity|]. intros H.
  apply andb_prop in H as [Hc H]. specialize (IH H).
  destruct (Text.rstrip s) as [|d r].
  - destruct (Text.py_isspace c); simpl; [reflexivity|]. now rewrite Hc.
  - simpl in *. now rewrite Hc, IH.
Qed.

Lemma py_lower_char_ascii c :
  (Text.code c <? 128)%N = true -> (Text.code (Text.py_lower_char c) <? 128)%N = true.
Proof. destruct c as [[] [] [] [] [] [] [] []]; vm_compute; auto. Qed.

Lemma is_ascii_normalised s :
  Text.is_ascii s = true -> Text.is_ascii (Text.py_lower (Text.py_strip s)) = true.
Proof.
  intros H. unfold Text.py_strip.
  apply forall_string_lstrip, forall_string_rstrip in H.
  unfold Text.is_ascii, Text.py_lower in *. revert H.
  generalize (Text.rstrip (Text.lstrip s)) as u.
  induction u as [|c u IH]; simpl; [reflexivity|]. intros H.
  apply andb_prop in H as [Hc H]. now rewrite py_lower_char_ascii, IH.
Qed.

(** The gate on ASCII input.  When no secret is configured, or the header is
    absent or empty, or the header, stripped and lower-cased, differs from
    the hex digest, the handler takes the rejecting branch: it answers 401
    "invalid signature", leaves the database as it was, and neither the
    validator nor the clock has a part in the result. *)
Lemma signature_gate_ascii hmac decode validate now app sig raw :
  (Text.truthy_opt (Config.webhook_secret (Main.settings app)) = false \/
   Text.truthy_opt sig = false \/
   exists secret s,
     Config.webhook_secret (Main.settings app) = Some secret /\ sig = Some s /\
     Text.is_ascii s = true /\ Text.is_ascii (hmac secret raw) = true /\
     Text.py_lower (Text.py_strip s) <> hmac secret raw) ->
  Main.webhook hmac decode validate now app sig raw = Main.reject_signature decode app raw /\
  Main.outcome (Main.reject_signature decode app raw) = Ok Main.invalid_signature_401 /\
  Main.db (Main.app_after (Main.reject_signature decode app raw)) = Main.db app.
Proof.
  intros H. split; [|split; reflexivity].
  unfold Main.webhook.
  destruct sig as [s|]; [|reflexivity].
  destruct (Text.truthy s) eqn:Hs; [|reflexivity]. simpl.
  destruct (Text.truthy_opt (Config.webhook_secret (Main.settings app))) eqn:Hsec;
    [|reflexivity]. simpl.
  destruct H as [H|[H|(secret & s' & Hsecret & [= <-] & Has & Hah & Hne)]];
    [discriminate|simpl in H; congruence|].
  rewrite Hsecret; simpl. unfold Main._signature_valid, Main.compare_digest.
  rewrite Hah, (is_ascii_normalised s Has); simpl.
  destruct (String.eqb_spec (hmac secret raw) (Text.py_lower (Text.py_strip s)));
    [congruence|reflexivity].
Qed.

(** C2, at a header the gate does not handle.  With a secret configured and
    the X-Signature header the single character U+00E9, for every body (a
    malformed one too) the digest comparison raises TypeError: the handler
    leaves by that exception, which the middleware records as status 500, and
    does not answer 401; yet the header differs from every ASCII string, so
    from the hex digest.  So it does not hold that every request whose
    signature is to be rejected is answered 401. *)
Theorem signature_gate_non_ascii_header
    (hmac : string -> Main.bytes -> string)
    (decode : Main.bytes -> option json)
    (validate : json -> Models.validation)
    (now : string) (m : Metrics.Metrics) (d : Storage.database) (raw : Main.bytes) :
  let app := {| Main.settings := Sample.settings; Main.metrics := m; Main.db := d |} in
  let h := Main.webhook hmac decode validate now app (Some (String "233" "")) raw in
  Config.webhook_secret (Main.settings app) = Some "test-secret" /\
  (forall digest, Text.is_ascii digest = true ->
                  digest <> String "233" "" /\
                  digest <> Text.py_lower (Text.py_strip (String "233" ""))) /\
  Main.outcome h
  = Raise (TypeError "comparing strings with non-ASCII characters is not supported") /\
  Main.resolved_status (Main.outcome h) = 500%Z /\
  Main.outcome h <> Ok Main.invalid_signature_401 /\
  ~ (forall hmac decode validate now app sig raw,
        Spec.signature_rejected hmac (Config.webhook_secret (Main.settings app)) sig raw ->
        Main.outcome (Main.webhook hmac decode validate now app sig raw)
        = Ok Main.invalid_signature_401).
Proof.
  intros app h. split; [reflexivity|]. split.
  { intros digest Hd. split; intros ->; discriminate Hd. }
  assert (Main.outcome h
          = Raise (TypeError "comparing strings with non-ASCII characters is not supported")) as E.
  { subst h app. unfold Main.webhook, Main._signature_valid, Main.compare_digest.
    change (Config.webhook_secret
              (Main.settings {| Main.settings := Sample.settings; Main.metrics := m; Main.db := d |}))
      with (Some "test-secret").
    cbn [negb Text.truthy Text.truthy_opt default from_option id].
    change (Text.is_ascii (Text.py_lower (Text.py_strip (String "233" "")))) with false.
    now rewrite andb_false_r. }
  rewrite E. repeat split; try discriminate.
  intros H.
  specialize (H Sample.toy_hmac Sample.toy_decode Sample.toy_validate ""
                Sample.app0 (Some (String "233" "")) []).
  assert (Main.outcome
            (Main.webhook Sample.toy_hmac Sample.toy_decode Sample.toy_validate ""
               Sample.app0 (Some (String "233" "")) [])
          = Raise (TypeError "comparing strings with non-ASCII characters is not supported"))
    as E' by reflexivity.
  rewrite E' in H. discriminate H.
  right. right. exists "test-secret", (String "233" "").
  split; [reflexivity|]. split; [reflexivity|]. discriminate.
Qed.

(** ** Filters *)

(** The rows a query selects are the rows of the table on which every
    conjunct built from the given filters holds. *)
Lemma select_where_spec from_filter since q t r :
  r ∈ Storage.select_where (Storage._build_filters from_filter since q) t <->
  r ∈ Storage.to_row <$> map_to_list t /\
  (forall f, from_filter = Some f -> f <> "" -> Storage.from_msisdn r = f) /\
  (forall s, since = Some s -> s <> "" -> String.le s (Storage.ts r)) /\
  (forall x, q = Some x ->
             Text.sql_like (Text.sqlite_lower (default "" (Storage.text r)))
                           ("%" +:+ Text.py_lower x +:+ "%") = true).
Proof.
  unfold Storage.select_where. rewrite list_elem_of_filter.
  unfold Storage.where_holds, Storage._build_filters.
  rewrite !forallb_app, !andb_true_iff.
  assert (forall P Q R : Prop, (P <-> Q) -> (P /\ R <-> R /\ Q)) as Hswap by tauto.
  apply Hswap. clear Hswap.
  assert (forall A B C A' B' C' : Prop,
             (A <-> A') -> (B <-> B') -> (C <-> C') -> (A /\ B /\ C <-> A' /\ B' /\ C'))
    as Hconj by tauto.
  apply Hconj; clear Hconj.
  - destruct from_filter as [[|c f]|]; simpl.
    + split; [|reflexivity]. intros _ f [= <-] Hf. congruence.
    + rewrite andb_true_r, bool_decide_eq_true. split.
      * intros H f' [= <-] _. exact H.
      * intros H. now apply H.
    + split; [|reflexivity]. intros _ f Hf. discriminate.
  - destruct since as [[|c s]|]; simpl.
    + split; [|reflexivity]. intros _ f [= <-] Hf. congruence.
    + rewrite andb_true_r. unfold Text.sql_ge, String.le. split.
      * intros H s' [= <-] _. now rewrite H.
      * intros H. specialize (H _ eq_refl ltac:(discriminate)).
        now apply Is_true_true_1 in H.
    + split; [|reflexivity]. intros _ f Hf. discriminate.
  - destruct q as [x|]; simpl.
    + rewrite andb_true_r. split.
      * intros H x' [= <-]. exact H.
      * intros H. now apply H.
    + split; [|reflexivity]. intros _ f Hf. discriminate.
Qed.

(** C3, at two text filters the LIKE pattern does not treat as plain text.
    With q the underscore, the query over the three sample messages returns
    all three and total 3, though none of their texts contains an underscore.
    With q the capital U+00C0, the query over the message whose text starts
    with that letter returns no row and total 0, though the text contains
    q.  So it does not hold that the query selects exactly the rows on which
    every given filter holds. *)
Theorem text_filter_like_pattern :
  (exists page,
      Storage.list_messages_sync (Storage.ready Sample.three) 50 0 None None (Some "_")
      = Ok page /\
      Storage.message_id <$> Storage.rows page = ["m1"; "m2"; "m3"] /\
      Storage.total page = 3 /\
      Forall (fun r => Spec.text_contains "_" r = false) (Storage.rows page)) /\
  (Storage.list_messages_sync (Storage.ready Sample.accented) 50 0 None None
     (Some (String "192" ""))
   = Ok {| Storage.rows := []; Storage.total := 0 |} /\
   Forall (fun r => Spec.text_contains (String "192" "") r = true)
          (Storage.to_row <$> map_to_list Sample.accented)) /\
  ~ (forall t f s q r,
        r ∈ Storage.select_where (Storage._build_filters f s q) t <->
        r ∈ Storage.to_row <$> map_to_list t /\ Spec.matches f s q r).
Proof.
  split; [|split].
  - eexists. split; [vm_compute; reflexivity|].
    split; [reflexivity|]. split; [reflexivity|].
    repeat constructor.
  - split; [vm_compute; reflexivity|].
    vm_compute. repeat constructor.
  - intros H.
    specialize (H Sample.three None None (Some "_")
                  (Run.row_of "2025-01-16T00:00:00Z" Sample.m1)).
    assert (Run.row_of "2025-01-16T00:00:00Z" Sample.m1
            ∈ Storage.select_where (Storage._build_filters None None (Some "_")) Sample.three)
      as Hin by (vm_compute; repeat constructor).
    apply H in Hin as (_ & _ & _ & Hq). specialize (Hq "_" eq_refl). discriminate Hq.
Qed.

(** ** The text filter on plain text *)

(** On a plain pattern character, LIKE's comparison with a character that
    went through [lower()] is the comparison up to case. *)
Lemma like_char_plain c d :
  Spec.plain_char c = true ->
  ((Text.code (Text.py_lower_char c) =? 37)%N = false /\
   (Text.code (Text.py_lower_char c) =? 95)%N = false /\
   (Text.code (Text.py_lower_char c) =? 0)%N = false) /\
  Ascii.eqb (Text.ascii_lower (Text.py_lower_char c)) (Text.ascii_lower (Text.ascii_lower d))
  = Ascii.eqb (Text.py_lower_char c) (Text.py_lower_char d).
Proof.
  intros Hc.
  set (Q := fun c d =>
         Bool.eqb
           (Ascii.eqb (Text.ascii_lower (Text.py_lower_char c))
                      (Text.ascii_lower (Text.ascii_lower d)))
           (Ascii.eqb (Text.py_lower_char c) (Text.py_lower_char d))).
  set (P := fun c =>
         implb (Spec.plain_char c)
           (negb (Text.code (Text.py_lower_char c) =? 37)%N
            && negb (Text.code (Text.py_lower_char c) =? 95)%N
            && negb (Text.code (Text.py_lower_char c) =? 0)%N
            && forallb (fun m => Q c (ascii_of_nat m)) (seq 0 256))).
  assert (forall c, P c = true) as HP by (apply forall_ascii; vm_compute; reflexivity).
  specialize (HP c). unfold P in HP. rewrite Hc in HP. cbn [implb] in HP.
  apply andb_prop in HP as [HP Hd]. apply andb_prop in HP as [HP H0].
  apply andb_prop in HP as [H37 H95].
  apply negb_true_iff in H37, H95, H0.
  split; [auto|].
  apply eqb_prop. exact (forall_ascii (Q c) Hd d).
Qed.

Lemma c_str_no_nul s : Spec.no_nul s = true -> Text.c_str s = s.
Proof.
  induction s as [|c s IH]; simpl; [reflexivity|]. intros H.
  apply andb_prop in H as [Hc Hs]. apply negb_true_iff in Hc.
  now rewrite Hc, IH.
Qed.

Lemma ascii_lower_not_nul c :
  negb (Text.code c =? 0)%N = true -> negb (Text.code (Text.ascii_lower c) =? 0)%N = true.
Proof.
  intros H.
  pose proof (forall_ascii
                (fun c => implb (negb (Text.code c =? 0)%N)
                                (negb (Text.code (Text.ascii_lower c) =? 0)%N))
                ltac:(vm_compute; reflexivity) c) as HP.
  cbv beta in HP. now rewrite H in HP.
Qed.

Lemma no_nul_sqlite_lower s :
  Spec.no_nul s = true -> Spec.no_nul (Text.sqlite_lower s) = true.
Proof.
  unfold Spec.no_nul, Text.sqlite_lower.
  induction s as [|c s IH]; simpl; [reflexivity|]. intros H.
  apply andb_prop in H as [Hc Hs]. now rewrite (IH Hs), ascii_lower_not_nul.
Qed.

Lemma no_nul_plain_pattern q :
  Spec.plain q = true -> Spec.no_nul (Text.py_lower q +:+ "%") = true.
Proof.
  unfold Spec.plain, Spec.no_nul, Text.py_lower.
  induction q as [|c q IH]; simpl; [reflexivity|]. intros H.
  apply andb_prop in H as [Hc Hq].
  destruct (like_char_plain c c Hc) as [(_ & _ & H0) _].
  now rewrite H0, (IH Hq).
Qed.

Lemma percent_skip r s :
  Text.pattern_compare (String "%" r) s
  = Text.pattern_compare r s ||
    match s with
    | EmptyString => false
    | String _ s' => Text.pattern_compare (String "%" r) s'
    end.
Proof. destruct s; reflexivity. Qed.

Lemma append_cons c x y : String c x +:+ y = String c (x +:+ y).
Proof. reflexivity. Qed.

(** A plain pattern followed by [%] matches the strings it is a prefix of, up
    to case. *)
Lemma prefix_plain q :
  Spec.plain q = true ->
  forall s, Text.pattern_compare (Text.py_lower q +:+ "%") (Text.sqlite_lower s)
            = Spec.prefix_ci q s.
Proof.
  unfold Spec.plain, Text.py_lower, Text.sqlite_lower.
  induction q as [|c q IH]; intros H s.
  - apply pattern_percent_any.
  - simpl in H. apply andb_prop in H as [Hc Hq].
    destruct (like_char_plain c c Hc) as [(H37 & H95 & _) _].
    cbn [Text.map_string Spec.prefix_ci]. rewrite append_cons.
    cbn [Text.pattern_compare]. rewrite H37, H95. destruct s as [|d s]; [reflexivity|].
    cbn [Text.map_string orb].
    destruct (like_char_plain c d Hc) as [_ ->]. now rewrite (IH Hq).
Qed.

(** Between two [%] it matches the strings it occurs in, up to case. *)
Lemma occurs_plain q :
  Spec.plain q = true ->
  forall s, Text.pattern_compare ("%" +:+ Text.py_lower q +:+ "%") (Text.sqlite_lower s)
            = Spec.occurs_ci q s.
Proof.
  intros Hq s. change ("%" +:+ Text.py_lower q +:+ "%")
    with (String "%" (Text.py_lower q +:+ "%")).
  induction s as [|d s IH].
  - rewrite percent_skip. cbn [Spec.occurs_ci Text.sqlite_lower Text.map_string].
    f_equal. exact (prefix_plain q Hq "").
  - change (Text.sqlite_lower (String d s))
      with (String (Text.ascii_lower d) (Text.sqlite_lower s)).
    rewrite percent_skip, IH. cbn [Spec.occurs_ci].
    f_equal. exact (prefix_plain q Hq (String d s)).
Qed.

(** On a plain [q] and a text without NUL, the conjunct built for [q] is the
    text filter of the specification. *)
Lemma text_filter_plain q r :
  Spec.plain q = true ->
  Spec.no_nul (default "" (Storage.text r)) = true ->
  Storage.cond_holds r (Storage.TextLike ("%" +:+ Text.py_lower q +:+ "%"))
  = Spec.text_contains q r.
Proof.
  intros Hq Hr. unfold Storage.cond_holds, Text.sql_like, Spec.text_contains.
  rewrite (c_str_no_nul (Text.sqlite_lower _)) by now apply no_nul_sqlite_lower.
  rewrite (c_str_no_nul ("%" +:+ _)) by (simpl; now apply no_nul_plain_pattern).
  now apply occurs_plain.
Qed.

(** The filter semantics away from the characters LIKE reads specially: when
    [q], if given, is plain and no stored text holds a NUL, the query selects
    exactly the rows of the table on which every given filter holds. *)
Lemma filter_semantics_plain (t : gmap string Storage.stored) from_filter since q r :
  (forall x, q = Some x -> Spec.plain x = true) ->
  (forall r, r ∈ Storage.to_row <$> map_to_list t ->
             Spec.no_nul (default "" (Storage.text r)) = true) ->
  r ∈ Storage.select_where (Storage._build_filters from_filter since q) t <->
  r ∈ Storage.to_row <$> map_to_list t /\ Spec.matches from_filter since q r.
Proof.
  intros Hq Ht. rewrite select_where_spec. unfold Spec.matches.
  split; intros (Hr & Hf & Hs & Hx); repeat split; auto; intros x E.
  - rewrite <- (text_filter_plain x r) by auto. now apply Hx.
  - specialize (Hx x E). rewrite <- (text_filter_plain x r) in Hx by auto. exact Hx.
Qed.

(** ** Listing order *)

#[local] Instance row_le_total : Total Storage.row_le.
Proof.
  intros a b. unfold Storage.row_le.
  rewrite (bool_decide_ext (Storage.ts b = Storage.ts a) (Storage.ts a = Storage.ts b))
    by (split; congruence).
  destruct (bool_decide (Storage.ts a = Storage.ts b)); apply (total String.le).
Qed.

#[local] Instance row_le_trans : Transitive Storage.row_le.
Proof.
  intros a b c. unfold Storage.row_le.
  repeat case_bool_decide; intros Hab Hbc; try congruence.
  - etransitivity; eassumption.
  - exfalso. assert (Storage.ts a = Storage.ts b); [|congruence].
    apply (anti_symm String.le); congruence.
  - etransitivity; eassumption.
Qed.

(** Two rows in either order of the listing have the same [ts] and the same
    [message_id]. *)
Lemma row_le_antisym a b :
  Storage.row_le a b -> Storage.row_le b a ->
  Storage.ts a = Storage.ts b /\ Storage.message_id a = Storage.message_id b.
Proof.
  unfold Storage.row_le. repeat case_bool_decide; intros Hab Hba; try congruence.
  - split; [assumption|]. now apply (anti_symm String.le).
  - exfalso. assert (Storage.ts a = Storage.ts b); [|congruence].
    now apply (anti_symm String.le).
Qed.

#[local] Instance to_row_inj : Inj (=) (=) Storage.to_row.
Proof.
  intros [k1 [f1 t1 s1 x1 c1]] [k2 [f2 t2 s2 x2 c2]]; unfold Storage.to_row; simpl.
  intros [=]. congruence.
Qed.

Lemma table_rows_NoDup (t : gmap string Storage.stored) :
  NoDup (Storage.to_row <$> map_to_list t).
Proof. apply (NoDup_fmap_2 _), NoDup_map_to_list. Qed.

(** The primary key: two rows of the table with one id are one row. *)
Lemma table_rows_key (t : gmap string Storage.stored) r1 r2 :
  r1 ∈ Storage.to_row <$> map_to_list t ->
  r2 ∈ Storage.to_row <$> map_to_list t ->
  Storage.message_id r1 = Storage.message_id r2 -> r1 = r2.
Proof.
  intros ([k1 v1] & -> & H1)%list_elem_of_fmap ([k2 v2] & -> & H2)%list_elem_of_fmap.
  simpl. intros <-.
  apply elem_of_map_to_list in H1, H2. congruence.
Qed.

Lemma select_where_sub w t r :
  r ∈ Storage.select_where w t -> r ∈ Storage.to_row <$> map_to_list t.
Proof. unfold Storage.select_where. rewrite list_elem_of_filter. tauto. Qed.

Lemma select_where_NoDup w t : NoDup (Storage.select_where w t).
Proof. apply NoDup_filter, table_rows_NoDup. Qed.

(** The rows of a query in listing order. *)
Lemma sorted_rows_facts w t :
  let l := merge_sort Storage.row_le (Storage.select_where w t) in
  StronglySorted Storage.row_le l /\ l ≡ₚ Storage.select_where w t /\ NoDup l.
Proof.
  intros l. split; [apply (StronglySorted_merge_sort _)|].
  split; [apply merge_sort_Permutation|].
  subst l. rewrite merge_sort_Permutation. apply select_where_NoDup.
Qed.

(** The listing order leaves no choice: a sorted arrangement of the selected
    rows is the one the query returns. *)
Lemma sorted_rows_unique w t l :
  l ≡ₚ Storage.select_where w t -> Sorted Storage.row_le l ->
  l = merge_sort Storage.row_le (Storage.select_where w t).
Proof.
  intros HP HS.
  apply (StronglySorted_unique_strong Storage.row_le).
  - intros x1 x2 H1 H2 H12 H21.
    apply (table_rows_key t).
    + apply (select_where_sub w). now rewrite <- HP.
    + apply (select_where_sub w). now rewrite <- (merge_sort_Permutation Storage.row_le).
    + now apply row_le_antisym.
  - now apply (Sorted_StronglySorted _).
  - apply (StronglySorted_merge_sort _).
  - now rewrite merge_sort_Permutation.
Qed.

Lemma limit_offset_sublist {A} limit offset (l : list A) :
  Storage.limit_offset limit offset l `sublist_of` l.
Proof.
  unfold Storage.limit_offset. destruct (limit <? 0)%Z.
  - apply sublist_drop.
  - etransitivity; [apply sublist_take|apply sublist_drop].
Qed.

Lemma StronglySorted_sublist {A} (R : relation A) l1 l2 :
  l1 `sublist_of` l2 -> StronglySorted R l2 -> StronglySorted R l1.
Proof.
  induction 1 as [|x l1 l2 Hsub IH|x l1 l2 Hsub IH]; intros HS.
  - constructor.
  - apply StronglySorted_inv in HS as [HS Hall]. constructor; [auto|].
    rewrite Forall_forall in *. intros y Hy. apply Hall.
    eapply elem_of_submseteq; [exact Hy|now apply sublist_submseteq].
  - apply StronglySorted_inv in HS as [HS _]. auto.
Qed.

Lemma bind_int_ok z : (- 2 ^ 63 <= z < 2 ^ 63)%Z -> Storage.bind_int z = Ok z.
Proof.
  intros [H1 H2]. unfold Storage.bind_int.
  apply Z.leb_le in H1. apply Z.ltb_lt in H2. now rewrite H1, H2.
Qed.

Lemma bind_int_inv z z' : Storage.bind_int z = Ok z' -> z' = z.
Proof. unfold Storage.bind_int. destruct (_ && _); congruence. Qed.

(** The WHERE clause, when no LIKE is refused, is the conjunction. *)
Lemma where_eval_holds w r b :
  Storage.where_eval w r = Some b -> Storage.where_holds w r = b.
Proof.
  unfold Storage.where_holds. revert b. induction w as [|c w IH]; intros b; simpl.
  - congruence.
  - destruct (Storage.like_refused c); [discriminate|].
    destruct (Storage.cond_holds r c); simpl; [apply IH|congruence].
Qed.

Lemma scan_cases w t :
  Storage.scan w t = Ok tt \/
  Storage.scan w t = Raise (OperationalError "LIKE or GLOB pattern too complex").
Proof. unfold Storage.scan. destruct (forallb _ _); auto. Qed.

Lemma forallb_false_elem {A} (p : A -> bool) (l : list A) :
  forallb p l = false <-> exists x, x ∈ l /\ p x = false.
Proof.
  induction l as [|a l IH]; simpl.
  - split; [discriminate|]. intros (x & Hx & _). inversion Hx.
  - rewrite andb_false_iff, IH. split.
    + intros [H|(x & Hx & H)]; [exists a|exists x]; split; auto;
        [apply list_elem_of_here|now apply list_elem_of_further].
    + intros (x & [->|Hx]%elem_of_cons & H); eauto.
Qed.

(** A statement fails exactly when some row reaches a refused LIKE. *)
Lemma scan_raises w t :
  Storage.scan w t = Raise (OperationalError "LIKE or GLOB pattern too complex") <->
  exists r, r ∈ Storage.to_row <$> map_to_list t /\ Storage.where_eval w r = None.
Proof.
  unfold Storage.scan.
  destruct (forallb _ _) eqn:E.
  - split; [discriminate|]. intros (r & Hr & Hn).
    rewrite forallb_forall in E. apply list_elem_of_In, E in Hr.
    apply bool_decide_eq_true in Hr. rewrite Hn in Hr. now destruct Hr.
  - split; [|reflexivity]. intros _.
    apply forallb_false_elem in E as (r & Hr & Hn). exists r. split; [exact Hr|].
    apply bool_decide_eq_false in Hn.
    destruct (Storage.where_eval w r); [|reflexivity].
    exfalso. apply Hn. eauto.
Qed.

Lemma utf8_length_app a b :
  Storage.utf8_length (a +:+ b) = (Storage.utf8_length a + Storage.utf8_length b)%N.
Proof.
  induction a as [|c a IH]; [reflexivity|].
  change (String c a +:+ b) with (String c (a +:+ b)).
  cbn [Storage.utf8_length]. rewrite IH. lia.
Qed.

Lemma utf8_length_py_lower x :
  Storage.utf8_length (Text.py_lower x) = Storage.utf8_length x.
Proof.
  unfold Text.py_lower. induction x as [|c x IH]; [reflexivity|].
  cbn [Text.map_string Storage.utf8_length]. rewrite IH. f_equal.
  assert (forall c, Bool.eqb (Text.code (Text.py_lower_char c) <? 128)%N
                             (Text.code c <? 128)%N = true) as H
    by (apply forall_ascii; vm_compute; reflexivity).
  now rewrite (eqb_prop _ _ (H c)).
Qed.

(** The pattern made of [q] is refused exactly when it does not fit, which
    is when [q] has more than 49,998 bytes. *)
Lemma like_refused_fits x :
  Storage.like_refused (Storage.TextLike ("%" +:+ Text.py_lower x +:+ "%"))
  = negb (Filtered.fits (Some x)).
Proof.
  unfold Storage.like_refused, Storage.like_pattern_limit, Filtered.fits.
  apply N.ltb_antisym.
Qed.

Lemma fits_bytes x :
  Filtered.fits (Some x) = (Storage.utf8_length x <=? 49998)%N.
Proof.
  unfold Filtered.fits. rewrite !utf8_length_app, utf8_length_py_lower.
  change (Storage.utf8_length "%") with 1%N.
  destruct (N.leb_spec (1 + (Storage.utf8_length x + 1)) 50000);
    destruct (N.leb_spec (Storage.utf8_length x) 49998); try reflexivity; lia.
Qed.

Lemma where_eval_app w1 w2 r :
  forallb (fun c => negb (Storage.like_refused c)) w1 = true ->
  Storage.where_eval (w1 ++ w2) r
  = if Storage.where_holds w1 r then Storage.where_eval w2 r else Some false.
Proof.
  unfold Storage.where_holds. induction w1 as [|c w1 IH]; [reflexivity|].
  cbn [forallb app Storage.where_eval]. intros [Hc Hw]%andb_true_iff.
  apply negb_true_iff in Hc. rewrite Hc.
  destruct (Storage.cond_holds r c); cbn [andb]; [now apply IH|reflexivity].
Qed.

(** The evaluation of the WHERE clause built from the filters on one row. *)
Lemma where_eval_filters f s q r :
  Storage.where_eval (Storage._build_filters f s q) r
  = if Filtered.fits q then Some (Storage.where_holds (Storage._build_filters f s q) r)
    else if Storage.where_holds (Storage._build_filters f s None) r then None
    else Some false.
Proof.
  assert (Storage._build_filters f s q
          = Storage._build_filters f s None
            ++ match q with
               | Some x => [Storage.TextLike ("%" +:+ Text.py_lower x +:+ "%")]
               | None => []
               end) as E.
  { unfold Storage._build_filters. now rewrite app_nil_r, app_assoc. }
  assert (forallb (fun c => negb (Storage.like_refused c)) (Storage._build_filters f s None)
          = true) as Hpre.
  { unfold Storage._build_filters.
    destruct f as [[|c f]|], s as [[|d s]|]; reflexivity. }
  rewrite E at 1 2. rewrite (where_eval_app _ _ r Hpre).
  unfold Storage.where_holds at 2. rewrite forallb_app.
  fold (Storage.where_holds (Storage._build_filters f s None) r).
  destruct (Storage.where_holds (Storage._build_filters f s None) r); cbn [andb].
  - destruct q as [x|]; [|reflexivity]. cbn [Storage.where_eval forallb].
    rewrite like_refused_fits. destruct (Filtered.fits (Some x)); cbn [negb]; [|reflexivity].
    destruct (Storage.cond_holds r _); reflexivity.
  - now destruct (Filtered.fits q).
Qed.

(** The scan returns when the pattern is within the limit. *)
Lemma scan_fits f s q t :
  Filtered.fits q = true -> Storage.scan (Storage._build_filters f s q) t = Ok tt.
Proof.
  intros Hq. destruct (scan_cases (Storage._build_filters f s q) t) as [H|H]; [exact H|].
  apply scan_raises in H as (r & _ & Hr).
  rewrite where_eval_filters, Hq in Hr. discriminate.
Qed.

(** What [list_messages_sync] returns on a ready database, when it returns. *)
Lemma list_messages_ready t limit offset f s q page :
  Storage.list_messages_sync (Storage.ready t) limit offset f s q = Ok page ->
  page = {| Storage.rows :=
              Storage.limit_offset limit offset
                (merge_sort Storage.row_le
                   (Storage.select_where (Storage._build_filters f s q) t));
            Storage.total :=
              length (Storage.select_where (Storage._build_filters f s q) t) |}.
Proof.
  unfold Storage.list_messages_sync.
  cbn [Storage.ready Storage._connect Storage.reachable Storage.from_messages
       Storage.messages bind].
  destruct (Storage.scan _ t) as [[]|e]; cbn [bind]; [|discriminate].
  destruct (Storage.bind_int limit) as [l|] eqn:El; simpl; [|discriminate].
  destruct (Storage.bind_int offset) as [o|] eqn:Eo; simpl; [|discriminate].
  apply bind_int_inv in El, Eo. subst. congruence.
Qed.

(** It returns whenever no row reaches a refused LIKE and the limit and the
    offset fit 64 bits. *)
Lemma list_messages_scanned t limit offset f s q :
  Storage.scan (Storage._build_filters f s q) t = Ok tt ->
  (- 2 ^ 63 <= limit < 2 ^ 63)%Z -> (- 2 ^ 63 <= offset < 2 ^ 63)%Z ->
  Storage.list_messages_sync (Storage.ready t) limit offset f s q
  = Ok {| Storage.rows :=
            Storage.limit_offset limit offset
              (merge_sort Storage.row_le
                 (Storage.select_where (Storage._build_filters f s q) t));
          Storage.total :=
            length (Storage.select_where (Storage._build_filters f s q) t) |}.
Proof.
  intros Hq Hl Ho. unfold Storage.list_messages_sync.
  cbn [Storage.ready Storage._connect Storage.reachable Storage.from_messages
       Storage.messages bind].
  rewrite Hq. cbn [bind].
  now rewrite (bind_int_ok _ Hl), (bind_int_ok _ Ho).
Qed.

(** So it does whenever the pattern is within SQLite's limit. *)
Lemma list_messages_returns t limit offset f s q :
  Filtered.fits q = true ->
  (- 2 ^ 63 <= limit < 2 ^ 63)%Z -> (- 2 ^ 63 <= offset < 2 ^ 63)%Z ->
  Storage.list_messages_sync (Storage.ready t) limit offset f s q
  = Ok {| Storage.rows :=
            Storage.limit_offset limit offset
              (merge_sort Storage.row_le
                 (Storage.select_where (Storage._build_filters f s q) t));
          Storage.total :=
            length (Storage.select_where (Storage._build_filters f s q) t) |}.
Proof. intros Hq. apply list_messages_scanned, scan_fits, Hq. Qed.

(** The rows that reach the text filter, in the words of the code's own
    conjuncts. *)
Lemma reaches_text_holds f s r :
  Storage.where_holds (Storage._build_filters f s None) r = true <->
  Filtered.reaches_text f s r.
Proof.
  unfold Filtered.reaches_text, Storage._build_filters, Storage.where_holds.
  rewrite app_nil_r, forallb_app, andb_true_iff.
  assert (forall A B A' B' : Prop, (A <-> A') -> (B <-> B') -> (A /\ B <-> A' /\ B'))
    as Hconj by tauto.
  apply Hconj; clear Hconj.
  - destruct f as [[|c f]|]; simpl.
    + split; [|reflexivity]. intros _ x [= <-] Hx. congruence.
    + rewrite andb_true_r, bool_decide_eq_true. split.
      * intros H x [= <-] _. exact H.
      * intros H. now apply H.
    + split; [|reflexivity]. intros _ x Hx. discriminate.
  - destruct s as [[|c s]|]; simpl.
    + split; [|reflexivity]. intros _ x [= <-] Hx. congruence.
    + rewrite andb_true_r. unfold Text.sql_ge, String.le. split.
      * intros H x [= <-] _. now rewrite H.
      * intros H. specialize (H _ eq_refl ltac:(discriminate)).
        now apply Is_true_true_1 in H.
    + split; [|reflexivity]. intros _ x Hx. discriminate.
Qed.

(** The scan returns exactly when the pattern is within the limit or no row
    reaches the text filter. *)
Lemma scan_returns f s q t :
  Storage.scan (Storage._build_filters f s q) t = Ok tt <->
  Filtered.fits q = true \/
  forall r, r ∈ Storage.to_row <$> map_to_list t -> ~ Filtered.reaches_text f s r.
Proof.
  split.
  - intros Hok. destruct (Filtered.fits q) eqn:Hq; [now left|right].
    intros r Hr Hreach.
    assert (Storage.scan (Storage._build_filters f s q) t
            = Raise (OperationalError "LIKE or GLOB pattern too complex")) as E;
      [|congruence].
    apply scan_raises. exists r. split; [exact Hr|].
    rewrite where_eval_filters, Hq.
    apply reaches_text_holds in Hreach. now rewrite Hreach.
  - intros [Hq|Hnone]; [now apply scan_fits|].
    destruct (scan_cases (Storage._build_filters f s q) t) as [H|H]; [exact H|].
    apply scan_raises in H as (r & Hr & Hn). exfalso.
    rewrite where_eval_filters in Hn.
    destruct (Filtered.fits q); [discriminate|].
    destruct (Storage.where_holds _ r) eqn:E; [|discriminate].
    apply reaches_text_holds in E. exact (Hnone r Hr E).
Qed.

(** With a pattern over the limit the query fails as soon as one row
    reaches the text filter, whatever the limit and the offset. *)
Lemma list_messages_refused t limit offset f s q :
  Filtered.fits q = false ->
  (exists r, r ∈ Storage.to_row <$> map_to_list t /\ Filtered.reaches_text f s r) ->
  Storage.list_messages_sync (Storage.ready t) limit offset f s q
  = Raise (OperationalError "LIKE or GLOB pattern too complex").
Proof.
  intros Hq (r & Hr & Hreach). unfold Storage.list_messages_sync.
  cbn [Storage.ready Storage._connect Storage.reachable Storage.from_messages
       Storage.messages bind].
  assert (Storage.scan (Storage._build_filters f s q) t
          = Raise (OperationalError "LIKE or GLOB pattern too complex")) as ->;
    [|reflexivity].
  apply scan_raises. exists r. split; [exact Hr|].
  rewrite where_eval_filters, Hq.
  apply reaches_text_holds in Hreach. now rewrite Hreach.
Qed.

Lemma concat_takes {A} (l : list A) (L n : nat) :
  concat ((fun k => take L (drop (k * L) l)) <$> seq 0 n) = take (n * L) l.
Proof.
  induction n as [|n IH]; [now rewrite take_0|].
  rewrite seq_S, fmap_app, concat_app, IH; simpl.
  rewrite app_nil_r, take_take_drop. f_equal. lia.
Qed.

(** With limit and offset that fit 64 bits, the query returns exactly when
    the pattern is within the limit or no row reaches the text filter. *)
Lemma list_messages_returns_iff t limit offset f s q :
  (- 2 ^ 63 <= limit < 2 ^ 63)%Z -> (- 2 ^ 63 <= offset < 2 ^ 63)%Z ->
  (exists page, Storage.list_messages_sync (Storage.ready t) limit offset f s q = Ok page)
  <-> Filtered.fits q = true \/
      forall r, r ∈ Storage.to_row <$> map_to_list t -> ~ Filtered.reaches_text f s r.
Proof.
  intros Hl Ho. rewrite <- scan_returns. split.
  - intros [page Hp]. unfold Storage.list_messages_sync in Hp.
    cbn [Storage.ready Storage._connect Storage.reachable Storage.from_messages
         Storage.messages bind] in Hp.
    destruct (Storage.scan _ t) as [[]|e]; [reflexivity|discriminate].
  - intros Hscan. eexists. now apply list_messages_scanned.
Qed.

(** The pages at offsets 0, L, 2L, ... of a listing with limit L >= 1. *)
Lemma pages_ready t (L : Z) (n : nat) f s q :
  Filtered.fits q = true ->
  (1 <= L)%Z -> (Z.of_nat n * L < 2 ^ 63)%Z ->
  Run.pages (Storage.ready t) L n f s q
  = (fun k =>
       Ok {| Storage.rows :=
               take (Z.to_nat L)
                 (drop (k * Z.to_nat L)
                    (merge_sort Storage.row_le
                       (Storage.select_where (Storage._build_filters f s q) t)));
             Storage.total :=
               length (Storage.select_where (Storage._build_filters f s q) t) |})
    <$> seq 0 n.
Proof.
  intros Hq HL Hn. unfold Run.pages. apply list_fmap_ext.
  intros i k [-> Hk]%lookup_seq. simpl.
  rewrite list_messages_returns by (exact Hq || nia).
  unfold Storage.limit_offset.
  destruct (Z.ltb_spec L 0); [lia|].
  do 3 f_equal. rewrite Z2Nat.inj_mul, Nat2Z.id by lia. reflexivity.
Qed.

Lemma get_messages_page iso app limit offset f s q out :
  Main.get_messages iso app limit offset f s q = Ok (Main.MessagesOk out) ->
  exists page,
    Storage.list_messages_sync (Main.db app) (default 50%Z limit) (default 0%Z offset) f s q
    = Ok page /\
    Models.data out = Storage.rows page /\ Models.total out = Storage.total page /\
    (1 <= default 50 limit <= 100)%Z /\ (0 <= default 0 offset)%Z.
Proof.
  unfold Main.get_messages.
  destruct (Z.leb_spec 1 (default 50%Z limit)); simpl; [|discriminate].
  destruct (Z.leb_spec (default 50%Z limit) 100); simpl; [|discriminate].
  destruct (Z.ltb_spec (default 0%Z offset) 0); simpl; [discriminate|].
  destruct (negb _); [discriminate|].
  destruct (Storage.list_messages_sync _ _ _ _ _ _) as [page|e]; simpl; [|discriminate].
  intros [= <-]. exists page. simpl. repeat split; auto.
Qed.

(** The selected rows are the rows of the table on which the filters given
    hold. *)
Lemma select_where_passes f s q t r :
  r ∈ Storage.select_where (Storage._build_filters f s q) t <->
  r ∈ Storage.to_row <$> map_to_list t /\ Filtered.passes f s q r.
Proof.
  rewrite select_where_spec. unfold Filtered.passes, Filtered.reaches_text. tauto.
Qed.

(** On a plain pattern character the two ways of ignoring case agree. *)
Lemma ascii_fold_plain c d :
  Spec.plain_char c = true ->
  Ascii.eqb (Text.ascii_lower c) (Text.ascii_lower d)
  = Ascii.eqb (Text.py_lower_char c) (Text.py_lower_char d).
Proof.
  intros Hc.
  set (Q := fun c d =>
         Bool.eqb (Ascii.eqb (Text.ascii_lower c) (Text.ascii_lower d))
                  (Ascii.eqb (Text.py_lower_char c) (Text.py_lower_char d))).
  set (P := fun c =>
         implb (Spec.plain_char c) (forallb (fun m => Q c (ascii_of_nat m)) (seq 0 256))).
  assert (forall c, P c = true) as HP by (apply forall_ascii; vm_compute; reflexivity).
  specialize (HP c). unfold P in HP. rewrite Hc in HP. cbn [implb] in HP.
  apply eqb_prop. exact (forall_ascii (Q c) HP d).
Qed.

Lemma prefix_ci_plain q :
  Spec.plain q = true -> forall s, Filtered.prefix_ci q s = Spec.prefix_ci q s.
Proof.
  unfold Spec.plain. induction q as [|c q IH]; intros H s; [reflexivity|].
  cbn [Text.forall_string] in H. apply andb_prop in H as [Hc Hq].
  destruct s as [|d s]; [reflexivity|].
  cbn [Filtered.prefix_ci Spec.prefix_ci].
  now rewrite (ascii_fold_plain c d Hc), (IH Hq).
Qed.

Lemma occurs_ci_plain q :
  Spec.plain q = true -> forall s, Filtered.occurs_ci q s = Spec.occurs_ci q s.
Proof.
  intros Hq s. induction s as [|d s IH]; cbn [Filtered.occurs_ci Spec.occurs_ci];
    rewrite (prefix_ci_plain q Hq); [reflexivity|now rewrite IH].
Qed.

(** For a plain [q] and texts without NUL, the selected rows are the rows in
    whose text [q] occurs, up to the case of the letters A-Z. *)
Lemma select_where_matches (t : gmap string Storage.stored) f s q :
  (forall x, q = Some x -> Spec.plain x = true) ->
  (forall r, r ∈ Storage.to_row <$> map_to_list t ->
             Spec.no_nul (default "" (Storage.text r)) = true) ->
  forall r,
    r ∈ Storage.select_where (Storage._build_filters f s q) t <->
    r ∈ Storage.to_row <$> map_to_list t /\ Filtered.matches f s q r.
Proof.
  intros Hq Ht r. rewrite (filter_semantics_plain t f s q r Hq Ht).
  unfold Spec.matches, Filtered.matches, Filtered.reaches_text, Spec.text_contains.
  split.
  - intros (Hr & Hf & Hs & Hx). split; [exact Hr|]. split; [auto|].
    intros x E. specialize (Hx x E). now rewrite occurs_ci_plain by auto.
  - intros (Hr & (Hf & Hs) & Hx). split; [exact Hr|]. split; [exact Hf|].
    split; [exact Hs|]. intros x E. specialize (Hx x E).
    now rewrite occurs_ci_plain in Hx by auto.
Qed.

(** Without filters every row of the table is selected. *)
Lemma select_where_all (t : gmap string Storage.stored) :
  Storage.select_where (Storage._build_filters None None None) t
  = Storage.to_row <$> map_to_list t.
Proof.
  unfold Storage.select_where, Storage._build_filters, Storage.where_holds. simpl.
  induction (Storage.to_row <$> map_to_list t) as [|r l IH]; [reflexivity|].
  rewrite filter_cons. case_decide; [now rewrite IH|congruence].
Qed.

(** C4.  The rows a query returns, and the rows GET /messages returns, are in
    ascending order of [ts], rows with one [ts] in ascending order of
    [message_id], none is repeated, and each is a row of the table on which
    the filters given hold.  The full listing holds exactly the rows of the
    table on which the filters hold (every row of the table when no filter
    is given; for a plain [q] and texts without NUL, the rows in whose text
    [q] occurs up to the case of A-Z).  The order is total and transitive,
    and two selected rows that precede each other are one row, so the order
    leaves no choice: the rows that pass the filters have exactly one sorted
    arrangement.  With limit and offset that fit 64 bits the query returns
    exactly when the pattern made of [q] is within SQLite's limit of 50,000
    bytes or no row passes [from] and [since]; else SQLite refuses the
    pattern and the query raises OperationalError.  With the pattern within
    the limit, the pages at offsets 0, L, 2L, ... for a fixed limit L >= 1
    are, one after the other, that arrangement from its start, and once they
    reach the total they hold every row of the table that passes the filters
    exactly once. *)
Theorem listing_order (t : gmap string Storage.stored) (f s q : option string) :
  let table := Storage.to_row <$> map_to_list t in
  let selected := Storage.select_where (Storage._build_filters f s q) t in
  let listing := merge_sort Storage.row_le selected in
  (forall a b, Storage.row_le a b <->
               (Storage.ts a <> Storage.ts b /\ String.le (Storage.ts a) (Storage.ts b)) \/
               (Storage.ts a = Storage.ts b /\
                String.le (Storage.message_id a) (Storage.message_id b))) /\
  ((forall r, r ∈ listing <-> r ∈ table /\ Filtered.passes f s q r) /\
   (f = None -> s = None -> q = None -> listing ≡ₚ table) /\
   ((forall x, q = Some x -> Spec.plain x = true) ->
    (forall r, r ∈ table -> Spec.no_nul (default "" (Storage.text r)) = true) ->
    forall r, r ∈ listing <-> r ∈ table /\ Filtered.matches f s q r)) /\
  (forall limit offset page,
      Storage.list_messages_sync (Storage.ready t) limit offset f s q = Ok page ->
      StronglySorted Storage.row_le (Storage.rows page) /\
      NoDup (Storage.rows page) /\
      Storage.rows page `sublist_of` listing /\
      forall r, r ∈ Storage.rows page -> r ∈ table /\ Filtered.passes f s q r) /\
  (forall limit offset,
      (- 2 ^ 63 <= limit < 2 ^ 63)%Z -> (- 2 ^ 63 <= offset < 2 ^ 63)%Z ->
      ((exists page,
          Storage.list_messages_sync (Storage.ready t) limit offset f s q = Ok page)
       <-> Filtered.fits q = true \/
           forall r, r ∈ table -> ~ Filtered.reaches_text f s r) /\
      (Filtered.fits q = false ->
       (exists r, r ∈ table /\ Filtered.reaches_text f s r) ->
       Storage.list_messages_sync (Storage.ready t) limit offset f s q
       = Raise (OperationalError "LIKE or GLOB pattern too complex"))) /\
  ((forall a b, Storage.row_le a b \/ Storage.row_le b a) /\
   (forall a b c, Storage.row_le a b -> Storage.row_le b c -> Storage.row_le a c) /\
   (forall a b, a ∈ table -> b ∈ table ->
                Storage.row_le a b -> Storage.row_le b a -> a = b)) /\
  (StronglySorted Storage.row_le listing /\ NoDup listing /\
   forall l, NoDup l ->
             (forall r, r ∈ l <-> r ∈ table /\ Filtered.passes f s q r) ->
             Sorted Storage.row_le l -> l = listing) /\
  (Filtered.fits q = true ->
   forall (L : Z) (n : nat),
      (1 <= L)%Z -> (Z.of_nat n * L < 2 ^ 63)%Z ->
      exists ps,
        Run.pages (Storage.ready t) L n f s q = Ok <$> ps /\
        concat (Storage.rows <$> ps) = take (n * Z.to_nat L) listing /\
        (length listing <= n * Z.to_nat L ->
         concat (Storage.rows <$> ps) = listing /\
         NoDup (concat (Storage.rows <$> ps)) /\
         forall r, r ∈ concat (Storage.rows <$> ps) <->
                   r ∈ table /\ Filtered.passes f s q r)) /\
  (forall iso app limit offset out,
      Main.db app = Storage.ready t ->
      Main.get_messages iso app limit offset f s q = Ok (Main.MessagesOk out) ->
      StronglySorted Storage.row_le (Models.data out) /\
      NoDup (Models.data out) /\
      Models.data out `sublist_of` listing /\
      forall r, r ∈ Models.data out -> r ∈ table /\ Filtered.passes f s q r).
Proof.
  intros table selected listing.
  destruct (sorted_rows_facts (Storage._build_filters f s q) t) as (HS & HP & HN).
  fold selected in HS, HP, HN. fold listing in HS, HP, HN.
  assert (forall r, r ∈ listing <-> r ∈ table /\ Filtered.passes f s q r) as Hmem.
  { intros r. rewrite HP. apply select_where_passes. }
  assert (forall limit offset page,
             Storage.list_messages_sync (Storage.ready t) limit offset f s q = Ok page ->
             StronglySorted Storage.row_le (Storage.rows page) /\
             NoDup (Storage.rows page) /\
             Storage.rows page `sublist_of` listing /\
             forall r, r ∈ Storage.rows page -> r ∈ table /\ Filtered.passes f s q r)
    as Hpage.
  { intros limit offset page ->%list_messages_ready. simpl.
    pose proof (limit_offset_sublist limit offset listing) as Hsub.
    split; [eapply StronglySorted_sublist; eauto|].
    split; [exact (sublist_NoDup _ _ HN Hsub)|]. split; [exact Hsub|].
    intros r Hr. apply Hmem. exact (elem_of_sublist _ _ r Hr Hsub). }
  split; [|split; [|split; [exact Hpage|split; [|split; [|split; [|split]]]]]].
  - intros a b. unfold Storage.row_le. case_bool_decide; tauto.
  - split; [exact Hmem|]. split.
    + intros -> -> ->. rewrite HP. subst selected table. now rewrite select_where_all.
    + intros Hq Ht r. rewrite HP. now apply select_where_matches.
  - intros limit offset Hl Ho. split; [now apply list_messages_returns_iff|].
    intros Hq Hreach. now apply list_messages_refused.
  - split; [exact (total Storage.row_le)|]. split.
    + intros a b c. apply (transitivity (R:=Storage.row_le)).
    + intros a b Ha Hb Hab Hba. apply (table_rows_key t); [exact Ha|exact Hb|].
      now apply row_le_antisym.
  - split; [exact HS|]. split; [exact HN|].
    intros l Hl Hl' Hsorted. apply sorted_rows_unique; [|exact Hsorted].
    apply NoDup_Permutation; [exact Hl|apply select_where_NoDup|].
    intros r. rewrite Hl'. symmetry. apply select_where_passes.
  - intros Hq L n HL Hn.
    exists ((fun k =>
               {| Storage.rows := take (Z.to_nat L) (drop (k * Z.to_nat L) listing);
                  Storage.total := length selected |}) <$> seq 0 n).
    rewrite <- !list_fmap_compose.
    split; [exact (pages_ready t L n f s q Hq HL Hn)|].
    set (c := concat _).
    assert (c = take (n * Z.to_nat L) listing) as E by apply concat_takes.
    split; [exact E|]. intros Hlen. rewrite E.
    rewrite take_ge by exact Hlen. auto.
  - intros iso app limit offset out Hdb (page & Hq & -> & _)%get_messages_page.
    rewrite Hdb in Hq. eauto.
Qed.

(** ** Pagination total *)

(** C5.  The total a query returns, and the total GET /messages reports, is
    the number of rows of the table on which the filters given hold: the
    length of every duplicate-free list of exactly those rows, so the number
    of all rows when no filter is given and, for a plain [q] and texts
    without NUL, the number of rows in whose text [q] occurs up to the case
    of A-Z.  It does not depend on the limit and the offset: two queries
    with the same filters return the same total, and a page never holds more
    rows than the total.  With limit and offset that fit 64 bits the query
    returns exactly when the pattern made of [q] is within SQLite's limit of
    50,000 bytes or no row passes [from] and [since]. *)
Theorem pagination_total (t : gmap string Storage.stored) (f s q : option string) :
  let table := Storage.to_row <$> map_to_list t in
  (forall limit offset page,
      Storage.list_messages_sync (Storage.ready t) limit offset f s q = Ok page ->
      (forall l, NoDup l ->
                 (forall r, r ∈ l <-> r ∈ table /\ Filtered.passes f s q r) ->
                 Storage.total page = length l) /\
      (f = None -> s = None -> q = None -> Storage.total page = size t) /\
      ((forall x, q = Some x -> Spec.plain x = true) ->
       (forall r, r ∈ table -> Spec.no_nul (default "" (Storage.text r)) = true) ->
       forall l, NoDup l ->
                 (forall r, r ∈ l <-> r ∈ table /\ Filtered.matches f s q r) ->
                 Storage.total page = length l) /\
      length (Storage.rows page) <= Storage.total page <= size t) /\
  (exists l, NoDup l /\ forall r, r ∈ l <-> r ∈ table /\ Filtered.passes f s q r) /\
  (forall limit offset,
      (- 2 ^ 63 <= limit < 2 ^ 63)%Z -> (- 2 ^ 63 <= offset < 2 ^ 63)%Z ->
      ((exists page,
          Storage.list_messages_sync (Storage.ready t) limit offset f s q = Ok page)
       <-> Filtered.fits q = true \/
           forall r, r ∈ table -> ~ Filtered.reaches_text f s r)) /\
  (forall limit1 offset1 limit2 offset2 page1 page2,
      Storage.list_messages_sync (Storage.ready t) limit1 offset1 f s q = Ok page1 ->
      Storage.list_messages_sync (Storage.ready t) limit2 offset2 f s q = Ok page2 ->
      Storage.total page1 = Storage.total page2) /\
  (forall iso app limit offset out,
      Main.db app = Storage.ready t ->
      Main.get_messages iso app limit offset f s q = Ok (Main.MessagesOk out) ->
      (forall l, NoDup l ->
                 (forall r, r ∈ l <-> r ∈ table /\ Filtered.passes f s q r) ->
                 Models.total out = length l) /\
      length (Models.data out) <= Models.total out).
Proof.
  intros table.
  set (selected := Storage.select_where (Storage._build_filters f s q) t).
  assert (NoDup selected) as HN by apply select_where_NoDup.
  assert (forall l, NoDup l ->
             (forall r, r ∈ l <-> r ∈ table /\ Filtered.passes f s q r) ->
             length selected = length l) as Hcard.
  { intros l Hl Hmem. apply Permutation_length, NoDup_Permutation; [exact HN|exact Hl|].
    intros r. rewrite Hmem. apply select_where_passes. }
  assert (length selected <= size t) as Hsize.
  { rewrite <- length_map_to_list, <- (length_fmap Storage.to_row).
    apply length_filter. }
  assert (forall limit offset,
             length (Storage.limit_offset limit offset
                       (merge_sort Storage.row_le selected)) <= length selected) as Hrows.
  { intros limit offset.
    rewrite <- (Permutation_length (merge_sort_Permutation Storage.row_le selected)).
    apply sublist_length, limit_offset_sublist. }
  split; [|split; [|split; [|split]]].
  - intros limit offset page ->%list_messages_ready. cbn [Storage.total Storage.rows].
    fold selected. split; [exact Hcard|]. split; [|split].
    + intros -> -> ->. subst selected. rewrite select_where_all.
      now rewrite length_fmap, length_map_to_list.
    + intros Hq Ht l Hl Hmem.
      apply Permutation_length, NoDup_Permutation; [exact HN|exact Hl|].
      intros r. rewrite Hmem. now apply select_where_matches.
    + split; [apply Hrows|exact Hsize].
  - exists selected. split; [exact HN|]. intros r. apply select_where_passes.
  - intros limit offset Hl Ho. now apply list_messages_returns_iff.
  - now intros l1 o1 l2 o2 p1 p2 ->%list_messages_ready ->%list_messages_ready.
  - intros iso app limit offset out Hdb (page & Hq & -> & -> & _)%get_messages_page.
    rewrite Hdb in Hq. apply list_messages_ready in Hq as ->.
    cbn [Storage.total Storage.rows]. fold selected.
    split; [exact Hcard|apply Hrows].
Qed.

(** ** Empty-string filters *)

Lemma select_where_snoc_true w c t :
  (forall r, Storage.cond_holds r c = true) ->
  Storage.select_where (w ++ [c])%list t = Storage.select_where w t.
Proof.
  intros Hc. unfold Storage.select_where. apply list_filter_iff.
  intros r. unfold Storage.where_holds. rewrite forallb_app; simpl.
  now rewrite Hc, !andb_true_r.
Qed.

(** C9.  An empty [from] filter builds no conjunct: the query, and
    GET /messages, return what they return without a [from] parameter.  An
    empty [q] does build one, the pattern of two percent signs, which holds
    on every row; so it selects the rows that no [q] selects. *)
Theorem empty_string_filters
    (db : Storage.database) (limit offset : Z) (f s q : option string) :
  Storage._build_filters (Some "") s q = Storage._build_filters None s q /\
  Storage.list_messages_sync db limit offset (Some "") s q
  = Storage.list_messages_sync db limit offset None s q /\
  Storage._build_filters f s (Some "")
  = (Storage._build_filters f s None ++ [Storage.TextLike "%%"])%list /\
  (forall r, Storage.cond_holds r (Storage.TextLike "%%") = true) /\
  Storage.list_messages_sync db limit offset f s (Some "")
  = Storage.list_messages_sync db limit offset f s None /\
  (forall iso app lim off,
      Main.get_messages iso app lim off (Some "") s q
      = Main.get_messages iso app lim off None s q).
Proof.
  assert (forall r, Storage.cond_holds r (Storage.TextLike "%%") = true) as Hlike
    by (intros r; apply like_percent_percent).
  assert (Storage._build_filters f s (Some "")
          = (Storage._build_filters f s None ++ [Storage.TextLike "%%"])%list) as Hq.
  { unfold Storage._build_filters. now rewrite !app_nil_r, app_assoc. }
  repeat split; auto.
  unfold Storage.list_messages_sync.
  destruct (Storage._connect db); cbn [bind]; [|reflexivity].
  destruct (Storage.from_messages db) as [t|]; cbn [bind]; [|reflexivity].
  rewrite (scan_fits f s (Some "") t eq_refl), (scan_fits f s None t eq_refl).
  cbn [bind]. now rewrite Hq, (select_where_snoc_true _ _ t Hlike).
Qed.

(** ** Statistics *)

#[local] Instance count_ge_total : Total Storage.count_ge.
Proof. intros a b. unfold Storage.count_ge. lia. Qed.

#[local] Instance count_ge_trans : Transitive Storage.count_ge.
Proof. intros a b c. unfold Storage.count_ge. lia. Qed.

Lemma elem_of_senders rs x :
  x ∈ Storage.senders rs <-> exists r, r ∈ rs /\ Storage.from_msisdn r = x.
Proof.
  unfold Storage.senders. rewrite elem_of_list_to_set, list_elem_of_fmap.
  split; intros (r & H1 & H2); exists r; auto.
Qed.

Lemma rows_from_pos rs x : x ∈ Storage.senders rs -> 0 < Spec.rows_from rs x.
Proof.
  intros (r & Hr & Hx)%elem_of_senders. unfold Spec.rows_from.
  destruct (filter _ rs) eqn:E; simpl; [|lia].
  destruct (filter_nil_not_elem_of _ rs r E Hx Hr).
Qed.

Lemma elem_of_group_by_sender rs e :
  e ∈ Storage.group_by_sender rs <->
  Storage.from e ∈ Storage.senders rs /\ Storage.count e = Spec.rows_from rs (Storage.from e).
Proof.
  unfold Storage.group_by_sender. rewrite list_elem_of_fmap. split.
  - intros (x & -> & Hx%elem_of_elements). simpl. auto.
  - intros [Hin Hc]. exists (Storage.from e). split; [|now apply elem_of_elements].
    destruct e; simpl in *. now subst.
Qed.

Lemma group_by_sender_from rs :
  Storage.from <$> Storage.group_by_sender rs = elements (Storage.senders rs).
Proof.
  unfold Storage.group_by_sender. rewrite <- list_fmap_compose.
  rewrite <- (list_fmap_id (elements _)) at 2. now apply list_fmap_ext.
Qed.

Lemma min_ts_spec rs :
  match Storage.min_ts rs with
  | None => rs = []
  | Some lo => (exists r, r ∈ rs /\ Storage.ts r = lo) /\
               forall r, r ∈ rs -> String.le lo (Storage.ts r)
  end.
Proof.
  induction rs as [|r rs IH]; simpl; [reflexivity|].
  destruct (Storage.min_ts rs) as [m|].
  - destruct IH as [(r0 & Hr0 & E0) Hlo].
    destruct (String.leb (Storage.ts r) m) eqn:E.
    + split; [exists r; split; [left|reflexivity]|].
      intros r' [->|Hr']%elem_of_cons; [reflexivity|].
      transitivity m; [now apply Is_true_true_2|auto].
    + split; [exists r0; split; [now right|exact E0]|].
      intros r' [->|Hr']%elem_of_cons; [|auto].
      destruct (total String.le m (Storage.ts r)) as [H|H]; [exact H|].
      unfold String.le in H. rewrite E in H. destruct H.
  - subst rs. split; [exists r; split; [left|reflexivity]|].
    intros r' [->|Hr']%elem_of_cons; [reflexivity|]. now apply elem_of_nil in Hr'.
Qed.

Lemma max_ts_spec rs :
  match Storage.max_ts rs with
  | None => rs = []
  | Some hi => (exists r, r ∈ rs /\ Storage.ts r = hi) /\
               forall r, r ∈ rs -> String.le (Storage.ts r) hi
  end.
Proof.
  induction rs as [|r rs IH]; simpl; [reflexivity|].
  destruct (Storage.max_ts rs) as [m|].
  - destruct IH as [(r0 & Hr0 & E0) Hhi].
    destruct (String.leb m (Storage.ts r)) eqn:E.
    + split; [exists r; split; [left|reflexivity]|].
      intros r' [->|Hr']%elem_of_cons; [reflexivity|].
      transitivity m; [auto|now apply Is_true_true_2].
    + split; [exists r0; split; [now right|exact E0]|].
      intros r' [->|Hr']%elem_of_cons; [|auto].
      destruct (total String.le (Storage.ts r) m) as [H|H]; [exact H|].
      unfold String.le in H. rewrite E in H. destruct H.
  - subst rs. split; [exists r; split; [left|reflexivity]|].
    intros r' [->|Hr']%elem_of_cons; [reflexivity|]. now apply elem_of_nil in Hr'.
Qed.

(** C7.  On a ready database [stats_sync] returns: the number of rows; the
    number of distinct senders; at most ten entries, each a sender of the
    table with the number of its rows, no sender twice, in descending order
    of count, and no sender left out has more rows than one listed; the least
    and the greatest [ts] of the rows, both absent exactly when the table has
    no row. *)
Theorem stats_contract (t : gmap string Storage.stored) :
  let rs := Storage.to_row <$> map_to_list t in
  exists st,
    Storage.stats_sync (Storage.ready t) = Ok st /\
    (Storage.total_messages st = length rs /\ length rs = size t) /\
    (Storage.senders_count st = size (Storage.senders rs) /\
     forall x, x ∈ Storage.senders rs <->
               exists r, r ∈ rs /\ Storage.from_msisdn r = x) /\
    (length (Storage.messages_per_sender st) <= 10 /\
     length (Storage.messages_per_sender st) = Nat.min 10 (Storage.senders_count st)) /\
    StronglySorted Storage.count_ge (Storage.messages_per_sender st) /\
    NoDup (Storage.from <$> Storage.messages_per_sender st) /\
    (forall e, e ∈ Storage.messages_per_sender st ->
               Storage.from e ∈ Storage.senders rs /\
               Storage.count e = Spec.rows_from rs (Storage.from e) /\
               0 < Storage.count e) /\
    (forall x e, x ∈ Storage.senders rs ->
                 x ∉ Storage.from <$> Storage.messages_per_sender st ->
                 e ∈ Storage.messages_per_sender st ->
                 Spec.rows_from rs x <= Storage.count e) /\
    (rs = [] ->
     Storage.first_message_ts st = None /\ Storage.last_message_ts st = None) /\
    (rs <> [] ->
     exists lo hi,
       Storage.first_message_ts st = Some lo /\ Storage.last_message_ts st = Some hi /\
       (exists r, r ∈ rs /\ Storage.ts r = lo) /\
       (exists r, r ∈ rs /\ Storage.ts r = hi) /\
       forall r, r ∈ rs -> String.le lo (Storage.ts r) /\ String.le (Storage.ts r) hi).
Proof.
  intros rs.
  set (sorted := merge_sort Storage.count_ge (Storage.group_by_sender rs)).
  exists {| Storage.total_messages := length rs;
            Storage.senders_count := size (Storage.senders rs);
            Storage.messages_per_sender := take 10 sorted;
            Storage.first_message_ts := Storage.min_ts rs;
            Storage.last_message_ts := Storage.max_ts rs |}.
  split; [reflexivity|].
  cbn [Storage.total_messages Storage.senders_count Storage.messages_per_sender
       Storage.first_message_ts Storage.last_message_ts].
  assert (sorted ≡ₚ Storage.group_by_sender rs) as HP by apply merge_sort_Permutation.
  assert (StronglySorted Storage.count_ge sorted) as HS
    by apply (StronglySorted_merge_sort _).
  assert (length sorted = size (Storage.senders rs)) as Hlen.
  { rewrite HP. unfold Storage.group_by_sender. now rewrite length_fmap. }
  assert (forall e, e ∈ take 10 sorted -> e ∈ Storage.group_by_sender rs) as Hin.
  { intros e He. rewrite <- HP. eapply subseteq_take; eauto. }
  split; [split; [reflexivity|]|].
  { subst rs. now rewrite length_fmap, length_map_to_list. }
  split; [split; [reflexivity|apply elem_of_senders]|].
  split; [rewrite length_take, Hlen; split; lia|].
  split; [eapply StronglySorted_sublist; [apply sublist_take|exact HS]|].
  split.
  { rewrite fmap_take.
    apply (sublist_NoDup _ (Storage.from <$> sorted)); [|apply sublist_take].
    rewrite HP, group_by_sender_from. apply NoDup_elements. }
  split.
  { intros e [Hs Hc]%Hin%elem_of_group_by_sender. repeat split; auto.
    rewrite Hc. now apply rows_from_pos. }
  split.
  { intros x e Hx Hout He.
    set (ex := {| Storage.from := x; Storage.count := Spec.rows_from rs x |}).
    assert (ex ∈ sorted) as Hex by (rewrite HP; now apply elem_of_group_by_sender).
    rewrite <- (take_drop 10 sorted) in Hex, HS.
    apply elem_of_app in Hex as [Hex|Hex].
    - destruct Hout. apply list_elem_of_fmap. now exists ex.
    - exact (StronglySorted_app_1_elem_of _ _ _ e ex HS He Hex). }
  pose proof (min_ts_spec rs) as Hmin. pose proof (max_ts_spec rs) as Hmax.
  split.
  - intros E. now rewrite E.
  - intros Hne.
    destruct (Storage.min_ts rs) as [lo|]; [|congruence].
    destruct (Storage.max_ts rs) as [hi|]; [|congruence].
    destruct Hmin as [Hlo1 Hlo2], Hmax as [Hhi1 Hhi2].
    exists lo, hi. repeat split; auto.
Qed.

(** ** Latency histogram *)

Lemma ltb_zero_antisym v :
  PrimFloat.ltb v 0 = true -> PrimFloat.ltb 0 v = false.
Proof.
  rewrite !ltb_spec. change (Prim2SF 0) with (S754_zero false).
  destruct (Prim2SF v) as [[|]|[|]| |[|] m e]; cbv [SFltb SFcompare]; congruence.
Qed.

Lemma clamp_negative v : PrimFloat.ltb v 0 = true -> Metrics.clamp v = 0%float.
Proof.
  intros H. unfold Metrics.clamp, Metrics.py_max. now rewrite (ltb_zero_antisym v H).
Qed.

Lemma clamp_not_negative v : PrimFloat.ltb (Metrics.clamp v) 0 = false.
Proof.
  unfold Metrics.clamp, Metrics.py_max.
  destruct (PrimFloat.ltb 0 v) eqn:E; [|reflexivity].
  destruct (PrimFloat.ltb v 0) eqn:E'; [|reflexivity].
  apply ltb_zero_antisym in E'. congruence.
Qed.

Lemma distinct_keys_split pre k rest :
  Spec.distinct_keys (pre ++ k :: rest) = true ->
  forallb (fun k' => negb (PrimFloat.eqb k' k)) pre = true /\ PrimFloat.eqb k k = true.
Proof.
  induction pre as [|k0 pre IH]; simpl.
  - intros H. apply andb_prop in H as [H _]. apply andb_prop in H as [H _]. auto.
  - intros H. apply andb_prop in H as [H Hd]. apply andb_prop in H as [_ H].
    rewrite forallb_app in H. apply andb_prop in H as [_ H]. simpl in H.
    apply andb_prop in H as [H _]. apply andb_prop in H as [H _].
    destruct (IH Hd) as [IH1 IH2]. now rewrite H, IH1.
Qed.

Lemma fdict_get_skip (pre d : Metrics.fdict) k :
  forallb (fun k' => negb (PrimFloat.eqb k' k)) (pre.*1) = true ->
  Metrics.fdict_get k (pre ++ d) = Metrics.fdict_get k d.
Proof.
  induction pre as [|[k0 v0] pre IH]; simpl; [reflexivity|].
  intros H. apply andb_prop in H as [H1 H2].
  apply negb_true_iff in H1. rewrite H1. auto.
Qed.

Lemma fdict_set_skip (pre d : Metrics.fdict) k v :
  forallb (fun k' => negb (PrimFloat.eqb k' k)) (pre.*1) = true ->
  Metrics.fdict_set k v (pre ++ d) = pre ++ Metrics.fdict_set k v d.
Proof.
  induction pre as [|[k0 v0] pre IH]; simpl; [reflexivity|].
  intros H. apply andb_prop in H as [H1 H2].
  apply negb_true_iff in H1. rewrite H1. now rewrite IH.
Qed.

(** One pass of the loop of [observe] over a dictionary whose keys are the
    buckets: it returns, and each bucket at least the value gains one. *)
Lemma observe_buckets_spec v (rest : Metrics.fdict) : forall pre : Metrics.fdict,
  Spec.distinct_keys ((pre ++ rest).*1) = true ->
  Metrics.observe_buckets v (rest.*1) (pre ++ rest)
  = Ok (pre ++ map (fun kv => (kv.1, if PrimFloat.leb v kv.1 then kv.2 + 1 else kv.2)) rest).
Proof.
  induction rest as [|[ub n] rest IH]; intros pre Hd; simpl; [reflexivity|].
  rewrite fmap_app in Hd. simpl in Hd.
  destruct (distinct_keys_split _ _ _ Hd) as [Hpre Hk].
  destruct (PrimFloat.leb v ub).
  - rewrite fdict_get_skip by exact Hpre. simpl. rewrite Hk.
    rewrite fdict_set_skip by exact Hpre. simpl. rewrite Hk.
    rewrite !(cons_middle _ pre), !app_assoc. apply IH.
    now rewrite !fmap_app, <- app_assoc.
  - rewrite !(cons_middle _ pre), !app_assoc. apply IH.
    now rewrite !fmap_app, <- app_assoc.
Qed.

(** The bucket lines of a dictionary whose keys are the buckets show its
    values. *)
Lemma bucket_lines_spec (rest : Metrics.fdict) : forall (pre : Metrics.fdict) cum,
  Spec.distinct_keys ((pre ++ rest).*1) = true ->
  Metrics.bucket_lines (pre ++ rest) cum (rest.*1)
  = map (fun kv => Metrics.Sample "request_latency_seconds_bucket"
                     [("le", Metrics.LFloat kv.1)] (Metrics.VInt kv.2)) rest.
Proof.
  induction rest as [|[ub n] rest IH]; intros pre cum Hd; simpl; [reflexivity|].
  pose proof Hd as Hd'. rewrite fmap_app in Hd'. simpl in Hd'.
  destruct (distinct_keys_split _ _ _ Hd') as [Hpre Hk].
  rewrite fdict_get_skip by exact Hpre. simpl. rewrite Hk. simpl. f_equal.
  rewrite (cons_middle _ pre), app_assoc.
  apply IH. now rewrite <- app_assoc.
Qed.

Lemma latency_buckets_distinct : Spec.distinct_keys Metrics.latency_buckets = true.
Proof. vm_compute. reflexivity. Qed.

Lemma init_fresh : Metrics.init = Ok Metrics.fresh.
Proof. vm_compute. reflexivity. Qed.

Lemma count_le_snoc ub vs v :
  Spec.count_le ub (vs ++ [v])
  = if PrimFloat.leb v ub then Spec.count_le ub vs + 1 else Spec.count_le ub vs.
Proof.
  unfold Spec.count_le. rewrite filter_app, length_app, filter_cons, filter_nil.
  destruct (PrimFloat.leb v ub); case_decide; simpl; try congruence; lia.
Qed.

Lemma tally_keys (B : list float) (g : float -> nat) :
  (map (fun ub => (ub, g ub)) B).*1 = B.
Proof. induction B as [|b B IH]; [reflexivity|]. simpl. f_equal. exact IH. Qed.

(** One [observe] on a histogram that tallies [vs] tallies [vs] and the new
    value. *)
Lemma observe_tally (B : list float) vs v h :
  Spec.distinct_keys B = true ->
  Metrics.buckets h = B ->
  Metrics.counts h = map (fun ub => (ub, Spec.count_le ub vs)) B ->
  Metrics.observe h v
  = Ok {| Metrics.buckets := B;
          Metrics.counts := map (fun ub => (ub, Spec.count_le ub (vs ++ [v]))) B;
          Metrics.sum := PrimFloat.add (Metrics.sum h) v;
          Metrics.count := Metrics.count h + 1 |}.
Proof.
  intros HB Hb Hc. unfold Metrics.observe. rewrite Hb, Hc.
  pose proof (observe_buckets_spec v (map (fun ub => (ub, Spec.count_le ub vs)) B) []) as H.
  cbn [app] in H. rewrite !tally_keys in H. rewrite (H HB). simpl.
  do 2 f_equal. rewrite map_map. apply map_ext. intros ub. simpl.
  now rewrite count_le_snoc.
Qed.

Lemma observe_histogram_of vs v :
  Metrics.observe (Spec.histogram_of vs) v = Ok (Spec.histogram_of (vs ++ [v])).
Proof.
  rewrite (observe_tally Metrics.latency_buckets vs v (Spec.histogram_of vs)
             latency_buckets_distinct eq_refl eq_refl).
  unfold Spec.histogram_of. now rewrite fold_left_app, length_app.
Qed.

(** A run of [observe_latency] calls on a histogram that tallies [done]
    returns, leaves the counters alone, and tallies [done] and the clamped
    values in the order of the calls. *)
Lemma observe_latencies_spec obs : forall m done,
  Metrics.request_latency m = Spec.histogram_of done ->
  exists m',
    Metrics.observe_latencies m obs = Ok m' /\
    Metrics.request_latency m' = Spec.histogram_of (done ++ (Metrics.clamp <$> obs)) /\
    Metrics.http_requests_total m' = Metrics.http_requests_total m /\
    Metrics.webhook_requests_total m' = Metrics.webhook_requests_total m.
Proof.
  induction obs as [|v obs IH]; intros m done Hm; simpl.
  - exists m. now rewrite app_nil_r.
  - unfold Metrics.observe_latency. rewrite Hm, observe_histogram_of. simpl.
    edestruct IH as (m' & -> & Hh & Hc1 & Hc2); [reflexivity|].
    exists m'. rewrite Hh, <- app_assoc. auto.
Qed.

Lemma histogram_lines_of vs :
  Metrics.histogram_lines (Spec.histogram_of vs)
  = [Metrics.Comment "HELP request_latency_seconds Request latency";
     Metrics.Comment "TYPE request_latency_seconds histogram"]
    ++ map (fun ub => Metrics.Sample "request_latency_seconds_bucket"
                        [("le", Metrics.LFloat ub)]
                        (Metrics.VInt (Spec.count_le ub vs)))
           Metrics.latency_buckets
    ++ [Metrics.Sample "request_latency_seconds_bucket" [("le", Metrics.LInf)]
          (Metrics.VInt (length vs));
        Metrics.Sample "request_latency_seconds_sum" []
          (Metrics.VFloat (fold_left PrimFloat.add vs 0%float));
        Metrics.Sample "request_latency_seconds_count" []
          (Metrics.VInt (length vs))].
Proof.
  unfold Metrics.histogram_lines, Spec.histogram_of.
  cbn [Metrics.buckets Metrics.counts Metrics.sum Metrics.count].
  pose proof (bucket_lines_spec
                (map (fun ub => (ub, Spec.count_le ub vs)) Metrics.latency_buckets) [] 0) as H.
  cbn [app] in H. rewrite !tally_keys in H.
  rewrite (H latency_buckets_distinct), map_map. reflexivity.
Qed.

(** What [observe_latency] records: the latency itself when it is above
    zero, and 0.0 for every other input. *)
Lemma clamp_positive v : PrimFloat.ltb 0 v = true -> Metrics.clamp v = v.
Proof. intros H. unfold Metrics.clamp, Metrics.py_max. now rewrite H. Qed.

Lemma clamp_other v : PrimFloat.ltb 0 v = false -> Metrics.clamp v = 0%float.
Proof. intros H. unfold Metrics.clamp, Metrics.py_max. now rewrite H. Qed.

(** A number that is not below zero is recorded as a value equal to it, the
    value itself unless it is the negative zero, and lands in the buckets of
    its own value. *)
Lemma clamp_number v :
  PrimFloat.ltb v 0 = false -> Buckets.is_number v = true ->
  PrimFloat.eqb (Metrics.clamp v) v = true /\
  forall ub, PrimFloat.leb (Metrics.clamp v) ub = PrimFloat.leb v ub.
Proof.
  unfold Buckets.is_number. intros Hneg Hnum.
  destruct (PrimFloat.ltb 0 v) eqn:Hpos.
  - rewrite (clamp_positive v Hpos). split; [exact Hnum|reflexivity].
  - rewrite (clamp_other v Hpos).
    rewrite FloatAxioms.ltb_spec in Hneg, Hpos.
    rewrite FloatAxioms.eqb_spec in Hnum. rewrite FloatAxioms.eqb_spec.
    change (Prim2SF 0) with (S754_zero false) in *.
    destruct (Prim2SF v) as [[|]|[|]| |[|] m e] eqn:Hv;
      cbv [SFltb SFeqb SFcompare] in Hneg, Hpos, Hnum; try discriminate;
      (split; [reflexivity|]); intros ub; rewrite !FloatAxioms.leb_spec, Hv;
      change (Prim2SF 0) with (S754_zero false);
      destruct (Prim2SF ub) as [[|]|[|]| |[|] m' e']; reflexivity.
Qed.

Lemma count_le_clamped ub obs :
  Forall (fun v => PrimFloat.ltb v 0 = false /\ Buckets.is_number v = true) obs ->
  Spec.count_le ub (Metrics.clamp <$> obs) = Spec.count_le ub obs.
Proof.
  unfold Spec.count_le. induction 1 as [|v obs [Hneg Hnum] _ IH]; [reflexivity|].
  rewrite fmap_cons, !filter_cons.
  destruct (clamp_number v Hneg Hnum) as [_ Hle]. rewrite (Hle ub).
  case_decide; simpl; now rewrite IH.
Qed.

Lemma clamp_positive_all obs :
  Forall (fun v => PrimFloat.ltb 0 v = true) obs -> Metrics.clamp <$> obs = obs.
Proof.
  induction 1 as [|v l Hv _ IH]; [reflexivity|].
  now rewrite fmap_cons, IH, (clamp_positive v Hv).
Qed.

(** C6.  [observe_latency] records 0.0 for a negative input and the latency
    itself for one above zero; every other input (a zero, NaN) is recorded
    as 0.0.  So a number that is not below zero is recorded as a value equal
    to it that lands in the buckets of its own value, and no recorded value
    is negative.  After any sequence of calls on the fresh metrics the
    exposition ends with the histogram: for each upper bound, in order, a
    bucket line with the number of recorded values at most that bound (the
    number of latencies at most that bound, when none is negative or NaN);
    the +Inf bucket line and the count line with the number of calls; the
    sum line with the recorded values added up in the order of the calls. *)
Theorem latency_histogram (obs : list float) :
  let recorded := Metrics.clamp <$> obs in
  (forall v, PrimFloat.ltb v 0 = true -> Metrics.clamp v = 0%float) /\
  (forall v, PrimFloat.ltb 0 v = true -> Metrics.clamp v = v) /\
  (forall v, PrimFloat.ltb 0 v = false -> Metrics.clamp v = 0%float) /\
  (forall v, PrimFloat.ltb v 0 = false -> Buckets.is_number v = true ->
             PrimFloat.eqb (Metrics.clamp v) v = true /\
             forall ub, PrimFloat.leb (Metrics.clamp v) ub = PrimFloat.leb v ub) /\
  (forall v, PrimFloat.ltb (Metrics.clamp v) 0 = false) /\
  Metrics.init = Ok Metrics.fresh /\
  exists m,
    Metrics.observe_latencies Metrics.fresh obs = Ok m /\
    Metrics.histogram_lines (Metrics.request_latency m)
    = [Metrics.Comment "HELP request_latency_seconds Request latency";
       Metrics.Comment "TYPE request_latency_seconds histogram"]
      ++ map (fun ub => Metrics.Sample "request_latency_seconds_bucket"
                          [("le", Metrics.LFloat ub)]
                          (Metrics.VInt (Spec.count_le ub recorded)))
             Metrics.latency_buckets
      ++ [Metrics.Sample "request_latency_seconds_bucket" [("le", Metrics.LInf)]
            (Metrics.VInt (length obs));
          Metrics.Sample "request_latency_seconds_sum" []
            (Metrics.VFloat (fold_left PrimFloat.add recorded 0%float));
          Metrics.Sample "request_latency_seconds_count" []
            (Metrics.VInt (length obs))] /\
    (Forall (fun v => PrimFloat.ltb v 0 = false /\ Buckets.is_number v = true) obs ->
     forall ub, Spec.count_le ub recorded = Spec.count_le ub obs) /\
    (Forall (fun v => PrimFloat.ltb 0 v = true) obs -> recorded = obs) /\
    exists counters,
      Metrics.render_prometheus m
      = counters ++ Metrics.histogram_lines (Metrics.request_latency m).
Proof.
  intros recorded.
  split; [exact clamp_negative|]. split; [exact clamp_positive|].
  split; [exact clamp_other|]. split; [exact clamp_number|].
  split; [exact clamp_not_negative|].
  split; [exact init_fresh|].
  destruct (observe_latencies_spec obs Metrics.fresh [] eq_refl) as (m & Hm & Hh & _).
  exists m. split; [exact Hm|]. split; [|split; [|split]].
  - rewrite Hh. simpl app. fold recorded. rewrite histogram_lines_of.
    subst recorded. now rewrite length_fmap.
  - intros Hobs ub. now apply count_le_clamped.
  - apply clamp_positive_all.
  - unfold Metrics.render_prometheus. eexists. rewrite !app_assoc. reflexivity.
Qed.

(** ** The scenarios of the test suite *)

(** The application after the three sample messages were posted. *)
Example posted_three :
  Main.db
    (Run.post_all Sample.toy_hmac Sample.toy_decode Sample.toy_validate Sample.app0
       [Sample.signed "2025-01-16T00:00:00Z" Byte.x01;
        Sample.signed "2025-01-16T00:00:00Z" Byte.x02;
        Sample.signed "2025-01-16T00:00:00Z" Byte.x03])
  = Storage.ready Sample.three.
Proof. vm_compute. reflexivity. Qed.

(** test_messages_pagination_order_filters *)
Example scenario_listing :
  let query := Storage.list_messages_sync (Storage.ready Sample.three) in
  Run.ids_and_total (query 2%Z 0%Z None None None) = Some (["m1"; "m2"], 3) /\
  Run.ids_and_total (query 2%Z 2%Z None None None) = Some (["m3"], 3) /\
  Run.ids_and_total (query 50%Z 0%Z (Some "+14155550100") None None) = Some (["m3"], 1) /\
  Run.ids_and_total (query 50%Z 0%Z None (Some "2025-01-15T11:00:00Z") None) = Some (["m3"], 1) /\
  Run.ids_and_total (query 50%Z 0%Z None None (Some "ALPHA")) = Some (["m1"], 1).
Proof. repeat split; vm_compute; reflexivity. Qed.

(** test_stats, on the three sample messages: two senders, the one with two
    messages first. *)
Example scenario_stats :
  Storage.stats_sync (Storage.ready Sample.three)
  = Ok {| Storage.total_messages := 3;
          Storage.senders_count := 2;
          Storage.messages_per_sender :=
            [{| Storage.from := "+919876543210"; Storage.count := 2 |};
             {| Storage.from := "+14155550100"; Storage.count := 1 |}];
          Storage.first_message_ts := Some "2025-01-15T10:00:00Z";
          Storage.last_message_ts := Some "2025-01-15T11:00:00Z" |}.
Proof. vm_compute. reflexivity. Qed.

(** test_webhook_invalid_signature: a wrong header is answered 401 and no row
    is stored. *)
Example scenario_invalid_signature :
  let h := Main.webhook Sample.toy_hmac Sample.toy_decode Sample.toy_validate
             "2025-01-16T00:00:00Z" Sample.app0 (Some "bad") [Byte.x01] in
  Main.outcome h = Ok Main.invalid_signature_401 /\
  Main.db (Main.app_after h) = Storage.ready ∅.
Proof. split; vm_compute; reflexivity. Qed.

(** A latency of a quarter of a second, then a negative one. *)
Example scenario_latency :
  match Metrics.observe_latencies Metrics.fresh [0.25; -1.0]%float with
  | Ok m =>
      (Metrics.counts (Metrics.request_latency m)).*1 = Metrics.latency_buckets /\
      (Metrics.counts (Metrics.request_latency m)).*2 = [1; 1; 1; 1; 1; 2; 2; 2; 2; 2] /\
      Metrics.count (Metrics.request_latency m) = 2 /\
      Metrics.sum (Metrics.request_latency m) = 0.25%float
  | Raise _ => False
  end.
Proof. vm_compute. repeat split; reflexivity. Qed.

(** * Further properties of the code *)

(** ** Schema creation and start-up *)

(** X1.  [init_schema_sync] raises when no connection opens.  Otherwise it
    returns a database with the table, keeps the table and every row when it
    was there, creates it empty when it was not, and running it again
    changes nothing; [schema_exists_sync] then returns True.  After a
    start-up that returned, GET /health/ready answers 200 exactly when a
    non-empty secret is configured. *)
Theorem init_schema_safe_to_repeat (app : Main.App) :
  let db := Main.db app in
  (Storage.reachable db = false ->
   (exists e, Storage.init_schema_sync db = Raise e) /\
   (exists e, Server._startup app = Raise e)) /\
  (Storage.reachable db = true ->
   exists db',
     Storage.init_schema_sync db = Ok db' /\
     Storage.reachable db' = true /\
     (forall t, Storage.messages db = Some t -> db' = db) /\
     (Storage.messages db = None -> Storage.messages db' = Some ∅) /\
     Storage.init_schema_sync db' = Ok db' /\
     Storage.schema_exists_sync db' = Ok true /\
     Server._startup app = Ok (Main.with_db app db') /\
     (Main.health_ready (Main.with_db app db') = Main.ready_200 <->
      exists s, Config.webhook_secret (Main.settings app) = Some s /\ s <> "")).
Proof.
  intros db. subst db. destruct app as [st m [r tb]]. simpl.
  unfold Server._startup, Storage.init_schema_sync, Storage.schema_exists_sync,
    Storage._connect, Main.health_ready; simpl.
  split; intros ->; simpl.
  - split; eauto.
  - eexists. split; [reflexivity|]. simpl.
    split; [reflexivity|]. split; [intros t ->; reflexivity|].
    split; [intros ->; reflexivity|].
    split; [destruct tb; reflexivity|].
    split; [destruct tb; reflexivity|].
    split; [reflexivity|].
    rewrite <- truthy_opt_true.
    destruct (Text.truthy_opt (Config.webhook_secret st)); destruct tb; simpl;
      split; intros; try discriminate; auto.
Qed.

(** ** Storage failures *)

(** The exception of a storage call on a database that cannot serve it. *)
Lemma storage_unavailable db :
  Storage.reachable db = false \/ Storage.messages db = None ->
  exists msg,
    (forall now id f to ts tx,
        Storage.insert_message_sync now db id f to ts tx = Raise (OperationalError msg)) /\
    (forall limit offset f s q,
        Storage.list_messages_sync db limit offset f s q = Raise (OperationalError msg)) /\
    Storage.stats_sync db = Raise (OperationalError msg) /\
    (msg = "unable to open database file" \/ msg = "no such table: messages").
Proof.
  destruct db as [[|] [t|]]; simpl; intros [H|H]; try discriminate;
    eexists; repeat split; eauto.
Qed.

(** X2.  When no connection opens, or the table is missing, every insert,
    listing and statistics call raises OperationalError, for all arguments.
    The handlers pass it on: GET /stats raises, GET /messages returns no
    page, and a webhook request that passed the signature check and the
    validation leaves by the exception with the application state as it was
    (no row, no webhook counter). *)
Theorem storage_failures_surface
    (hmac : string -> Main.bytes -> string)
    (decode : Main.bytes -> option json)
    (validate : json -> Models.validation)
    (iso : string -> bool) (app : Main.App) :
  Storage.reachable (Main.db app) = false \/ Storage.messages (Main.db app) = None ->
  exists msg,
    (msg = "unable to open database file" \/ msg = "no such table: messages") /\
    (forall now id f to ts tx,
        Storage.insert_message_sync now (Main.db app) id f to ts tx
        = Raise (OperationalError msg)) /\
    (forall limit offset f s q,
        Storage.list_messages_sync (Main.db app) limit offset f s q
        = Raise (OperationalError msg)) /\
    Main.get_stats app = Raise (OperationalError msg) /\
    (forall limit offset f s q out,
        Main.get_messages iso app limit offset f s q <> Ok (Main.MessagesOk out)) /\
    (forall secret r msg',
        Config.webhook_secret (Main.settings app) = Some secret -> secret <> "" ->
        Run.delivers hmac decode validate secret r msg' ->
        Run.post hmac decode validate app r = Main.raised app (OperationalError msg)).
Proof.
  intros H. destruct (storage_unavailable _ H) as (msg & Hins & Hlist & Hstats & Hmsg).
  exists msg. split; [exact Hmsg|]. split; [exact Hins|]. split; [exact Hlist|].
  split; [exact Hstats|]. split.
  - intros limit offset f s q out. unfold Main.get_messages.
    repeat (destruct (negb _) || destruct (_ <? _)%Z); try discriminate.
    rewrite Hlist. discriminate.
  - intros secret r msg' Hsec Hne (sig & payload & Hsig & Htr & Hvalid & Hdec & Hval).
    unfold Run.post, Main.webhook. rewrite Hsig, Htr, Hsec; simpl.
    destruct secret as [|c secret]; [congruence|]. simpl. rewrite Hvalid.
    unfold Main.accept_signature. now rewrite Hdec, Hval, Hins.
Qed.

Lemma storage_failures_surface_witness :
  exists msg,
    Main.get_stats
      {| Main.settings := Sample.settings; Main.metrics := Metrics.fresh;
         Main.db := {| Storage.reachable := true; Storage.messages := None |} |}
    = Raise (OperationalError msg).
Proof.
  destruct (storage_failures_surface Sample.toy_hmac Sample.toy_decode Sample.toy_validate
              (fun _ => true)
              {| Main.settings := Sample.settings; Main.metrics := Metrics.fresh;
                 Main.db := {| Storage.reachable := true; Storage.messages := None |} |}
              (or_intror eq_refl))
    as (msg & _ & _ & _ & H & _).
  exists msg. exact H.
Defined.

(** ** Page sizes *)

Lemma length_limit_offset {A} (limit offset : Z) (l : list A) :
  length (Storage.limit_offset limit offset l)
  = if (limit <? 0)%Z then length l - Z.to_nat offset
    else Nat.min (Z.to_nat limit) (length l - Z.to_nat offset).
Proof.
  unfold Storage.limit_offset. destruct (limit <? 0)%Z.
  - now rewrite length_drop.
  - now rewrite length_take, length_drop.
Qed.

(** X3.  A page of a query holds min(limit, total - offset) rows for a limit
    of at least 0 (none once the offset reaches the total), and all the rows
    from the offset on for a negative limit; a negative offset counts as 0.
    It never holds more rows than the total. *)
Theorem page_size (t : gmap string Storage.stored) (limit offset : Z)
    (f s q : option string) (page : Storage.MessagesPage) :
  Storage.list_messages_sync (Storage.ready t) limit offset f s q = Ok page ->
  length (Storage.rows page)
  = (if (limit <? 0)%Z then Storage.total page - Z.to_nat offset
     else Nat.min (Z.to_nat limit) (Storage.total page - Z.to_nat offset)) /\
  length (Storage.rows page) <= Storage.total page /\
  ((0 <= limit)%Z -> length (Storage.rows page) <= Z.to_nat limit) /\
  ((Z.of_nat (Storage.total page) <= offset)%Z -> Storage.rows page = []).
Proof.
  intros ->%list_messages_ready. simpl.
  rewrite length_limit_offset.
  rewrite (Permutation_length (merge_sort_Permutation Storage.row_le _)).
  set (n := length _).
  assert (length (Storage.limit_offset limit offset
                    (merge_sort Storage.row_le
                       (Storage.select_where (Storage._build_filters f s q) t)))
          = if (limit <? 0)%Z then n - Z.to_nat offset
            else Nat.min (Z.to_nat limit) (n - Z.to_nat offset)) as E.
  { rewrite length_limit_offset.
    now rewrite (Permutation_length (merge_sort_Permutation Storage.row_le _)). }
  split; [reflexivity|]. split; [destruct (limit <? 0)%Z; lia|].
  split; [intros Hl; destruct (Z.ltb_spec limit 0); lia|].
  intros Ho. apply length_zero_iff_nil. rewrite E.
  destruct (limit <? 0)%Z; lia.
Qed.

Lemma page_size_witness :
  exists page,
    Storage.list_messages_sync (Storage.ready Sample.three) 2 2 None None None = Ok page /\
    length (Storage.rows page) = 1.
Proof.
  eexists. split; [reflexivity|].
  exact (proj1 (page_size Sample.three 2 2 None None None _ eq_refl)).
Defined.

(** ** Filters combine by intersection *)

Lemma where_holds_app w1 w2 r :
  Storage.where_holds (w1 ++ w2) r = Storage.where_holds w1 r && Storage.where_holds w2 r.
Proof. unfold Storage.where_holds. apply forallb_app. Qed.

Lemma build_filters_split f s q :
  Storage._build_filters f s q
  = Storage._build_filters f None None ++ Storage._build_filters None s None
    ++ Storage._build_filters None None q.
Proof. unfold Storage._build_filters. now rewrite !app_nil_r. Qed.

(** X4.  The filters combine with AND, whatever their values: a row is
    selected under [from], [since] and [q] together exactly when it is
    selected under each of them alone, so a row that fails one of them is
    left out; and the total under the three is at most the total under any
    one of them and at most the number of rows. *)
Theorem filters_intersect (t : gmap string Storage.stored) (f s q : option string) :
  let sel f s q := Storage.select_where (Storage._build_filters f s q) t in
  (forall r, r ∈ sel f s q <->
             r ∈ sel f None None /\ r ∈ sel None s None /\ r ∈ sel None None q) /\
  sel None None None = Storage.to_row <$> map_to_list t /\
  length (sel f s q) <= length (sel f None None) /\
  length (sel f s q) <= length (sel None s None) /\
  length (sel f s q) <= length (sel None None q) /\
  length (sel f s q) <= size t /\
  (forall limit offset page,
      Storage.list_messages_sync (Storage.ready t) limit offset f s q = Ok page ->
      Storage.total page = length (sel f s q) /\
      forall r, r ∈ Storage.rows page -> r ∈ sel f s q).
Proof.
  intros sel.
  assert (forall r, r ∈ sel f s q <->
                    r ∈ sel f None None /\ r ∈ sel None s None /\ r ∈ sel None None q) as Hiff.
  { intros r. unfold sel, Storage.select_where. rewrite !list_elem_of_filter.
    rewrite (build_filters_split f s q), !where_holds_app, !andb_true_iff. tauto. }
  assert (forall f' s' q', (forall r, r ∈ sel f s q -> r ∈ sel f' s' q') ->
                           length (sel f s q) <= length (sel f' s' q')) as Hlen.
  { intros f' s' q' Hsub. apply submseteq_length, NoDup_submseteq; [|exact Hsub].
    apply select_where_NoDup. }
  assert (sel None None None = Storage.to_row <$> map_to_list t) as Hall.
  { unfold sel, Storage.select_where. simpl.
    induction (Storage.to_row <$> map_to_list t) as [|r l IH]; [reflexivity|].
    rewrite filter_cons_True by reflexivity. now rewrite IH. }
  split; [exact Hiff|]. split; [exact Hall|].
  split; [apply Hlen; intros r Hr; apply Hiff in Hr; tauto|].
  split; [apply Hlen; intros r Hr; apply Hiff in Hr; tauto|].
  split; [apply Hlen; intros r Hr; apply Hiff in Hr; tauto|].
  split.
  - rewrite <- length_map_to_list, <- (length_fmap Storage.to_row), <- Hall.
    apply Hlen. intros r Hr. rewrite Hall.
    eapply select_where_sub, Hr.
  - intros limit offset page ->%list_messages_ready. simpl. split; [reflexivity|].
    intros r Hr. unfold sel.
    rewrite <- (merge_sort_Permutation Storage.row_le).
    eapply elem_of_submseteq; [exact Hr|].
    apply sublist_submseteq, limit_offset_sublist.
Qed.

(** ** Insert, then query *)

Lemma table_rows_insert (t : gmap string Storage.stored) id v :
  t !! id = None ->
  Storage.to_row <$> map_to_list (<[id := v]> t)
  ≡ₚ Storage.to_row (id, v) :: (Storage.to_row <$> map_to_list t).
Proof. intros H. now rewrite map_to_list_insert. Qed.

Lemma select_where_insert w (t : gmap string Storage.stored) id v :
  t !! id = None ->
  Storage.select_where w (<[id := v]> t)
  ≡ₚ (if Storage.where_holds w (Storage.to_row (id, v))
      then [Storage.to_row (id, v)] else [])
     ++ Storage.select_where w t.
Proof.
  intros H. unfold Storage.select_where.
  rewrite (table_rows_insert t id v H), filter_cons.
  destruct (Storage.where_holds w (Storage.to_row (id, v))); case_decide;
    try congruence; reflexivity.
Qed.

(** X5.  The insert of a message whose id is free adds exactly its row: the
    rows of the table afterwards are the new row and the rows before; under
    any filters the selected rows are the ones selected before, and the new
    row if it passes the filters, so the total of a listing grows by one or
    stays; the statistics count one message more. *)
Theorem insert_then_query (t : gmap string Storage.stored)
    (now id f to ts : string) (tx : option string) :
  t !! id = None ->
  let row := {| Storage.message_id := id; Storage.from_msisdn := f;
                Storage.to_msisdn := to; Storage.ts := ts; Storage.text := tx;
                Storage.created_at := now |} in
  exists t',
    Storage.insert_message_sync now (Storage.ready t) id f to ts tx
    = Ok ({| Storage.dup := false |}, Storage.ready t') /\
    Storage.to_row <$> map_to_list t' ≡ₚ row :: (Storage.to_row <$> map_to_list t) /\
    (forall ff s q limit offset limit' offset' before after,
        Storage.list_messages_sync (Storage.ready t) limit offset ff s q = Ok before ->
        Storage.list_messages_sync (Storage.ready t') limit' offset' ff s q = Ok after ->
        let passes := Storage.where_holds (Storage._build_filters ff s q) row in
        Storage.total after = Storage.total before + (if passes then 1 else 0) /\
        (forall r, r ∈ Storage.rows after ->
                   r = row /\ passes = true \/
                   r ∈ Storage.select_where (Storage._build_filters ff s q) t)) /\
    (forall st st',
        Storage.stats_sync (Storage.ready t) = Ok st ->
        Storage.stats_sync (Storage.ready t') = Ok st' ->
        Storage.total_messages st' = Storage.total_messages st + 1).
Proof.
  intros Hfree row. eexists. split; [now apply insert_fresh|].
  set (v := {| Storage.s_from_msisdn := f |}).
  change row with (Storage.to_row (id, v)).
  split; [now apply table_rows_insert|]. split.
  - intros ff s q limit offset limit' offset' before after
      ->%list_messages_ready ->%list_messages_ready passes. simpl.
    pose proof (select_where_insert (Storage._build_filters ff s q) t id v Hfree) as HP.
    fold passes in HP. split.
    + rewrite HP, length_app. destruct passes; simpl; lia.
    + intros r Hr.
      assert (r ∈ Storage.select_where (Storage._build_filters ff s q) (<[id:=v]> t)) as Hin.
      { rewrite <- (merge_sort_Permutation Storage.row_le).
        eapply elem_of_submseteq; [exact Hr|].
        apply sublist_submseteq, limit_offset_sublist. }
      rewrite HP in Hin. apply elem_of_app in Hin as [Hin|Hin]; [|now right].
      destruct passes; [|now apply elem_of_nil in Hin].
      apply list_elem_of_singleton in Hin. now left.
  - intros st st' [= <-] [= <-]. simpl.
    rewrite !length_fmap, !length_map_to_list.
    rewrite map_size_insert_None by exact Hfree. lia.
Qed.

Lemma insert_then_query_witness :
  exists t',
    Storage.insert_message_sync "2025-01-16T00:00:00Z" (Storage.ready Sample.three)
      "m9" "+919876543210" "+14155550100" "2025-01-15T09:00:00Z" (Some "Early")
    = Ok ({| Storage.dup := false |}, Storage.ready t') /\
    size t' = 4.
Proof.
  destruct (insert_then_query Sample.three "2025-01-16T00:00:00Z" "m9" "+919876543210"
              "+14155550100" "2025-01-15T09:00:00Z" (Some "Early")
              ltac:(vm_compute; reflexivity))
    as (t' & H & HP & _).
  exists t'. split; [exact H|].
  rewrite <- length_map_to_list, <- (length_fmap Storage.to_row), HP. reflexivity.
Defined.

(** ** Statistics and listings agree *)

Lemma row_le_ts a b : Storage.row_le a b -> String.le (Storage.ts a) (Storage.ts b).
Proof.
  unfold Storage.row_le. case_bool_decide as E; [|auto].
  intros _. rewrite E. reflexivity.
Qed.

Lemma listing_head_min l h :
  StronglySorted Storage.row_le l -> head l = Some h ->
  forall r, r ∈ l -> String.le (Storage.ts h) (Storage.ts r).
Proof.
  intros HS Hh r Hr. apply head_Some in Hh as [l' ->].
  apply elem_of_cons in Hr as [Hr|Hr]; [subst r; reflexivity|].
  apply StronglySorted_inv in HS as [_ Hall]. rewrite Forall_forall in Hall.
  now apply row_le_ts, Hall.
Qed.

Lemma listing_last_max l h :
  StronglySorted Storage.row_le l -> last l = Some h ->
  forall r, r ∈ l -> String.le (Storage.ts r) (Storage.ts h).
Proof.
  intros HS Hh r Hr. apply last_Some in Hh as [l' ->].
  apply elem_of_app in Hr as [Hr|Hr];
    [|apply list_elem_of_singleton in Hr; subst r; reflexivity].
  apply row_le_ts. eapply StronglySorted_app_1_elem_of; eauto.
  now apply list_elem_of_singleton.
Qed.

Lemma min_ts_unique rs lo :
  (exists r, r ∈ rs /\ Storage.ts r = lo) ->
  (forall r, r ∈ rs -> String.le lo (Storage.ts r)) ->
  Storage.min_ts rs = Some lo.
Proof.
  intros (r & Hr & <-) Hlo. pose proof (min_ts_spec rs) as H.
  destruct (Storage.min_ts rs) as [m|]; [|subst rs; now apply elem_of_nil in Hr].
  destruct H as [(r' & Hr' & <-) Hm]. f_equal.
  apply (anti_symm String.le); auto.
Qed.

Lemma max_ts_unique rs hi :
  (exists r, r ∈ rs /\ Storage.ts r = hi) ->
  (forall r, r ∈ rs -> String.le (Storage.ts r) hi) ->
  Storage.max_ts rs = Some hi.
Proof.
  intros (r & Hr & <-) Hhi. pose proof (max_ts_spec rs) as H.
  destruct (Storage.max_ts rs) as [m|]; [|subst rs; now apply elem_of_nil in Hr].
  destruct H as [(r' & Hr' & <-) Hm]. f_equal.
  apply (anti_symm String.le); auto.
Qed.

Lemma sum_list_with_plus {A} (f g : A -> nat) l :
  sum_list_with (fun x => f x + g x) l = sum_list_with f l + sum_list_with g l.
Proof. induction l as [|x l IH]; simpl; lia. Qed.

Lemma sum_indicator (x : string) l :
  NoDup l -> x ∈ l ->
  sum_list_with (fun s => if decide (x = s) then 1 else 0) l = 1.
Proof.
  induction 1 as [|y l Hy Hl IH]; intros Hx; [now apply elem_of_nil in Hx|].
  simpl. apply elem_of_cons in Hx as [->|Hx].
  - rewrite decide_True by reflexivity.
    assert (sum_list_with (fun s => if decide (y = s) then 1 else 0) l = 0) as ->; [|lia].
    clear IH Hl. induction l as [|z l IH]; simpl; [reflexivity|].
    rewrite not_elem_of_cons in Hy. destruct Hy as [Hyz Hy].
    rewrite decide_False by exact Hyz. now rewrite IH.
  - rewrite decide_False by (intros ->; contradiction). now rewrite IH.
Qed.

(** The rows of all senders together are the rows of the table. *)
Lemma sum_rows_from rs : forall l,
  NoDup l -> (forall r, r ∈ rs -> Storage.from_msisdn r ∈ l) ->
  sum_list_with (Spec.rows_from rs) l = length rs.
Proof.
  induction rs as [|r rs IH]; intros l Hl Hin.
  - unfold Spec.rows_from. simpl. clear. induction l; simpl; auto.
  - transitivity (sum_list_with
                    (fun s => (if decide (Storage.from_msisdn r = s) then 1 else 0)
                              + Spec.rows_from rs s) l).
    + clear. induction l as [|s l IH]; simpl; [reflexivity|]. rewrite IH. f_equal.
      unfold Spec.rows_from. rewrite filter_cons. case_decide; reflexivity.
    + rewrite sum_list_with_plus, sum_indicator, IH; simpl; auto.
      * intros r' Hr'. apply Hin. now right.
      * apply Hin. now left.
Qed.

Lemma sum_group_by_sender rs :
  sum_list_with Storage.count (Storage.group_by_sender rs) = length rs.
Proof.
  unfold Storage.group_by_sender.
  transitivity (sum_list_with (Spec.rows_from rs) (elements (Storage.senders rs))).
  - induction (elements (Storage.senders rs)) as [|s l IH]; [reflexivity|].
    simpl. f_equal. exact IH.
  - apply sum_rows_from; [apply NoDup_elements|].
    intros r Hr. apply elem_of_elements, elem_of_senders. eauto.
Qed.

Lemma sum_list_with_take {A} (f : A -> nat) n l :
  sum_list_with f (take n l) <= sum_list_with f l.
Proof.
  rewrite <- (take_drop n l) at 2. rewrite sum_list_with_app. lia.
Qed.

Lemma select_all (t : gmap string Storage.stored) :
  Storage.select_where (Storage._build_filters None None None) t
  = Storage.to_row <$> map_to_list t.
Proof.
  unfold Storage.select_where. simpl.
  induction (Storage.to_row <$> map_to_list t) as [|r l IH]; [reflexivity|].
  rewrite filter_cons_True by reflexivity. now rewrite IH.
Qed.

Lemma sum_list_with_ge_length {A} (f : A -> nat) l :
  (forall x, x ∈ l -> 1 <= f x) -> length l <= sum_list_with f l.
Proof.
  induction l as [|x l IH]; intros H; simpl; [lia|].
  assert (1 <= f x) by (apply H; left).
  assert (length l <= sum_list_with f l) by (apply IH; intros y Hy; apply H; now right).
  lia.
Qed.

(** X6.  The statistics agree with the listings of the same table:
    [total_messages] is the total of an unfiltered listing; every row of any
    listing has its [ts] between [first_message_ts] and [last_message_ts];
    the first row of the unfiltered listing carries [first_message_ts] and
    its last row [last_message_ts]; the counts of [messages_per_sender] add
    up to at most [total_messages], and to exactly that when there are at
    most ten senders; there are never more senders than messages. *)
Theorem stats_agree_with_listing (t : gmap string Storage.stored) :
  exists st,
    Storage.stats_sync (Storage.ready t) = Ok st /\
    (forall limit offset page,
        Storage.list_messages_sync (Storage.ready t) limit offset None None None = Ok page ->
        Storage.total page = Storage.total_messages st) /\
    (forall limit offset f s q page r,
        Storage.list_messages_sync (Storage.ready t) limit offset f s q = Ok page ->
        r ∈ Storage.rows page ->
        exists lo hi,
          Storage.first_message_ts st = Some lo /\ Storage.last_message_ts st = Some hi /\
          String.le lo (Storage.ts r) /\ String.le (Storage.ts r) hi) /\
    (forall limit page,
        (1 <= limit)%Z ->
        Storage.list_messages_sync (Storage.ready t) limit 0 None None None = Ok page ->
        Storage.ts <$> head (Storage.rows page) = Storage.first_message_ts st) /\
    (forall page,
        Storage.list_messages_sync (Storage.ready t) (-1) 0 None None None = Ok page ->
        Storage.ts <$> last (Storage.rows page) = Storage.last_message_ts st) /\
    sum_list_with Storage.count (Storage.messages_per_sender st)
    <= Storage.total_messages st /\
    (Storage.senders_count st <= 10 ->
     sum_list_with Storage.count (Storage.messages_per_sender st)
     = Storage.total_messages st) /\
    Storage.senders_count st <= Storage.total_messages st.
Proof.
  set (rs := Storage.to_row <$> map_to_list t).
  set (sorted := merge_sort Storage.count_ge (Storage.group_by_sender rs)).
  exists {| Storage.total_messages := length rs;
            Storage.senders_count := size (Storage.senders rs);
            Storage.messages_per_sender := take 10 sorted;
            Storage.first_message_ts := Storage.min_ts rs;
            Storage.last_message_ts := Storage.max_ts rs |}.
  split; [reflexivity|].
  cbn [Storage.total_messages Storage.senders_count Storage.messages_per_sender
       Storage.first_message_ts Storage.last_message_ts].
  assert (sum_list_with Storage.count sorted = length rs) as Hsum.
  { unfold sorted. rewrite merge_sort_Permutation. apply sum_group_by_sender. }
  assert (length sorted = size (Storage.senders rs)) as Hlen.
  { unfold sorted. rewrite merge_sort_Permutation.
    unfold Storage.group_by_sender. now rewrite length_fmap. }
  set (listing := merge_sort Storage.row_le rs).
  assert (StronglySorted Storage.row_le listing) as HS
    by apply (StronglySorted_merge_sort _).
  assert (listing ≡ₚ rs) as HP by apply merge_sort_Permutation.
  split.
  { intros limit offset page ->%list_messages_ready. simpl. now rewrite select_all. }
  split.
  { intros limit offset f s q page r ->%list_messages_ready Hr. simpl in Hr.
    assert (r ∈ rs) as Hin.
    { eapply select_where_sub. rewrite <- (merge_sort_Permutation Storage.row_le).
      eapply elem_of_submseteq; [exact Hr|].
      apply sublist_submseteq, limit_offset_sublist. }
    pose proof (min_ts_spec rs) as Hmin. pose proof (max_ts_spec rs) as Hmax.
    destruct (Storage.min_ts rs) as [lo|]; [|subst rs; rewrite Hmin in Hin;
                                              now apply elem_of_nil in Hin].
    destruct (Storage.max_ts rs) as [hi|]; [|rewrite Hmax in Hin;
                                              now apply elem_of_nil in Hin].
    exists lo, hi. destruct Hmin as [_ Hmin], Hmax as [_ Hmax]. auto. }
  split.
  { intros limit page Hl ->%list_messages_ready. simpl.
    rewrite select_all. fold rs. fold listing.
    unfold Storage.limit_offset. destruct (Z.ltb_spec limit 0); [lia|].
    rewrite drop_0.
    assert (head (take (Z.to_nat limit) listing) = head listing) as ->.
    { destruct (Z.to_nat limit) eqn:E; [lia|]. now destruct listing. }
    destruct listing as [|h l'] eqn:El; simpl.
    - apply Permutation_nil in HP. now rewrite HP.
    - symmetry. apply min_ts_unique.
      + exists h. split; [rewrite <- HP; left|reflexivity].
      + intros r Hr. apply (listing_head_min (h :: l') h HS eq_refl).
        now rewrite HP. }
  split.
  { intros page ->%list_messages_ready. simpl.
    rewrite select_all. fold rs. fold listing.
    unfold Storage.limit_offset. simpl. rewrite drop_0.
    destruct (last listing) as [h|] eqn:El; simpl.
    - symmetry. apply max_ts_unique.
      + exists h. split; [rewrite <- HP; now apply last_Some_elem_of|reflexivity].
      + intros r Hr. apply (listing_last_max listing h HS El). now rewrite HP.
    - apply last_None in El. rewrite El in HP.
      apply Permutation_nil in HP. now rewrite HP. }
  split; [rewrite <- Hsum; apply sum_list_with_take|].
  split; [intros Hle; rewrite take_ge by lia; exact Hsum|].
  rewrite <- Hlen, <- Hsum. apply sum_list_with_ge_length.
  intros e He. unfold sorted in He. rewrite merge_sort_Permutation in He.
  apply elem_of_group_by_sender in He as [Hs ->]. now apply rows_from_pos.
Qed.

(** ** What a webhook request does *)

Lemma incr_lookup `{Countable K} (k k' : K) (d : gmap K nat) :
  Metrics.incr k d !! k' = if decide (k = k') then Some (default 0 (d !! k) + 1) else d !! k'.
Proof. unfold Metrics.incr. apply lookup_insert. Qed.

(** X7.  Every webhook request ends in one of six ways.  It leaves by an
    exception before anything was set: then the application state is as it
    was and no log field is set.  Or the log fields are set and name a
    result, the webhook counter of that result has gone up by one and no
    other counter and nothing else in the metrics has changed, and the
    settings are as they were.  The result is invalid_signature, answered
    401; or validation_error, with the database as it was, answered 422 with
    the list of errors as detail (the one error "Invalid JSON" when the body
    does not parse, else the errors of the validator) unless building that
    response raises, which leaves by the exception after the log fields and
    the counter were set: ValueError when the errors hold a float that is
    not finite, and never when the body does not parse; or duplicate,
    answered 200 with the database as it was; or created, answered 200 with
    the database the insert of the validated message returned. *)
Theorem webhook_effects
    (hmac : string -> Main.bytes -> string)
    (decode : Main.bytes -> option json)
    (validate : json -> Models.validation)
    (now : string) (app : Main.App) (sig : option string) (raw : Main.bytes) :
  let h := Main.webhook hmac decode validate now app sig raw in
  match Main.webhook_log_fields h with
  | None => (exists e, Main.outcome h = Raise e) /\ Main.app_after h = app
  | Some lf =>
      Main.settings (Main.app_after h) = Main.settings app /\
      Main.metrics (Main.app_after h)
      = Metrics.inc_webhook (Main.metrics app) (Main.log_result lf) /\
      (forall label,
          Metrics.webhook_requests_total (Main.metrics (Main.app_after h)) !! label
          = if decide (Main.log_result lf = label)
            then Some (default 0 (Metrics.webhook_requests_total (Main.metrics app)
                                    !! label) + 1)
            else Metrics.webhook_requests_total (Main.metrics app) !! label) /\
      Metrics.http_requests_total (Main.metrics (Main.app_after h))
      = Metrics.http_requests_total (Main.metrics app) /\
      Metrics.request_latency (Main.metrics (Main.app_after h))
      = Metrics.request_latency (Main.metrics app) /\
      ((Main.outcome h = Ok Main.invalid_signature_401 /\
        Main.log_result lf = "invalid_signature" /\
        Main.log_dup lf = false /\ Main.db (Main.app_after h) = Main.db app) \/
       (Main.log_result lf = "validation_error" /\
        Main.log_dup lf = false /\ Main.db (Main.app_after h) = Main.db app /\
        exists detail,
          ((decode raw = None /\ detail = [Main.invalid_json_detail]) \/
           (exists payload, decode raw = Some payload /\
                            validate payload = Models.Invalid detail)) /\
          (Main.outcome h
           = Ok {| Main.status_code := 422;
                   Main.content := JDict [("detail", JList detail)] |} \/
           exists e, Main.outcome h = Raise e) /\
          (decode raw = None ->
           Main.outcome h
           = Ok {| Main.status_code := 422;
                   Main.content := JDict [("detail", JList detail)] |}) /\
          (Main.json_finite (JList detail) = false ->
           exists msg, Main.outcome h = Raise (ValueError msg))) \/
       (Main.outcome h = Ok Main.status_ok_200 /\
        Main.log_result lf = "duplicate" /\
        Main.log_dup lf = true /\ Main.db (Main.app_after h) = Main.db app) \/
       (Main.outcome h = Ok Main.status_ok_200 /\
        Main.log_result lf = "created" /\
        Main.log_dup lf = false /\
        exists msg,
          Main.log_message_id lf = JStr (Models.message_id msg) /\
          Run.insert_attempt (Main.db app) (Run.attempt_of now msg)
          = Ok ({| Storage.dup := false |}, Main.db (Main.app_after h))))
  end.
Proof.
  intros h. subst h.
  assert (forall res label,
             Metrics.webhook_requests_total
               (Metrics.inc_webhook (Main.metrics app) res) !! label
             = if decide (res = label)
               then Some (default 0 (Metrics.webhook_requests_total
                                       (Main.metrics app) !! label) + 1)
               else Metrics.webhook_requests_total (Main.metrics app) !! label)
    as Hinc.
  { intros res label. simpl. rewrite incr_lookup.
    case_decide; [subst|]; reflexivity. }
  pattern (Main.webhook hmac decode validate now app sig raw).
  match goal with |- ?P _ => set (Post := P) end.
  assert (Post (Main.reject_signature decode app raw)) as Hrej.
  { unfold Post. simpl. split; [reflexivity|].
    split; [reflexivity|]. split; [apply Hinc|]. split; [reflexivity|].
    split; [reflexivity|]. left. repeat split. }
  assert (forall e, Post (Main.raised app e)) as Hraise
    by (intros e; split; [eexists|]; reflexivity).
  unfold Main.webhook.
  destruct sig as [s|]; [|exact Hrej].
  destruct (negb (Text.truthy s)); [exact Hrej|].
  destruct (negb (Text.truthy_opt _)); [exact Hrej|].
  destruct (Main._signature_valid _ _ _ _) as [[|]|e]; [|exact Hrej|apply Hraise].
  clear Hrej. unfold Main.accept_signature.
  destruct (decode raw) as [payload|] eqn:Ed.
  2:{ unfold Post.
      cbn [Main.webhook_log_fields Main.app_after Main.outcome Main.log_result
           Main.log_dup Main.with_metrics Main.settings Main.metrics Main.db].
      split; [reflexivity|].
      split; [reflexivity|]. split; [apply Hinc|]. split; [reflexivity|].
      split; [reflexivity|]. right. left. repeat split.
      exists [Main.invalid_json_detail]. split; [left; split; reflexivity|].
      split; [left; reflexivity|]. split; [reflexivity|]. discriminate. }
  destruct (validate payload) as [msg|errors] eqn:Ev.
  2:{ unfold Post.
      cbn [Main.webhook_log_fields Main.app_after Main.outcome Main.log_result
           Main.log_dup Main.with_metrics Main.settings Main.metrics Main.db].
      split; [reflexivity|].
      split; [reflexivity|]. split; [apply Hinc|]. split; [reflexivity|].
      split; [reflexivity|]. right. left. repeat split.
      exists errors. split; [right; exists payload; split; [reflexivity|exact Ev]|].
      unfold Main._validation_422, Main.JSONResponse.
      cbn [Main.json_finite forallb snd]. rewrite andb_true_r.
      destruct (forallb Main.json_finite errors).
      - split; [left; reflexivity|]. split; [discriminate|discriminate].
      - split; [right; eexists; reflexivity|].
        split; [discriminate|eexists; reflexivity]. }
  destruct (Storage.insert_message_sync _ _ _ _ _ _ _) as [[[[|]] db']|e] eqn:E;
    [| |apply Hraise].
  - unfold Post. simpl. split; [reflexivity|].
    split; [reflexivity|]. split; [apply Hinc|]. split; [reflexivity|].
    split; [reflexivity|]. right. right. left. repeat split.
    simpl. unfold Storage.insert_message_sync in E.
    destruct (Storage._connect (Main.db app)); simpl in E; [|discriminate].
    destruct (Storage.from_messages (Main.db app)); simpl in E; [|discriminate].
    destruct (_ !! _); congruence.
  - unfold Post. simpl. split; [reflexivity|].
    split; [reflexivity|]. split; [apply Hinc|]. split; [reflexivity|].
    split; [reflexivity|]. right. right. right. repeat split.
    exists msg. split; [reflexivity|]. exact E.
Qed.

(** A validation error whose detail holds an infinity: the response cannot
    be built, and the request leaves by ValueError with the log fields and
    the counter set. *)
Example scenario_unrenderable_422 :
  let validate := fun _ : json =>
    Models.Invalid [JDict [("type", JStr "string_type"); ("input", JFloat infinity)]] in
  let h := Main.webhook Sample.toy_hmac Sample.toy_decode validate
             "2025-01-16T00:00:00Z" Sample.app0 (Some "ab") [Byte.x01] in
  Main.outcome h
  = Raise (ValueError "Out of range float values are not JSON compliant") /\
  Main.log_result <$> Main.webhook_log_fields h = Some "validation_error" /\
  Metrics.webhook_requests_total (Main.metrics (Main.app_after h)) !! "validation_error"
  = Some 1 /\
  Main.db (Main.app_after h) = Storage.ready ∅.
Proof. repeat split; vm_compute; reflexivity. Qed.

(** ** Stored rows never change *)

(** X8.  Whatever webhook requests arrive, in any number and order, a row
    once stored stays stored with the values it has: the table after the
    requests holds every key of the table before with the same columns, so
    every row of the table before is a row afterwards and the number of rows
    never goes down; the settings are not touched. *)
Theorem stored_rows_never_change
    (hmac : string -> Main.bytes -> string)
    (decode : Main.bytes -> option json)
    (validate : json -> Models.validation)
    (app : Main.App) (t : gmap string Storage.stored) (rs : list Run.request) :
  Main.db app = Storage.ready t ->
  exists t',
    Main.db (Run.post_all hmac decode validate app rs) = Storage.ready t' /\
    Main.settings (Run.post_all hmac decode validate app rs) = Main.settings app /\
    (forall id v, t !! id = Some v -> t' !! id = Some v) /\
    (forall r, r ∈ Storage.to_row <$> map_to_list t ->
               r ∈ Storage.to_row <$> map_to_list t') /\
    size t <= size t'.
Proof.
  intros Hdb.
  destruct (post_all_keeps hmac decode validate rs app t Hdb) as (t' & Hdb' & Hsub & Hset).
  exists t'. split; [exact Hdb'|]. split; [exact Hset|].
  split; [intros id v Hv; eapply lookup_weaken; eauto|].
  split; [|now apply map_subseteq_size].
  intros r Hr. eapply elem_of_submseteq; [exact Hr|].
  apply fmap_submseteq, map_to_list_submseteq, Hsub.
Qed.

Lemma stored_rows_never_change_witness :
  exists t',
    Main.db (Run.post_all Sample.toy_hmac Sample.toy_decode Sample.toy_validate
               {| Main.settings := Sample.settings; Main.metrics := Metrics.fresh;
                  Main.db := Storage.ready Sample.three |}
               [Sample.signed "2025-01-17T00:00:00Z" Byte.x04;
                {| Run.rq_now := "2025-01-17T00:00:01Z"; Run.rq_sig := None;
                   Run.rq_raw := [] |}])
    = Storage.ready t' /\
    3 <= size t'.
Proof.
  destruct (stored_rows_never_change Sample.toy_hmac Sample.toy_decode Sample.toy_validate
              {| Main.settings := Sample.settings; Main.metrics := Metrics.fresh;
                 Main.db := Storage.ready Sample.three |}
              Sample.three
              [Sample.signed "2025-01-17T00:00:00Z" Byte.x04;
               {| Run.rq_now := "2025-01-17T00:00:01Z"; Run.rq_sig := None;
                  Run.rq_raw := [] |}]
              eq_refl)
    as (t' & H & _ & _ & _ & Hsize).
  exists t'. split; [exact H|]. exact Hsize.
Defined.

(** ** The header is normalised before it is compared *)

Lemma rstrip_whitespace (s : string) :
  Text.forall_string Text.py_isspace s = true -> Text.rstrip s = "".
Proof.
  induction s as [|c s IH]; simpl; [reflexivity|].
  intros H. apply andb_prop in H as [Hc Hs]. now rewrite (IH Hs), Hc.
Qed.

Lemma lstrip_app_l ws s :
  Text.forall_string Text.py_isspace ws = true -> Text.lstrip (ws +:+ s) = Text.lstrip s.
Proof.
  induction ws as [|c ws IH]; [reflexivity|]. simpl. intros H.
  apply andb_prop in H as [Hc Hs]. rewrite Hc. auto.
Qed.

Lemma rstrip_app_r s ws :
  Text.forall_string Text.py_isspace ws = true -> Text.rstrip (s +:+ ws) = Text.rstrip s.
Proof.
  intros H. induction s as [|c s IH].
  - now apply rstrip_whitespace.
  - change (String c s +:+ ws) with (String c (s +:+ ws)).
    cbn [Text.rstrip]. now rewrite IH.
Qed.

Lemma py_strip_padded ws1 s ws2 :
  Text.forall_string Text.py_isspace ws1 = true ->
  Text.forall_string Text.py_isspace ws2 = true ->
  Text.py_strip (ws1 +:+ s +:+ ws2) = Text.py_strip s.
Proof.
  intros H1 H2. unfold Text.py_strip. rewrite lstrip_app_l by exact H1.
  induction s as [|c s IH].
  - change ("" +:+ ws2) with ws2. now rewrite lstrip_whitespace.
  - change (String c s +:+ ws2) with (String c (s +:+ ws2)).
    cbn [Text.lstrip]. destruct (Text.py_isspace c); [exact IH|].
    exact (rstrip_app_r (String c s) ws2 H2).
Qed.

Lemma upper_char_facts c :
  Text.py_isspace (Text.ascii_upper c) = Text.py_isspace c /\
  Text.py_lower_char (Text.ascii_upper c) = Text.py_lower_char c.
Proof.
  pose proof (forall_ascii
                (fun c => Bool.eqb (Text.py_isspace (Text.ascii_upper c)) (Text.py_isspace c)
                          && Ascii.eqb (Text.py_lower_char (Text.ascii_upper c))
                                       (Text.py_lower_char c))
                ltac:(vm_compute; reflexivity) c) as H.
  cbv beta in H. apply andb_prop in H as [H1 H2].
  split; [now apply eqb_prop|now apply Ascii.eqb_eq].
Qed.

Lemma lstrip_upper s :
  Text.lstrip (Text.map_string Text.ascii_upper s)
  = Text.map_string Text.ascii_upper (Text.lstrip s).
Proof.
  induction s as [|c s IH]; simpl; [reflexivity|].
  rewrite (proj1 (upper_char_facts c)). now destruct (Text.py_isspace c).
Qed.

Lemma rstrip_upper s :
  Text.rstrip (Text.map_string Text.ascii_upper s)
  = Text.map_string Text.ascii_upper (Text.rstrip s).
Proof.
  induction s as [|c s IH]; simpl; [reflexivity|].
  rewrite IH, (proj1 (upper_char_facts c)).
  destruct (Text.rstrip s); simpl; [now destruct (Text.py_isspace c)|reflexivity].
Qed.

Lemma py_lower_upper s :
  Text.py_lower (Text.map_string Text.ascii_upper s) = Text.py_lower s.
Proof.
  unfold Text.py_lower. induction s as [|c s IH]; simpl; [reflexivity|].
  now rewrite IH, (proj2 (upper_char_facts c)).
Qed.

Lemma normal_form_padded_upper ws1 s ws2 :
  Text.forall_string Text.py_isspace ws1 = true ->
  Text.forall_string Text.py_isspace ws2 = true ->
  Text.py_lower (Text.py_strip (ws1 +:+ Text.map_string Text.ascii_upper s +:+ ws2))
  = Text.py_lower (Text.py_strip s).
Proof.
  intros H1 H2. rewrite py_strip_padded by assumption.
  unfold Text.py_strip. now rewrite lstrip_upper, rstrip_upper, py_lower_upper.
Qed.

(** X9.  The signature check reads the header stripped and in lower case: a
    header written in upper case and padded with whitespace on either side
    gives the result of the header itself, in [_signature_valid] and, when
    the header is not empty, in the whole handler.  So the upper-case digest
    with blanks around it is accepted whenever the digest is. *)
Theorem signature_header_normalised
    (hmac : string -> Main.bytes -> string)
    (decode : Main.bytes -> option json)
    (validate : json -> Models.validation)
    (now : string) (app : Main.App) (raw : Main.bytes)
    (secret ws1 s ws2 : string) :
  Text.forall_string Text.py_isspace ws1 = true ->
  Text.forall_string Text.py_isspace ws2 = true ->
  let padded := ws1 +:+ Text.map_string Text.ascii_upper s +:+ ws2 in
  Main._signature_valid hmac secret raw padded = Main._signature_valid hmac secret raw s /\
  (s <> "" ->
   Main.webhook hmac decode validate now app (Some padded) raw
   = Main.webhook hmac decode validate now app (Some s) raw).
Proof.
  intros H1 H2 padded.
  assert (forall k, Main._signature_valid hmac k raw padded
                    = Main._signature_valid hmac k raw s) as Hv.
  { intros k. unfold Main._signature_valid, padded.
    now rewrite normal_form_padded_upper. }
  split; [apply Hv|]. intros Hs. unfold Main.webhook. rewrite Hv.
  assert (Text.truthy padded = true) as ->.
  { unfold padded. destruct ws1; [|reflexivity].
    destruct s; [congruence|reflexivity]. }
  destruct s; [congruence|reflexivity].
Qed.

Lemma signature_header_normalised_witness :
  Main._signature_valid Sample.toy_hmac "test-secret" [Byte.x01]
    (String " " (String "009" "") +:+ Text.map_string Text.ascii_upper "ab" +:+ String "010" "")
  = Ok true.
Proof.
  rewrite (proj1 (signature_header_normalised Sample.toy_hmac Sample.toy_decode
                    Sample.toy_validate "" Sample.app0 [Byte.x01] "test-secret"
                    (String " " (String "009" "")) "ab" (String "010" "")
                    eq_refl eq_refl)).
  reflexivity.
Defined.

(** X10.  With a secret configured, an ASCII header and an ASCII digest, the
    signature check never raises and decides the request: the handler goes
    on to parsing and validation exactly when the header is not empty and
    its stripped lower-case form is the hex digest of the body; otherwise it
    answers 401 "invalid signature", stores nothing, and the validator has
    no part in the result.  Without a header it always answers 401. *)
Theorem signature_gate_decides
    (hmac : string -> Main.bytes -> string)
    (decode : Main.bytes -> option json)
    (validate : json -> Models.validation)
    (now : string) (app : Main.App) (raw : Main.bytes) (secret s : string) :
  Config.webhook_secret (Main.settings app) = Some secret -> secret <> "" ->
  Text.is_ascii s = true -> Text.is_ascii (hmac secret raw) = true ->
  Main._signature_valid hmac secret raw s
  = Ok (String.eqb (hmac secret raw) (Text.py_lower (Text.py_strip s))) /\
  Main.webhook hmac decode validate now app (Some s) raw
  = (if Text.truthy s && String.eqb (hmac secret raw) (Text.py_lower (Text.py_strip s))
     then Main.accept_signature decode validate now app raw
     else Main.reject_signature decode app raw) /\
  Main.webhook hmac decode validate now app None raw = Main.reject_signature decode app raw /\
  Main.outcome (Main.reject_signature decode app raw) = Ok Main.invalid_signature_401 /\
  Main.db (Main.app_after (Main.reject_signature decode app raw)) = Main.db app.
Proof.
  intros Hsec Hne Hs Hd.
  assert (Main._signature_valid hmac secret raw s
          = Ok (String.eqb (hmac secret raw) (Text.py_lower (Text.py_strip s)))) as Hv.
  { unfold Main._signature_valid, Main.compare_digest.
    now rewrite Hd, (is_ascii_normalised s Hs). }
  split; [exact Hv|]. split; [|repeat split].
  unfold Main.webhook. rewrite Hsec. simpl.
  destruct (Text.truthy s); simpl; [|reflexivity].
  destruct secret as [|c secret]; [congruence|]. simpl. rewrite Hv.
  now destruct (String.eqb _ _).
Qed.

Lemma signature_gate_decides_witness :
  Main.outcome
    (Main.webhook Sample.toy_hmac Sample.toy_decode Sample.toy_validate
       "2025-01-16T00:00:00Z" Sample.app0 (Some "bad") [Byte.x01])
  = Ok Main.invalid_signature_401.
Proof.
  rewrite (proj1 (proj2 (signature_gate_decides Sample.toy_hmac Sample.toy_decode
                           Sample.toy_validate "2025-01-16T00:00:00Z" Sample.app0
                           [Byte.x01] "test-secret" "bad"
                           eq_refl ltac:(discriminate) eq_refl eq_refl))).
  reflexivity.
Defined.

(** ** The filters on plain text *)

(** X11.  When [q], if given, is made of ASCII characters other than NUL,
    [%] and [_], and no stored text holds a NUL (texts being sequences of
    code points below 256), the query selects exactly the rows of the table
    on which every given filter holds: [from_msisdn] equal to a non-empty
    [from], [ts] at least a non-empty [since], and [q] occurring in the text
    up to the case of the letters A-Z, every other character compared as it
    is (an absent text counting as empty).  Every row of a page is such a
    row.  When the pattern made of [q] has at most 50,000 bytes, a page
    without limit from offset 0 holds them all; when it has more and some
    row passes [from] and [since], the query raises OperationalError
    instead. *)
Theorem plain_text_filter (t : gmap string Storage.stored) (f s q : option string) :
  (forall x, q = Some x -> Spec.plain x = true) ->
  (forall r, r ∈ Storage.to_row <$> map_to_list t ->
             Spec.no_nul (default "" (Storage.text r)) = true) ->
  (forall r, r ∈ Storage.select_where (Storage._build_filters f s q) t <->
             r ∈ Storage.to_row <$> map_to_list t /\ Filtered.matches f s q r) /\
  (forall limit offset page r,
      Storage.list_messages_sync (Storage.ready t) limit offset f s q = Ok page ->
      r ∈ Storage.rows page ->
      r ∈ Storage.to_row <$> map_to_list t /\ Filtered.matches f s q r) /\
  (Filtered.fits q = true ->
   exists page,
      Storage.list_messages_sync (Storage.ready t) (-1) 0 f s q = Ok page /\
      forall r, r ∈ Storage.rows page <->
                r ∈ Storage.to_row <$> map_to_list t /\ Filtered.matches f s q r) /\
  (Filtered.fits q = false ->
   (exists r, r ∈ Storage.to_row <$> map_to_list t /\ Filtered.reaches_text f s r) ->
   forall limit offset,
      Storage.list_messages_sync (Storage.ready t) limit offset f s q
      = Raise (OperationalError "LIKE or GLOB pattern too complex")).
Proof.
  intros Hq Ht.
  pose proof (select_where_matches t f s q Hq Ht) as Hsel.
  split; [exact Hsel|]. split; [|split].
  - intros limit offset page r ->%list_messages_ready Hr. simpl in Hr.
    apply Hsel. rewrite <- (merge_sort_Permutation Storage.row_le).
    eapply elem_of_submseteq; [exact Hr|].
    apply sublist_submseteq, limit_offset_sublist.
  - intros Hfit. eexists. split; [apply list_messages_returns; [exact Hfit|lia|lia]|].
    simpl. intros r. unfold Storage.limit_offset. simpl. rewrite drop_0.
    now rewrite merge_sort_Permutation.
  - intros Hfit Hreach limit offset. now apply list_messages_refused.
Qed.

Lemma plain_text_filter_witness :
  Run.row_of "2025-01-16T00:00:00Z" Sample.m1
  ∈ Storage.select_where (Storage._build_filters None None (Some "ALPHA")) Sample.three.
Proof.
  apply (plain_text_filter Sample.three None None (Some "ALPHA")).
  - intros x [= <-]. reflexivity.
  - intros r Hr. vm_compute in Hr.
    repeat (apply elem_of_cons in Hr as [->|Hr]; [reflexivity|]).
    now apply elem_of_nil in Hr.
  - split; [vm_compute; repeat constructor|].
    repeat split; try discriminate. intros x [= <-]. reflexivity.
Defined.

(** ** The parameters of GET /messages *)

(** X12.  GET /messages on a ready database, with limit and offset defaulting
    to 50 and 0: the parameters are refused exactly when the limit is
    outside 1..100, the offset is negative, or [since] does not match the
    timestamp pattern.  With accepted parameters: when the pattern made of
    [q] has more than 50,000 bytes, which is when [q] has more than 49,998,
    and some row passes [from] and [since], the LIKE pattern is refused and
    the request fails with OperationalError.  Otherwise, an
    offset below 2^63 gives a page, echoing limit and offset, with at most
    limit (so at most 100) rows, the rows the storage query returns; from
    2^63 on, binding the offset raises OverflowError and the request
    fails. *)
Theorem get_messages_parameters
    (iso : string -> bool) (app : Main.App) (t : gmap string Storage.stored)
    (limit offset : option Z) (f s q : option string) :
  Main.db app = Storage.ready t ->
  let lim := default 50%Z limit in
  let off := default 0%Z offset in
  let valid := (1 <= lim <= 100)%Z /\ (0 <= off)%Z /\
               (forall x, s = Some x -> iso x = true) in
  let scanned :=
    Filtered.fits q = true \/
    forall r, r ∈ Storage.to_row <$> map_to_list t -> ~ Filtered.reaches_text f s r in
  (Main.get_messages iso app limit offset f s q = Ok Main.QueryInvalid <-> ~ valid) /\
  (forall x, q = Some x -> Filtered.fits q = (Storage.utf8_length x <=? 49998)%N) /\
  (valid -> Filtered.fits q = false ->
   (exists r, r ∈ Storage.to_row <$> map_to_list t /\ Filtered.reaches_text f s r) ->
   Main.get_messages iso app limit offset f s q
   = Raise (OperationalError "LIKE or GLOB pattern too complex")) /\
  (valid -> scanned -> (off < 2 ^ 63)%Z ->
   exists page,
     Storage.list_messages_sync (Storage.ready t) lim off f s q = Ok page /\
     Main.get_messages iso app limit offset f s q
     = Ok (Main.MessagesOk {| Models.data := Storage.rows page;
                              Models.total := Storage.total page;
                              Models.limit := lim; Models.offset := off |}) /\
     length (Storage.rows page) <= Z.to_nat lim /\
     length (Storage.rows page) <= 100) /\
  (valid -> scanned -> (2 ^ 63 <= off)%Z ->
   exists msg, Main.get_messages iso app limit offset f s q = Raise (OverflowError msg)).
Proof.
  intros Hdb lim off valid scanned. unfold Main.get_messages. fold lim off. rewrite Hdb.
  assert (negb match s with Some x => iso x | None => true end = false
          <-> forall x, s = Some x -> iso x = true) as Hs.
  { destruct s as [x|]; simpl.
    - rewrite negb_false_iff. split; [intros H y [= <-]; exact H|auto].
    - split; [discriminate|reflexivity]. }
  assert (forall x, q = Some x -> Filtered.fits q = (Storage.utf8_length x <=? 49998)%N)
    as Hbytes by (intros x ->; apply fits_bytes).
  destruct (Z.leb_spec 1 lim); destruct (Z.leb_spec lim 100); simpl;
    try (split; [split; [intros _; unfold valid; lia|reflexivity]
                |split; [exact Hbytes|repeat split; unfold valid; intros; lia]]).
  destruct (Z.ltb_spec off 0);
    try (split; [split; [intros _; unfold valid; lia|reflexivity]
                |split; [exact Hbytes|repeat split; unfold valid; intros; lia]]).
  destruct (negb _) eqn:Es.
  { assert (~ valid) as Hnv.
    { intros (_ & _ & Hv). apply Hs in Hv. discriminate. }
    split; [split; [auto|reflexivity]
           |split; [exact Hbytes|repeat split; intros; contradiction]]. }
  assert (forall x, s = Some x -> iso x = true) as Hiso by (apply Hs; reflexivity).
  assert valid as Hv by (unfold valid; auto).
  split; [|split; [exact Hbytes|split; [|split]]].
  - split; [|intros; contradiction].
    unfold Storage.list_messages_sync.
    cbn [Storage.ready Storage._connect Storage.reachable Storage.from_messages
         Storage.messages bind].
    destruct (Storage.scan _ t) as [[]|e]; cbn [bind]; [|discriminate].
    destruct (Storage.bind_int lim); simpl; [|discriminate].
    destruct (Storage.bind_int off); simpl; discriminate.
  - intros _ Hfit Hreach. now rewrite list_messages_refused.
  - intros _ Hscan%scan_returns Hoff.
    eexists. split; [apply list_messages_scanned; [exact Hscan|lia|lia]|].
    rewrite list_messages_scanned by (exact Hscan || lia). simpl.
    split; [reflexivity|].
    rewrite length_limit_offset. destruct (Z.ltb_spec lim 0); lia.
  - intros _ Hscan%scan_returns Hoff. unfold Storage.list_messages_sync.
    cbn [Storage.ready Storage._connect Storage.reachable Storage.from_messages
         Storage.messages bind].
    rewrite Hscan. cbn [bind].
    rewrite bind_int_ok by lia. unfold Storage.bind_int.
    destruct (Z.ltb_spec off (2 ^ 63)); [lia|]. rewrite andb_false_r. simpl. eauto.
Qed.

Lemma get_messages_parameters_witness :
  exists out,
    Main.get_messages (fun _ => true)
      {| Main.settings := Sample.settings; Main.metrics := Metrics.fresh;
         Main.db := Storage.ready Sample.three |}
      (Some 2%Z) None None None None
    = Ok (Main.MessagesOk out) /\
    Storage.message_id <$> Models.data out = ["m1"; "m2"].
Proof.
  destruct (get_messages_parameters (fun _ => true)
              {| Main.settings := Sample.settings; Main.metrics := Metrics.fresh;
                 Main.db := Storage.ready Sample.three |}
              Sample.three (Some 2%Z) None None None None eq_refl)
    as (_ & _ & _ & H & _).
  destruct H as (page & Hq & Hg & _).
  - repeat split; discriminate.
  - left. reflexivity.
  - reflexivity.
  - eexists. split; [exact Hg|]. simpl.
    vm_compute in Hq. injection Hq as <-. reflexivity.
Defined.

(** ** The settings *)

Lemma rstrip_idem s : Text.rstrip (Text.rstrip s) = Text.rstrip s.
Proof.
  induction s as [|c s IH]; [reflexivity|]. cbn [Text.rstrip].
  destruct (Text.rstrip s) as [|d r] eqn:E.
  - destruct (Text.py_isspace c) eqn:Ec; [reflexivity|].
    cbn [Text.rstrip]. now rewrite Ec.
  - cbn [Text.rstrip]. cbn [Text.rstrip] in IH. now rewrite IH.
Qed.

Lemma lstrip_head s c r : Text.lstrip s = String c r -> Text.py_isspace c = false.
Proof.
  induction s as [|d s IH]; [discriminate|]. cbn [Text.lstrip].
  destruct (Text.py_isspace d) eqn:Ed; [exact IH|]. intros [= <- _]. exact Ed.
Qed.

Lemma rstrip_head s c r :
  Text.rstrip s = String c r -> exists s', s = String c s'.
Proof.
  destruct s as [|d s]; [discriminate|]. cbn [Text.rstrip].
  destruct (Text.rstrip s); [destruct (Text.py_isspace d)|];
    intros [= <- _]; eauto.
Qed.

Lemma py_strip_idem v : Text.py_strip (Text.py_strip v) = Text.py_strip v.
Proof.
  unfold Text.py_strip.
  destruct (Text.rstrip (Text.lstrip v)) as [|c r] eqn:E; [reflexivity|].
  destruct (rstrip_head _ _ _ E) as (s' & Hs').
  apply lstrip_head in Hs'. cbn [Text.lstrip]. rewrite Hs'.
  rewrite <- E. apply rstrip_idem.
Qed.

Lemma truthy_nonempty s : Text.truthy s = true <-> s <> "".
Proof. destruct s; simpl; split; congruence. Qed.

Lemma or_default_nonempty x d : d <> "" -> Config.or_default x d <> "".
Proof.
  intros Hd. destruct x as [v|]; simpl; [|exact Hd].
  destruct v; simpl; [exact Hd|discriminate].
Qed.

(** X13.  The settings read from any environment: the secret, when there is
    one, is the stripped value of WEBHOOK_SECRET, is not empty and has no
    white space at either end, so that the handlers' test [not secret] is the
    test for absence; the database URL is never empty, and is the stripped
    DATABASE_URL or else the default; the log level is INFO or DEBUG, and
    DEBUG only when LOG_LEVEL, stripped and upper-cased, is DEBUG. *)
Theorem settings_invariants (env : Config.environ) :
  let s := Config.get_settings env in
  (forall k, Config.webhook_secret s = Some k <->
             exists v, env !! "WEBHOOK_SECRET" = Some v /\
                       k = Text.py_strip v /\ k <> "") /\
  (forall k, Config.webhook_secret s = Some k -> Text.py_strip k = k) /\
  Text.truthy_opt (Config.webhook_secret s)
  = bool_decide (Config.webhook_secret s <> None) /\
  Config.database_url s <> "" /\
  Config.database_url s
  = match env !! "DATABASE_URL" with
    | Some v => if Text.truthy (Text.py_strip v) then Text.py_strip v
                else "sqlite:////data/app.db"
    | None => "sqlite:////data/app.db"
    end /\
  (Config.log_level s = "INFO" \/ Config.log_level s = "DEBUG") /\
  (Config.log_level s = "DEBUG" <->
   exists v, env !! "LOG_LEVEL" = Some v /\
             Text.map_string Text.ascii_upper (Text.py_strip v) = "DEBUG").
Proof.
  intros s.
  assert (forall k, Config.webhook_secret s = Some k <->
             exists v, env !! "WEBHOOK_SECRET" = Some v /\
                       k = Text.py_strip v /\ k <> "") as Hsec.
  { intros k. subst s. unfold Config.get_settings, Config._env.
    cbn [Config.webhook_secret].
    destruct (env !! "WEBHOOK_SECRET") as [v|]; cbn match.
    - destruct (Text.py_strip v) as [|c r] eqn:E.
      + split; [discriminate|]. intros (v' & [= <-] & -> & Hk). now rewrite E in Hk.
      + split.
        * intros [= <-]. exists v. rewrite E. split; [reflexivity|split; [reflexivity|discriminate]].
        * intros (v' & [= <-] & -> & _). now rewrite E.
    - split; [discriminate|]. intros (v' & Hv & _). discriminate. }
  split; [exact Hsec|]. split; [|split; [|split; [|split; [|split]]]].
  - intros k (v & _ & -> & _)%Hsec. apply py_strip_idem.
  - destruct (Config.webhook_secret s) as [k|] eqn:E; simpl; [|reflexivity].
    destruct (proj1 (Hsec k) eq_refl) as (_ & _ & _ & Hk).
    destruct k; [contradiction|reflexivity].
  - subst s. unfold Config.get_settings. cbn [Config.database_url].
    apply or_default_nonempty. discriminate.
  - subst s. unfold Config.get_settings, Config._env, Config.or_default.
    cbn [Config.database_url].
    destruct (env !! "DATABASE_URL"); reflexivity.
  - subst s. unfold Config.get_settings. cbn [Config.log_level].
    set (l := Text.map_string _ _).
    destruct (bool_decide (l = "INFO")) eqn:E1; simpl.
    + apply bool_decide_eq_true in E1. now left.
    + destruct (bool_decide (l = "DEBUG")) eqn:E2; [|now left].
      apply bool_decide_eq_true in E2. now right.
  - subst s. unfold Config.get_settings, Config._env. cbn [Config.log_level].
    set (l := Text.map_string _ _).
    assert ((if bool_decide (l = "INFO") || bool_decide (l = "DEBUG")
             then l else "INFO") = "DEBUG" <-> l = "DEBUG") as ->.
    { destruct (bool_decide (l = "INFO")) eqn:E1; simpl.
      - reflexivity.
      - destruct (bool_decide (l = "DEBUG")) eqn:E2; [reflexivity|].
        apply bool_decide_eq_false in E2. split; [discriminate|contradiction]. }
    subst l. destruct (env !! "LOG_LEVEL") as [v|]; cbn match.
    + unfold Config.or_default. destruct (Text.py_strip v) as [|c r] eqn:E.
      * cbn [Text.truthy]. split; [discriminate|]. intros (v' & Hv & H).
        injection Hv as <-. rewrite E in H. discriminate.
      * cbn [Text.truthy]. split.
        -- intros H. exists v. rewrite E. split; [reflexivity|exact H].
        -- intros (v' & Hv & H). injection Hv as <-. now rewrite E in H.
    + cbn. split; [discriminate|]. intros (v' & Hv & _). discriminate.
Qed.

(** ** Label values *)

Lemma esc_cons c v :
  Metrics._esc (String c v)
  = if Ascii.eqb c Exposition.backslash || Ascii.eqb c Exposition.quote
    then String Exposition.backslash (String c (Metrics._esc v))
    else String c (Metrics._esc v).
Proof.
  cbn [Metrics._esc].
  assert (((Text.code c =? 92)%N || (Text.code c =? 34)%N)
          = (Ascii.eqb c Exposition.backslash || Ascii.eqb c Exposition.quote)) as ->;
    [|reflexivity].
  apply eqb_prop.
  exact (forall_ascii
           (fun c => Bool.eqb ((Text.code c =? 92)%N || (Text.code c =? 34)%N)
                       (Ascii.eqb c Exposition.backslash || Ascii.eqb c Exposition.quote))
           ltac:(vm_compute; reflexivity) c).
Qed.

Lemma unescape_esc v : Exposition.unescape (Metrics._esc v) = v.
Proof.
  induction v as [|c v IH]; [reflexivity|]. rewrite esc_cons.
  destruct (Ascii.eqb c Exposition.backslash) eqn:Eb; simpl.
  - now rewrite IH.
  - destruct (Ascii.eqb c Exposition.quote) eqn:Eq.
    + simpl. now rewrite IH.
    + simpl. rewrite Eb. now rewrite IH.
Qed.

Lemma esc_inj v w : Metrics._esc v = Metrics._esc w -> v = w.
Proof. intros H. rewrite <- (unescape_esc v), <- (unescape_esc w). now rewrite H. Qed.

(** X14.  [_esc], the two replacements of the source taken one after the
    other, puts a backslash before every backslash and every quote and
    changes nothing else.  The value can be read back, so two different label
    values are never rendered alike; the result has no quote that is not
    escaped and no backslash left alone; a value without backslash and quote
    is rendered as it is; the length at most doubles. *)
Theorem esc_reversible (v : string) :
  Exposition._esc_steps v = Metrics._esc v /\
  Exposition.unescape (Metrics._esc v) = v /\
  (forall w, Metrics._esc v = Metrics._esc w -> v = w) /\
  Exposition.well_escaped (Metrics._esc v) = true /\
  (Text.forall_string
     (fun c => negb (Ascii.eqb c Exposition.backslash || Ascii.eqb c Exposition.quote)) v
   = true -> Metrics._esc v = v) /\
  (String.length v <= String.length (Metrics._esc v) <= 2 * String.length v)%nat.
Proof.
  pose proof unescape_esc as Hback.
  split; [|split; [|split; [|split; [|split]]]].
  - unfold Exposition._esc_steps.
    induction v as [|c v IH]; [reflexivity|]. rewrite esc_cons.
    cbn [Exposition.replace_char].
    destruct (Ascii.eqb c Exposition.backslash) eqn:Eb.
    + apply Ascii.eqb_eq in Eb as ->. rewrite !append_cons.
      change ("" +:+ ?x) with x. cbn [Exposition.replace_char].
      change (Ascii.eqb Exposition.backslash Exposition.quote) with false.
      cbn [orb]. now rewrite IH.
    + cbn [Exposition.replace_char orb].
      destruct (Ascii.eqb c Exposition.quote) eqn:Eq.
      * apply Ascii.eqb_eq in Eq as ->. rewrite !append_cons.
        change ("" +:+ ?x) with x. now rewrite IH.
      * now rewrite IH.
  - apply Hback.
  - intros w. apply esc_inj.
  - induction v as [|c v IH]; [reflexivity|]. rewrite esc_cons.
    destruct (Ascii.eqb c Exposition.backslash) eqn:Eb; cbn [orb].
    + cbn [Exposition.well_escaped]. rewrite Ascii.eqb_refl, Eb. exact IH.
    + destruct (Ascii.eqb c Exposition.quote) eqn:Eq.
      * cbn [Exposition.well_escaped]. rewrite Ascii.eqb_refl, Eb, Eq. exact IH.
      * cbn [Exposition.well_escaped]. rewrite Eb, Eq. exact IH.
  - induction v as [|c v IH]; [reflexivity|]. cbn [Text.forall_string].
    intros [Hc Hv]%andb_true_iff. rewrite esc_cons.
    apply negb_true_iff in Hc. rewrite Hc. now rewrite IH.
  - induction v as [|c v IH]; [simpl; lia|]. rewrite esc_cons.
    destruct (_ || _); cbn [String.length]; lia.
Qed.

(** ** Counters *)

#[local] Instance http_key_le_total : Total Metrics.http_key_le.
Proof.
  intros [[p1 s1] n1] [[p2 s2] n2]. unfold Metrics.http_key_le.
  rewrite (bool_decide_ext (p2 = p1) (p1 = p2)) by (split; congruence).
  destruct (bool_decide (p1 = p2)); [lia|apply (total String.le)].
Qed.

#[local] Instance http_key_le_trans : Transitive Metrics.http_key_le.
Proof.
  intros [[p1 s1] n1] [[p2 s2] n2] [[p3 s3] n3]. unfold Metrics.http_key_le.
  repeat case_bool_decide; intros H12 H23; subst;
    try lia; try assumption; try congruence; try (etransitivity; eassumption).
  exfalso. assert (p3 = p2); [|congruence].
  now apply (anti_symm String.le).
Qed.

#[local] Instance webhook_key_le_total : Total Metrics.webhook_key_le.
Proof. intros a b. unfold Metrics.webhook_key_le. apply (total String.le). Qed.

#[local] Instance webhook_key_le_trans : Transitive Metrics.webhook_key_le.
Proof.
  intros a b c. unfold Metrics.webhook_key_le. intros; etransitivity; eassumption.
Qed.

Lemma sorted_items `{Countable K} (R : relation (K * nat)) `{!RelDecision R}
    `{!Total R} `{!Transitive R} (d : gmap K nat) :
  let l := merge_sort R (map_to_list d) in
  (forall k n, (k, n) ∈ l <-> d !! k = Some n) /\
  StronglySorted R l /\ NoDup l.*1 /\ length l = size d.
Proof.
  intros l. pose proof (merge_sort_Permutation R (map_to_list d)) as HP. fold l in HP.
  split; [|split; [|split]].
  - intros k n. rewrite HP. apply elem_of_map_to_list.
  - apply (StronglySorted_merge_sort R).
  - rewrite HP. apply NoDup_fst_map_to_list.
  - rewrite HP. apply length_map_to_list.
Qed.

(** X15.  The exposition of any metrics state opens with the two counter
    sections, each under its HELP and TYPE lines and before the histogram:
    one line for every key of the dictionary and for nothing else, with the
    value stored there, the lines in the order of the keys (path, then
    status; result), no key twice; and lines of different keys differ. *)
Theorem counters_rendered (m : Metrics.Metrics) :
  exists hl wl,
    Metrics.render_prometheus m
    = [Metrics.Comment "HELP http_requests_total Total HTTP requests";
       Metrics.Comment "TYPE http_requests_total counter"]
      ++ map Exposition.http_line hl
      ++ [Metrics.Comment "HELP webhook_requests_total Webhook requests by result";
          Metrics.Comment "TYPE webhook_requests_total counter"]
      ++ map Exposition.webhook_line wl
      ++ Metrics.histogram_lines (Metrics.request_latency m) /\
    (forall k n, (k, n) ∈ hl <-> Metrics.http_requests_total m !! k = Some n) /\
    (forall k n, (k, n) ∈ wl <-> Metrics.webhook_requests_total m !! k = Some n) /\
    StronglySorted Metrics.http_key_le hl /\
    StronglySorted Metrics.webhook_key_le wl /\
    NoDup hl.*1 /\ NoDup wl.*1 /\
    length hl = size (Metrics.http_requests_total m) /\
    length wl = size (Metrics.webhook_requests_total m) /\
    (forall a b, Exposition.http_line a = Exposition.http_line b -> a = b) /\
    (forall a b, Exposition.webhook_line a = Exposition.webhook_line b -> a = b).
Proof.
  exists (merge_sort Metrics.http_key_le (map_to_list (Metrics.http_requests_total m))),
         (merge_sort Metrics.webhook_key_le (map_to_list (Metrics.webhook_requests_total m))).
  destruct (sorted_items Metrics.http_key_le (Metrics.http_requests_total m))
    as (H1 & H2 & H3 & H4).
  destruct (sorted_items Metrics.webhook_key_le (Metrics.webhook_requests_total m))
    as (W1 & W2 & W3 & W4).
  split; [reflexivity|].
  repeat (split; [assumption|]).
  split.
  - intros [[p1 s1] n1] [[p2 s2] n2]. unfold Exposition.http_line.
    intros [= Hp -> ->]. apply esc_inj in Hp. now subst.
  - intros [r1 n1] [r2 n2]. unfold Exposition.webhook_line.
    intros [= Hp ->]. apply esc_inj in Hp. now subst.
Qed.

(** ** Log lines *)

Lemma lookup_dict_set k k' v d :
  Logging.lookup k (Logging.dict_set k' v d)
  = if String.eqb k' k then Some v else Logging.lookup k d.
Proof.
  induction d as [|[k1 v1] d IH]; simpl.
  - destruct (String.eqb k' k); reflexivity.
  - destruct (String.eqb k1 k') eqn:E1; simpl.
    + apply String.eqb_eq in E1 as ->. destruct (String.eqb k' k); reflexivity.
    + destruct (String.eqb k1 k) eqn:E2; [|exact IH].
      apply String.eqb_eq in E2 as ->. now rewrite String.eqb_sym, E1.
Qed.

Lemma dict_set_new k v d :
  Logging.dict_has k d = false -> Logging.dict_set k v d = d ++ [(k, v)].
Proof.
  unfold Logging.dict_has. induction d as [|[k1 v1] d IH]; simpl; [reflexivity|].
  destruct (String.eqb k1 k); [discriminate|]. intros H. now rewrite IH.
Qed.

Lemma dict_set_old k v d :
  Logging.dict_has k d = true -> (Logging.dict_set k v d).*1 = d.*1.
Proof.
  unfold Logging.dict_has. induction d as [|[k1 v1] d IH]; simpl; [discriminate|].
  destruct (String.eqb k1 k); [reflexivity|]. intros H. simpl. f_equal. now apply IH.
Qed.

Lemma dict_has_elem_of k d : Logging.dict_has k d = true <-> k ∈ d.*1.
Proof.
  unfold Logging.dict_has. induction d as [|[k1 v1] d IH]; simpl.
  - split; [discriminate|]. intros H. inversion H.
  - rewrite elem_of_cons. destruct (String.eqb k1 k) eqn:E.
    + apply String.eqb_eq in E. split; auto.
    + apply String.eqb_neq in E. rewrite IH. split; [auto|]. intros [->|H]; [contradiction|exact H].
Qed.

Lemma dict_set_NoDup k v d : NoDup d.*1 -> NoDup (Logging.dict_set k v d).*1.
Proof.
  intros H. destruct (Logging.dict_has k d) eqn:E.
  - now rewrite dict_set_old.
  - rewrite dict_set_new by exact E. rewrite fmap_app. simpl.
    apply NoDup_app. split; [exact H|]. split; [|apply NoDup_singleton].
    intros x Hx ->%list_elem_of_singleton. apply dict_has_elem_of in Hx. congruence.
Qed.

Lemma dict_set_app k v p rest :
  Logging.dict_has k p = false ->
  Logging.dict_set k v (p ++ rest) = p ++ Logging.dict_set k v rest.
Proof.
  unfold Logging.dict_has. induction p as [|[k1 v1] p IH]; simpl; [reflexivity|].
  destruct (String.eqb k1 k); [discriminate|]. intros H. now rewrite IH.
Qed.

(** The loop of [format] over the extras, from any payload. *)
Lemma format_merge (e : Logging.dict) : forall p : Logging.dict,
  let q := fold_left (fun p kv => if Logging.dict_has kv.1 p then p
                                  else Logging.dict_set kv.1 kv.2 p) e p in
  (exists rest, q = p ++ rest) /\
  (NoDup p.*1 -> NoDup q.*1) /\
  (forall k, Logging.lookup k q
             = match Logging.lookup k p with
               | Some v => Some v
               | None => Logging.lookup k e
               end).
Proof.
  induction e as [|[k1 v1] e IH]; intros p; simpl.
  - split; [exists []; now rewrite app_nil_r|]. split; [auto|].
    intros k. now destruct (Logging.lookup k p).
  - destruct (Logging.dict_has k1 p) eqn:E.
    + destruct (IH p) as (H1 & H2 & H3). split; [exact H1|]. split; [exact H2|].
      intros k. rewrite H3. destruct (Logging.lookup k p) eqn:Ek; [reflexivity|].
      destruct (String.eqb k1 k) eqn:E1; [|reflexivity].
      apply String.eqb_eq in E1 as ->. unfold Logging.dict_has in E.
      now rewrite Ek in E.
    + destruct (IH (Logging.dict_set k1 v1 p)) as ((rest & H1) & H2 & H3).
      split; [|split].
      * rewrite H1, dict_set_new by exact E. rewrite <- app_assoc. eauto.
      * intros Hp. apply H2, dict_set_NoDup, Hp.
      * intros k. rewrite H3, lookup_dict_set.
        destruct (String.eqb k1 k) eqn:E1; [|reflexivity].
        apply String.eqb_eq in E1 as ->. unfold Logging.dict_has in E.
        now destruct (Logging.lookup k p).
Qed.

(** X16.  The payload [JsonFormatter.format] builds for any record opens with
    ts, level, logger and message, in this order and with the record's own
    values: an extra field of one of these names is dropped.  No key occurs
    twice.  Every other key holds the formatted exception if it is exc_info
    and there is one, and else the extra field of that name, if the extras
    are a dictionary that has it. *)
Theorem format_payload (now : string) (record : Logging.LogRecord) :
  let base := [("ts", JStr now);
               ("level", JStr (Logging.levelname record));
               ("logger", JStr (Logging.name record));
               ("message", JStr (Logging.message record))] in
  let payload := Logging.format now record in
  (exists rest, payload = base ++ rest) /\
  NoDup payload.*1 /\
  (forall k, Logging.lookup k payload
             = match Logging.lookup k base with
               | Some v => Some v
               | None =>
                   match (if String.eqb "exc_info" k
                          then JStr <$> Logging.exc_info record else None) with
                   | Some v => Some v
                   | None =>
                       match Logging.extra record with
                       | Some (JDict e) => Logging.lookup k e
                       | _ => None
                       end
                   end
               end).
Proof.
  intros base payload. subst payload. unfold Logging.format. fold base.
  set (e := match Logging.extra record with Some (JDict e) => e | _ => [] end).
  set (step := fun (p : Logging.dict) (kv : string * json) =>
                 if Logging.dict_has kv.1 p then p else Logging.dict_set kv.1 kv.2 p).
  assert (match Logging.extra record with
          | Some (JDict e) => fold_left step e base
          | _ => base
          end = fold_left step e base) as ->.
  { subst e. destruct (Logging.extra record) as [[]|]; reflexivity. }
  assert (forall k, match Logging.extra record with
                    | Some (JDict e) => Logging.lookup k e
                    | _ => None
                    end = Logging.lookup k e) as He.
  { intros k. subst e. destruct (Logging.extra record) as [[]|]; reflexivity. }
  destruct (format_merge e base) as ((rest & H1) & H2 & H3). fold step in H1, H2, H3.
  assert (NoDup base.*1) as Hb.
  { subst base. simpl. apply (bool_decide_unpack _). vm_compute. reflexivity. }
  destruct (Logging.exc_info record) as [text|]; cbv beta iota.
  - split; [|split].
    + rewrite H1, dict_set_app by reflexivity. eauto.
    + apply dict_set_NoDup, H2, Hb.
    + intros k. rewrite lookup_dict_set, H3, He.
      destruct (String.eqb "exc_info" k) eqn:E.
      * apply String.eqb_eq in E as <-. reflexivity.
      * destruct (Logging.lookup k base); reflexivity.
  - split; [eauto|]. split; [apply H2, Hb|].
    intros k. rewrite H3, He.
    destruct (Logging.lookup k base); [reflexivity|].
    destruct (String.eqb "exc_info" k); reflexivity.
Qed.

(** ** What the middleware does with a request *)

Lemma sum_incr `{Countable K} (k : K) (d : gmap K nat) :
  sum_list_with snd (map_to_list (Metrics.incr k d))
  = sum_list_with snd (map_to_list d) + 1.
Proof.
  unfold Metrics.incr. destruct (d !! k) as [n|] eqn:E; simpl.
  - rewrite <- insert_delete_eq.
    rewrite map_to_list_insert by apply lookup_delete_eq.
    rewrite <- (map_to_list_delete d k n E). simpl. lia.
  - rewrite map_to_list_insert by exact E. simpl. lia.
Qed.

(** The webhook handler leaves the request counters and the histogram
    alone. *)
Lemma webhook_keeps_http hmac decode validate now app sig raw :
  let m := Main.metrics (Main.app_after (Main.webhook hmac decode validate now app sig raw)) in
  Metrics.http_requests_total m = Metrics.http_requests_total (Main.metrics app) /\
  Metrics.request_latency m = Metrics.request_latency (Main.metrics app).
Proof.
  unfold Main.webhook.
  destruct sig as [sig|]; [|split; reflexivity].
  destruct (negb (Text.truthy sig)); [split; reflexivity|].
  destruct (negb (Text.truthy_opt _)); [split; reflexivity|].
  destruct (Main._signature_valid _ _ _ _) as [[|]|e]; try (split; reflexivity).
  unfold Main.accept_signature.
  destruct (decode raw) as [payload|]; [|split; reflexivity].
  destruct (validate payload) as [msg|errs]; [|split; reflexivity].
  destruct (Storage.insert_message_sync _ _ _ _ _ _ _) as [[ins db']|e];
    split; reflexivity.
Qed.

(** X17.  One request through the middleware, on a state whose histogram
    tallies the values recorded so far and with a handler that leaves the
    request counters and the histogram alone.  When the latency in
    milliseconds has an integer part, the handler's response is returned as
    it is, or its exception leaves again; the counter of the request's path
    and of its status (500 for an exception) goes up by one and no other
    does; the clamped latency is added to the histogram; the database, the
    settings and the webhook counters are as the handler left them; and the
    log line carries ts, level, logger, message, request_id, method, path,
    status, latency_ms and then the handler's webhook fields, if it set any.
    When the latency is infinite or not a number, the conversion raises, and
    nothing is counted or logged. *)
Theorem middleware_request (start stop : float) (rq : Middleware.Request)
    (call_next : Main.App -> Main.handled) (app : Main.App) (done : list float) :
  Metrics.request_latency (Main.metrics app) = Spec.histogram_of done ->
  Metrics.http_requests_total (Main.metrics (Main.app_after (call_next app)))
  = Metrics.http_requests_total (Main.metrics app) ->
  Metrics.request_latency (Main.metrics (Main.app_after (call_next app)))
  = Metrics.request_latency (Main.metrics app) ->
  let h := call_next app in
  let s := Middleware.request_logging_middleware start stop rq call_next app in
  let status := Main.resolved_status (Main.outcome h) in
  let latency := PrimFloat.sub stop start in
  (forall e, Middleware.py_int (PrimFloat.mul latency 1000) = Raise e ->
     Middleware.outcome s = Raise e /\
     Middleware.app_after s = Main.app_after h /\
     Middleware.logged s = None) /\
  (forall ms, Middleware.py_int (PrimFloat.mul latency 1000) = Ok ms ->
     Middleware.outcome s = Main.outcome h /\
     Main.db (Middleware.app_after s) = Main.db (Main.app_after h) /\
     Main.settings (Middleware.app_after s) = Main.settings (Main.app_after h) /\
     Metrics.webhook_requests_total (Main.metrics (Middleware.app_after s))
     = Metrics.webhook_requests_total (Main.metrics (Main.app_after h)) /\
     (forall k, Metrics.http_requests_total (Main.metrics (Middleware.app_after s)) !! k
                = if decide ((Middleware.path rq, status) = k)
                  then Some (default 0 (Metrics.http_requests_total (Main.metrics app) !! k) + 1)
                  else Metrics.http_requests_total (Main.metrics app) !! k) /\
     Middleware.http_total (Main.metrics (Middleware.app_after s))
     = Middleware.http_total (Main.metrics app) + 1 /\
     Metrics.request_latency (Main.metrics (Middleware.app_after s))
     = Spec.histogram_of (done ++ [Metrics.clamp latency]) /\
     exists record,
       Middleware.logged s = Some record /\
       forall now,
         Logging.format now record
         = [("ts", JStr now); ("level", JStr "INFO"); ("logger", JStr "api");
            ("message", JStr "request");
            ("request_id", JStr (Middleware.request_id rq));
            ("method", JStr (Middleware.method rq));
            ("path", JStr (Middleware.path rq));
            ("status", JInt status);
            ("latency_ms", JInt ms)]
           ++ match Main.webhook_log_fields h with
              | Some wf => Middleware.fields_dict wf
              | None => []
              end).
Proof.
  intros Hdone Hhttp Hlat h s status latency.
  subst s. unfold Middleware.request_logging_middleware. fold h status latency.
  split.
  - intros e ->. auto.
  - intros ms ->. unfold Metrics.observe_latency.
    cbn [Metrics.inc_http Metrics.request_latency].
    fold h in Hhttp, Hlat. rewrite Hlat, Hdone, observe_histogram_of.
    cbn [bind Middleware.outcome Middleware.app_after Middleware.logged
         Main.with_metrics Main.db Main.settings Main.metrics
         Metrics.webhook_requests_total Metrics.http_requests_total
         Metrics.request_latency].
    repeat (split; [reflexivity|]).
    split; [intros k; cbn [Metrics.inc_http Metrics.http_requests_total];
            rewrite Hhttp, incr_lookup; case_decide; subst; reflexivity|].
    split; [unfold Middleware.http_total;
            cbn [Metrics.inc_http Metrics.http_requests_total];
            rewrite Hhttp; apply sum_incr|].
    split; [reflexivity|].
    eexists. split; [reflexivity|]. intros now.
    destruct (Main.webhook_log_fields h) as [wf|]; reflexivity.
Qed.

Lemma middleware_request_witness :
  let s := Middleware.serve Sample.app0 SampleCalls.post_m1 in
  Middleware.outcome s = Ok Main.status_ok_200 /\
  Metrics.http_requests_total (Main.metrics (Middleware.app_after s))
  !! ("/webhook", 200%Z) = Some 1.
Proof.
  destruct (middleware_request
              (Middleware.c_start SampleCalls.post_m1)
              (Middleware.c_stop SampleCalls.post_m1)
              (Middleware.c_request SampleCalls.post_m1)
              (Middleware.c_handler SampleCalls.post_m1)
              Sample.app0 []
              ltac:(vm_compute; reflexivity) ltac:(vm_compute; reflexivity)
              ltac:(vm_compute; reflexivity)) as [_ H].
  destruct (H 250%Z ltac:(vm_compute; reflexivity)) as (H1 & _ & _ & _ & H5 & _).
  split; [exact H1|exact (H5 ("/webhook", 200%Z))].
Defined.

(** One request served on a state whose histogram tallies [done]. *)
Lemma serve_step (c : Middleware.call) (app : Main.App) (done : list float) ms :
  Metrics.request_latency (Main.metrics app) = Spec.histogram_of done ->
  Metrics.http_requests_total (Main.metrics (Main.app_after (Middleware.c_handler c app)))
  = Metrics.http_requests_total (Main.metrics app) ->
  Metrics.request_latency (Main.metrics (Main.app_after (Middleware.c_handler c app)))
  = Metrics.request_latency (Main.metrics app) ->
  Middleware.py_int
    (PrimFloat.mul (PrimFloat.sub (Middleware.c_stop c) (Middleware.c_start c)) 1000)
  = Ok ms ->
  let app' := Middleware.app_after (Middleware.serve app c) in
  Metrics.request_latency (Main.metrics app')
  = Spec.histogram_of (done ++ [Middleware.recorded c]) /\
  Middleware.http_total (Main.metrics app') = Middleware.http_total (Main.metrics app) + 1.
Proof.
  intros Hdone Hhttp Hlat Hms app'. subst app'.
  unfold Middleware.serve, Middleware.request_logging_middleware. rewrite Hms.
  unfold Metrics.observe_latency. cbn [Metrics.inc_http Metrics.request_latency].
  rewrite Hlat, Hdone, observe_histogram_of.
  cbn [bind Middleware.app_after Main.with_metrics Main.metrics Metrics.request_latency].
  split; [reflexivity|].
  unfold Middleware.http_total. cbn [Metrics.inc_http Metrics.http_requests_total].
  rewrite Hhttp. apply sum_incr.
Qed.

(** X18.  Requests served one after the other, by handlers that leave the
    request counters and the histogram alone and with latencies that have an
    integer part in milliseconds: the histogram tallies the clamped
    latencies in the order of the requests, and every request is counted
    once in the histogram and once in the request counters, so that on the
    state the application starts with the counters add up to the count of
    the histogram, which is what the last lines of the exposition show. *)
Theorem requests_accounted (calls : list Middleware.call) (app : Main.App)
    (done : list float) :
  Metrics.request_latency (Main.metrics app) = Spec.histogram_of done ->
  Forall (fun c =>
    (forall a,
       Metrics.http_requests_total (Main.metrics (Main.app_after (Middleware.c_handler c a)))
       = Metrics.http_requests_total (Main.metrics a) /\
       Metrics.request_latency (Main.metrics (Main.app_after (Middleware.c_handler c a)))
       = Metrics.request_latency (Main.metrics a)) /\
    exists ms,
      Middleware.py_int
        (PrimFloat.mul (PrimFloat.sub (Middleware.c_stop c) (Middleware.c_start c)) 1000)
      = Ok ms) calls ->
  let app' := Middleware.serve_all app calls in
  let n := length done + length calls in
  Metrics.request_latency (Main.metrics app')
  = Spec.histogram_of (done ++ (Middleware.recorded <$> calls)) /\
  Metrics.count (Metrics.request_latency (Main.metrics app')) = n /\
  Middleware.http_total (Main.metrics app')
  = Middleware.http_total (Main.metrics app) + length calls /\
  (Middleware.http_total (Main.metrics app) = length done ->
   Middleware.http_total (Main.metrics app')
   = Metrics.count (Metrics.request_latency (Main.metrics app'))) /\
  Middleware.text_status (Middleware.get_metrics app') = 200%Z /\
  exists lines,
    Middleware.text_content (Middleware.get_metrics app')
    = lines
      ++ [Metrics.Sample "request_latency_seconds_bucket" [("le", Metrics.LInf)]
            (Metrics.VInt n);
          Metrics.Sample "request_latency_seconds_sum" []
            (Metrics.VFloat
               (fold_left PrimFloat.add (done ++ (Middleware.recorded <$> calls)) 0%float));
          Metrics.Sample "request_latency_seconds_count" [] (Metrics.VInt n)].
Proof.
  intros Hdone Hcalls app' n.
  assert (Metrics.request_latency (Main.metrics app')
          = Spec.histogram_of (done ++ (Middleware.recorded <$> calls)) /\
          Middleware.http_total (Main.metrics app')
          = Middleware.http_total (Main.metrics app) + length calls) as [Hh Ht].
  { subst app' n. revert app done Hdone.
    induction Hcalls as [|c calls [Hc [ms Hms]] _ IH]; intros app done Hdone.
    - simpl. rewrite app_nil_r. split; [exact Hdone|lia].
    - destruct (Hc app) as [Hhttp Hlat].
      destruct (serve_step c app done ms Hdone Hhttp Hlat Hms) as [H1 H2].
      destruct (IH _ _ H1) as [H3 H4].
      cbn [Middleware.serve_all fold_left]. unfold Middleware.serve_all in H3, H4.
      rewrite H3, H4, H2. rewrite <- app_assoc. simpl. split; [reflexivity|lia]. }
  assert (Metrics.count (Metrics.request_latency (Main.metrics app')) = n) as Hn.
  { rewrite Hh. unfold Spec.histogram_of. cbn [Metrics.count].
    rewrite length_app, length_fmap. reflexivity. }
  split; [exact Hh|]. split; [exact Hn|]. split; [exact Ht|].
  split; [intros H0; rewrite Ht, Hn, H0; reflexivity|].
  split; [reflexivity|].
  unfold Middleware.get_metrics, Metrics.render_prometheus.
  cbn [Middleware.text_content].
  rewrite Hh, histogram_lines_of.
  rewrite length_app, length_fmap. fold n.
  eexists. rewrite !app_assoc. reflexivity.
Qed.

Lemma requests_accounted_witness :
  let app' := Middleware.serve_all Sample.app0 [SampleCalls.post_m1; SampleCalls.live] in
  Middleware.http_total (Main.metrics app') = 2 /\
  Metrics.count (Metrics.request_latency (Main.metrics app')) = 2.
Proof.
  destruct (requests_accounted [SampleCalls.post_m1; SampleCalls.live] Sample.app0 [])
    as (_ & H2 & H3 & _).
  - vm_compute. reflexivity.
  - constructor; [|constructor; [|constructor]].
    + split; [intros a; apply webhook_keeps_http|].
      exists 250%Z. vm_compute. reflexivity.
    + split; [intros a; split; reflexivity|].
      exists 500%Z. vm_compute. reflexivity.
  - split; [exact H3|exact H2].
Defined.

(** ** The order of the floats *)

Ltac compare_cases :=
  repeat match goal with
  | |- context [Pos.compare_cont Eq ?a ?b] =>
      change (Pos.compare_cont Eq a b) with (Pos.compare a b)
  | H : context [Pos.compare_cont Eq ?a ?b] |- _ =>
      change (Pos.compare_cont Eq a b) with (Pos.compare a b) in H
  | |- context [Z.compare ?a ?b] => destruct (Z.compare_spec a b)
  | H : context [Z.compare ?a ?b] |- _ => destruct (Z.compare_spec a b)
  | |- context [Pos.compare ?a ?b] => destruct (Pos.compare_spec a b)
  | H : context [Pos.compare ?a ?b] |- _ => destruct (Pos.compare_spec a b)
  end.

Ltac float_cases x := destruct x as [[|]|[|]| |[|] ? ?].

Lemma SFleb_trans x y z : SFleb x y = true -> SFleb y z = true -> SFleb x z = true.
Proof.
  unfold SFleb, SFcompare. float_cases x; float_cases y; float_cases z;
    try reflexivity; try discriminate; intros H1 H2;
    compare_cases; simpl in *; try reflexivity; try discriminate; try lia.
Qed.

Lemma SFltb_trans x y z : SFltb x y = true -> SFltb y z = true -> SFltb x z = true.
Proof.
  unfold SFltb, SFcompare. float_cases x; float_cases y; float_cases z;
    try reflexivity; try discriminate; intros H1 H2;
    compare_cases; simpl in *; try reflexivity; try discriminate; try lia.
Qed.

Lemma SFeqb_trans x y z : SFeqb x y = true -> SFeqb y z = true -> SFeqb x z = true.
Proof.
  unfold SFeqb, SFcompare. float_cases x; float_cases y; float_cases z;
    try reflexivity; try discriminate; intros H1 H2;
    compare_cases; simpl in *; try reflexivity; try discriminate; try lia.
Qed.

Lemma SFeqb_sym x y : SFeqb x y = SFeqb y x.
Proof.
  unfold SFeqb, SFcompare. float_cases x; float_cases y;
    try reflexivity; compare_cases; simpl in *; try reflexivity; try lia.
Qed.

Lemma SFltb_false_leb x y :
  SFeqb x x = true -> SFeqb y y = true -> SFltb x y = false -> SFleb y x = true.
Proof.
  unfold SFleb, SFltb, SFeqb, SFcompare. float_cases x; float_cases y;
    try reflexivity; try discriminate; intros _ _ H1;
    compare_cases; simpl in *; try reflexivity; try discriminate; try lia.
Qed.

Lemma SFleb_neq_ltb x y : SFleb x y = true -> SFeqb x y = false -> SFltb x y = true.
Proof. unfold SFleb, SFltb, SFeqb. destruct (SFcompare x y) as [[| |]|]; congruence. Qed.

Lemma leb_trans x y z :
  PrimFloat.leb x y = true -> PrimFloat.leb y z = true -> PrimFloat.leb x z = true.
Proof. rewrite !FloatAxioms.leb_spec. apply SFleb_trans. Qed.

Lemma ltb_trans x y z :
  PrimFloat.ltb x y = true -> PrimFloat.ltb y z = true -> PrimFloat.ltb x z = true.
Proof. rewrite !FloatAxioms.ltb_spec. apply SFltb_trans. Qed.

Lemma eqb_trans x y z :
  PrimFloat.eqb x y = true -> PrimFloat.eqb y z = true -> PrimFloat.eqb x z = true.
Proof. rewrite !FloatAxioms.eqb_spec. apply SFeqb_trans. Qed.

Lemma eqb_sym x y : PrimFloat.eqb x y = PrimFloat.eqb y x.
Proof. rewrite !FloatAxioms.eqb_spec. apply SFeqb_sym. Qed.

Lemma ltb_false_leb x y :
  Buckets.is_number x = true -> Buckets.is_number y = true ->
  PrimFloat.ltb x y = false -> PrimFloat.leb y x = true.
Proof.
  unfold Buckets.is_number.
  rewrite !FloatAxioms.eqb_spec, FloatAxioms.ltb_spec, FloatAxioms.leb_spec.
  apply SFltb_false_leb.
Qed.

Lemma leb_neq_ltb x y :
  PrimFloat.leb x y = true -> PrimFloat.eqb x y = false -> PrimFloat.ltb x y = true.
Proof.
  rewrite FloatAxioms.eqb_spec, FloatAxioms.ltb_spec, FloatAxioms.leb_spec.
  apply SFleb_neq_ltb.
Qed.

(** ** Buckets *)

Lemma forallb_elem_of {A} (p : A -> bool) (l : list A) :
  forallb p l = true <-> forall x, x ∈ l -> p x = true.
Proof.
  rewrite forallb_forall. split; intros H x Hx; apply H; now apply list_elem_of_In.
Qed.

Lemma distinct_keys_cons k ks :
  Spec.distinct_keys (k :: ks) = true <->
  Buckets.is_number k = true /\
  (forall k', k' ∈ ks -> PrimFloat.eqb k k' = false) /\
  Spec.distinct_keys ks = true.
Proof.
  cbn [Spec.distinct_keys]. rewrite !andb_true_iff, forallb_elem_of.
  unfold Buckets.is_number. split.
  - intros [[Hk Hall] Hks]. repeat split; try assumption.
    intros k' Hk'. apply Hall in Hk'. apply andb_true_iff in Hk' as [H1 _].
    now apply negb_true_iff in H1.
  - intros (Hk & Hall & Hks). repeat split; try assumption.
    intros k' Hk'. rewrite (eqb_sym k' k), (Hall k' Hk'). reflexivity.
Qed.

Lemma distinct_keys_numbers ks :
  Spec.distinct_keys ks = true -> Forall (fun k => Buckets.is_number k = true) ks.
Proof.
  induction ks as [|k ks IH]; [constructor|].
  intros (Hk & _ & Hks)%distinct_keys_cons. constructor; auto.
Qed.

Lemma distinct_keys_filter (P : float -> Prop) `{forall x, Decision (P x)} ks :
  Spec.distinct_keys ks = true -> Spec.distinct_keys (filter P ks) = true.
Proof.
  induction ks as [|k ks IH]; [reflexivity|].
  intros (Hk & Hall & Hks)%distinct_keys_cons. rewrite filter_cons.
  case_decide; [|auto]. apply distinct_keys_cons. repeat split; auto.
  intros k' [_ Hk']%list_elem_of_filter. auto.
Qed.

Lemma float_set_sub l x : x ∈ Metrics.float_set l -> x ∈ l.
Proof.
  revert x. induction l as [|y l IH]; intros x; simpl; [auto|].
  rewrite !elem_of_cons. intros [->|[_ Hx]%list_elem_of_filter]; auto.
Qed.

Lemma float_set_covers l x :
  x ∈ l -> Buckets.is_number x = true ->
  exists y, y ∈ Metrics.float_set l /\ PrimFloat.eqb y x = true.
Proof.
  intros Hx Hn. induction l as [|a l IH]; [inversion Hx|].
  apply elem_of_cons in Hx as [->|Hx].
  - exists a. split; [simpl; apply list_elem_of_here|exact Hn].
  - destruct (IH Hx) as (y & Hy & Hyx).
    destruct (PrimFloat.eqb a y) eqn:E.
    + exists a. split; [simpl; apply list_elem_of_here|].
      exact (eqb_trans _ _ _ E Hyx).
    + exists y. split; [|exact Hyx]. simpl. apply list_elem_of_further.
      apply list_elem_of_filter. split; [|exact Hy]. now rewrite E.
Qed.

Lemma float_set_distinct l :
  Forall (fun x => Buckets.is_number x = true) l ->
  Spec.distinct_keys (Metrics.float_set l) = true.
Proof.
  induction 1 as [|x l Hx Hl IH]; [reflexivity|]. simpl.
  apply distinct_keys_cons. split; [exact Hx|]. split.
  - intros k' [Hk' _]%list_elem_of_filter.
    destruct (PrimFloat.eqb x k'); [contradiction|reflexivity].
  - apply distinct_keys_filter, IH.
Qed.

Lemma elem_of_insert_sorted x l y :
  y ∈ Metrics.insert_sorted x l <-> y = x \/ y ∈ l.
Proof.
  induction l as [|a l IH]; simpl.
  - rewrite list_elem_of_singleton. split; [auto|]. intros [H|H]; [exact H|inversion H].
  - destruct (PrimFloat.ltb x a).
    + now rewrite elem_of_cons.
    + rewrite !elem_of_cons, IH. tauto.
Qed.

Lemma elem_of_float_sorted l y : y ∈ Metrics.float_sorted l <-> y ∈ l.
Proof.
  unfold Metrics.float_sorted. induction l as [|a l IH]; simpl; [reflexivity|].
  rewrite elem_of_insert_sorted, elem_of_cons, IH. reflexivity.
Qed.

Lemma insert_sorted_distinct x l :
  Spec.distinct_keys (x :: l) = true ->
  Spec.distinct_keys (Metrics.insert_sorted x l) = true.
Proof.
  induction l as [|a l IH]; [auto|].
  intros Hd. simpl. destruct (PrimFloat.ltb x a); [exact Hd|].
  apply distinct_keys_cons in Hd as (Hx & Hxl & (Ha & Hal & Hl)%distinct_keys_cons).
  apply distinct_keys_cons. split; [exact Ha|]. split.
  - intros k' [->|Hk']%elem_of_insert_sorted; [|auto].
    rewrite eqb_sym. apply Hxl, list_elem_of_here.
  - apply IH, distinct_keys_cons. repeat split; auto.
    intros k' Hk'. apply Hxl. now apply list_elem_of_further.
Qed.

Lemma float_sorted_distinct l :
  Spec.distinct_keys l = true -> Spec.distinct_keys (Metrics.float_sorted l) = true.
Proof.
  unfold Metrics.float_sorted. induction l as [|a l IH]; [auto|].
  intros (Ha & Hal & Hl)%distinct_keys_cons. simpl.
  apply insert_sorted_distinct, distinct_keys_cons.
  split; [exact Ha|]. split; [|exact (IH Hl)].
  intros k' Hk'. apply Hal. now apply (elem_of_float_sorted l k').
Qed.

Lemma insert_sorted_ascending x l :
  Buckets.is_number x = true ->
  Forall (fun k => Buckets.is_number k = true) l ->
  Sorted (fun a b => PrimFloat.leb a b = true) l ->
  Sorted (fun a b => PrimFloat.leb a b = true) (Metrics.insert_sorted x l).
Proof.
  intros Hx Hl Hs. induction l as [|a l IH]; simpl.
  - repeat constructor.
  - apply Forall_cons in Hl as [Ha Hl]. apply Sorted_inv in Hs as [Hs Hd].
    destruct (PrimFloat.ltb x a) eqn:E.
    + constructor; [constructor; assumption|]. constructor.
      rewrite FloatAxioms.leb_spec. rewrite FloatAxioms.ltb_spec in E.
      unfold SFleb. unfold SFltb in E.
      destruct (SFcompare _ _) as [[| |]|]; congruence.
    + constructor; [apply IH; assumption|].
      pose proof (ltb_false_leb x a Hx Ha E) as Hax.
      destruct l as [|b l]; simpl.
      * constructor. exact Hax.
      * destruct (PrimFloat.ltb x b); constructor; [exact Hax|].
        now apply HdRel_inv in Hd.
Qed.

Lemma float_sorted_ascending l :
  Forall (fun k => Buckets.is_number k = true) l ->
  Sorted (fun a b => PrimFloat.leb a b = true) (Metrics.float_sorted l).
Proof.
  unfold Metrics.float_sorted. induction 1 as [|a l Ha Hl IH]; simpl; [constructor|].
  apply insert_sorted_ascending; [exact Ha| |exact IH].
  apply Forall_forall. intros k Hk. rewrite Forall_forall in Hl.
  apply Hl. now apply (elem_of_float_sorted l k).
Qed.

Lemma ascending_strictly l :
  Spec.distinct_keys l = true ->
  Sorted (fun a b => PrimFloat.leb a b = true) l ->
  StronglySorted (fun a b => PrimFloat.ltb a b = true) l.
Proof.
  intros Hd Hs. apply Sorted_StronglySorted.
  { intros a b c. apply ltb_trans. }
  induction l as [|a l IH]; [constructor|].
  apply distinct_keys_cons in Hd as (Ha & Hal & Hl).
  apply Sorted_inv in Hs as [Hs Hh]. constructor; [auto|].
  destruct l as [|b l]; constructor. apply HdRel_inv in Hh.
  apply leb_neq_ltb; [exact Hh|]. apply Hal, list_elem_of_here.
Qed.

Lemma float_sorted_nil l : Metrics.float_sorted l = [] -> l = [].
Proof.
  destruct l as [|a l]; [reflexivity|]. unfold Metrics.float_sorted. simpl.
  destruct (fold_right Metrics.insert_sorted [] l) as [|b r]; simpl; [discriminate|].
  destruct (PrimFloat.ltb a b); discriminate.
Qed.

(** X19.  [Histogram.with_buckets] on any bounds that are numbers raises
    ValueError exactly when there is none.  Otherwise the histogram starts
    at zero with one count per bucket; its buckets are in strictly ascending
    order, so no bound occurs twice; each of them is one of the bounds
    given, and every bound given is equal to one of them. *)
Theorem with_buckets_any (bs : list float) :
  Forall (fun x => Buckets.is_number x = true) bs ->
  (Metrics.with_buckets bs = Raise (ValueError "histogram buckets cannot be empty")
   <-> bs = []) /\
  (bs <> [] ->
   exists h,
     Metrics.with_buckets bs = Ok h /\
     Metrics.count h = 0 /\ Metrics.sum h = 0%float /\
     Metrics.counts h = map (fun ub => (ub, 0)) (Metrics.buckets h) /\
     Metrics.buckets h <> [] /\
     StronglySorted (fun a b => PrimFloat.ltb a b = true) (Metrics.buckets h) /\
     Spec.distinct_keys (Metrics.buckets h) = true /\
     (forall b, b ∈ Metrics.buckets h -> b ∈ bs) /\
     (forall x, x ∈ bs ->
        exists b, b ∈ Metrics.buckets h /\ PrimFloat.eqb b x = true)).
Proof.
  intros Hn. unfold Metrics.with_buckets.
  destruct (Metrics.float_sorted (Metrics.float_set bs)) as [|b0 B] eqn:EB.
  - apply float_sorted_nil in EB.
    assert (bs = []) as -> by (destruct bs; [reflexivity|discriminate]).
    split; [split; reflexivity|]. intros H. contradiction.
  - split.
    + split; [discriminate|]. intros ->. discriminate.
    + intros _. eexists. split; [reflexivity|]. cbn [Metrics.count Metrics.sum
        Metrics.counts Metrics.buckets]. rewrite <- EB.
      pose proof (float_sorted_distinct _ (float_set_distinct bs Hn)) as Hd.
      repeat (split; [reflexivity|]).
      split; [rewrite EB; discriminate|].
      split; [|split; [exact Hd|split]].
      * apply ascending_strictly; [exact Hd|].
        apply float_sorted_ascending, Forall_forall.
        intros k Hk%float_set_sub. rewrite Forall_forall in Hn. auto.
      * intros b Hb. apply float_set_sub.
        exact (proj1 (elem_of_float_sorted _ b) Hb).
      * intros x Hx. rewrite Forall_forall in Hn.
        destruct (float_set_covers bs x Hx (Hn x Hx)) as (y & Hy & Hyx).
        exists y. split; [|exact Hyx].
        exact (proj2 (elem_of_float_sorted _ y) Hy).
Qed.

Lemma with_buckets_any_witness :
  exists h, Metrics.with_buckets [1; 0.5; 1; 0.25]%float = Ok h /\
            Metrics.buckets h = [0.25; 0.5; 1]%float.
Proof.
  destruct (with_buckets_any [1; 0.5; 1; 0.25]%float) as [_ H].
  - repeat (constructor; [vm_compute; reflexivity|]). constructor.
  - destruct (H ltac:(discriminate)) as (h & Hh & _).
    exists h. split; [exact Hh|].
    vm_compute in Hh. injection Hh as <-. reflexivity.
Defined.

(** What [with_buckets] returns, when it returns. *)
Lemma with_buckets_ok bs h :
  Forall (fun x => Buckets.is_number x = true) bs ->
  Metrics.with_buckets bs = Ok h ->
  Spec.distinct_keys (Metrics.buckets h) = true /\
  Sorted (fun a b => PrimFloat.leb a b = true) (Metrics.buckets h) /\
  Metrics.counts h = map (fun ub => (ub, Spec.count_le ub [])) (Metrics.buckets h) /\
  Metrics.sum h = 0%float /\ Metrics.count h = 0.
Proof.
  intros Hn. unfold Metrics.with_buckets.
  pose proof (float_sorted_distinct _ (float_set_distinct bs Hn)) as Hd.
  assert (Sorted (fun a b => PrimFloat.leb a b = true)
            (Metrics.float_sorted (Metrics.float_set bs))) as Hs.
  { apply float_sorted_ascending, Forall_forall.
    intros k Hk%float_set_sub. rewrite Forall_forall in Hn. auto. }
  destruct (Metrics.float_sorted (Metrics.float_set bs)) as [|b0 B]; [discriminate|].
  intros [= <-]. cbn [Metrics.buckets Metrics.counts Metrics.sum Metrics.count]. auto.
Qed.

Lemma observe_all_tally (B : list float) vs : forall h done,
  Spec.distinct_keys B = true ->
  Metrics.buckets h = B ->
  Metrics.counts h = map (fun ub => (ub, Spec.count_le ub done)) B ->
  Buckets.observe_all h vs
  = Ok {| Metrics.buckets := B;
          Metrics.counts := map (fun ub => (ub, Spec.count_le ub (done ++ vs))) B;
          Metrics.sum := fold_left PrimFloat.add vs (Metrics.sum h);
          Metrics.count := Metrics.count h + length vs |}.
Proof.
  induction vs as [|v vs IH]; intros h done HB Hb Hc.
  - simpl. rewrite app_nil_r, Nat.add_0_r. destruct h; simpl in *. congruence.
  - cbn [Buckets.observe_all]. rewrite (observe_tally B done v h HB Hb Hc).
    cbn [bind]. erewrite (IH _ (done ++ [v]) HB); [|reflexivity|reflexivity].
    cbn [Metrics.sum Metrics.count fold_left length]. rewrite <- app_assoc.
    do 2 f_equal. lia.
Qed.

Lemma count_le_mono ub1 ub2 vs :
  PrimFloat.leb ub1 ub2 = true -> (Spec.count_le ub1 vs <= Spec.count_le ub2 vs)%nat.
Proof.
  intros H. unfold Spec.count_le. induction vs as [|v vs IH]; [simpl; lia|].
  rewrite !filter_cons. repeat case_decide; simpl; try lia.
  exfalso. eauto using leb_trans.
Qed.

Lemma count_le_bound ub vs : (Spec.count_le ub vs <= length vs)%nat.
Proof. unfold Spec.count_le. apply length_filter. Qed.

Lemma tally_ascending (B vs : list float) :
  Sorted (fun a b => PrimFloat.leb a b = true) B ->
  Sorted le (map (fun ub => Spec.count_le ub vs) B).
Proof.
  induction 1 as [|a B HB IH Hh]; simpl; constructor; [exact IH|].
  destruct Hh; simpl; constructor. now apply count_le_mono.
Qed.

Lemma tally_lines (B : list float) (g : float -> nat) :
  Spec.distinct_keys B = true ->
  Metrics.bucket_lines (map (fun ub => (ub, g ub)) B) 0 B
  = map (fun ub => Buckets.bucket_line ub (g ub)) B.
Proof.
  intros HB.
  pose proof (bucket_lines_spec (map (fun ub => (ub, g ub)) B) [] 0) as H.
  cbn [app] in H. rewrite tally_keys in H. rewrite (H HB), map_map. reflexivity.
Qed.

(** X20.  On a histogram that [with_buckets] returned for bounds that are
    numbers, any sequence of [observe] calls returns (no bucket is ever
    missing from the counts); afterwards every bucket holds the number of
    values at most its bound, the count is the number of calls and the sum
    their sum in order.  The bucket lines of the exposition are cumulative:
    their values never go down from one bucket to the next, and none exceeds
    the value of the +Inf bucket. *)
Theorem histogram_cumulative (bs vs : list float) (h : Metrics.Histogram) :
  Forall (fun x => Buckets.is_number x = true) bs ->
  Metrics.with_buckets bs = Ok h ->
  exists h',
    Buckets.observe_all h vs = Ok h' /\
    Metrics.buckets h' = Metrics.buckets h /\
    Metrics.counts h'
    = map (fun ub => (ub, Spec.count_le ub vs)) (Metrics.buckets h) /\
    Metrics.count h' = length vs /\
    Metrics.sum h' = fold_left PrimFloat.add vs 0%float /\
    Metrics.histogram_lines h'
    = [Metrics.Comment "HELP request_latency_seconds Request latency";
       Metrics.Comment "TYPE request_latency_seconds histogram"]
      ++ map (fun ub => Buckets.bucket_line ub (Spec.count_le ub vs)) (Metrics.buckets h)
      ++ [Metrics.Sample "request_latency_seconds_bucket" [("le", Metrics.LInf)]
            (Metrics.VInt (length vs));
          Metrics.Sample "request_latency_seconds_sum" []
            (Metrics.VFloat (fold_left PrimFloat.add vs 0%float));
          Metrics.Sample "request_latency_seconds_count" []
            (Metrics.VInt (length vs))] /\
    Sorted le (map (fun ub => Spec.count_le ub vs) (Metrics.buckets h)) /\
    Forall (fun ub => (Spec.count_le ub vs <= length vs)%nat) (Metrics.buckets h).
Proof.
  intros Hn Hh. destruct (with_buckets_ok bs h Hn Hh) as (Hd & Hs & Hc & Hsum & Hcount).
  eexists. split; [exact (observe_all_tally _ vs h [] Hd eq_refl Hc)|].
  cbn [Metrics.buckets Metrics.counts Metrics.count Metrics.sum app].
  rewrite Hsum, Hcount.
  repeat (split; [reflexivity|]).
  split; [|split].
  - unfold Metrics.histogram_lines.
    cbn [Metrics.buckets Metrics.counts Metrics.count Metrics.sum].
    now rewrite (tally_lines _ (fun ub => Spec.count_le ub vs) Hd).
  - now apply tally_ascending.
  - apply Forall_forall. intros ub _. apply count_le_bound.
Qed.

Lemma histogram_cumulative_witness :
  exists h',
    Buckets.observe_all (Metrics.request_latency Metrics.fresh) [0.3; 0.01]%float = Ok h' /\
    Metrics.count h' = 2.
Proof.
  destruct (histogram_cumulative Metrics.latency_buckets [0.3; 0.01]%float
              (Metrics.request_latency Metrics.fresh))
    as (h' & H1 & _ & _ & H4 & _).
  - repeat (constructor; [vm_compute; reflexivity|]). constructor.
  - vm_compute. reflexivity.
  - exists h'. split; [exact H1|exact H4].
Defined.

(** ** A webhook request through the middleware *)

(** What the middleware returns when the latency has an integer part. *)
Lemma serve_result start stop rq (call_next : Main.App -> Main.handled) app done ms :
  Metrics.request_latency (Main.metrics app) = Spec.histogram_of done ->
  Metrics.http_requests_total (Main.metrics (Main.app_after (call_next app)))
  = Metrics.http_requests_total (Main.metrics app) ->
  Metrics.request_latency (Main.metrics (Main.app_after (call_next app)))
  = Metrics.request_latency (Main.metrics app) ->
  Middleware.py_int (PrimFloat.mul (PrimFloat.sub stop start) 1000) = Ok ms ->
  Middleware.request_logging_middleware start stop rq call_next app
  = let h := call_next app in
    let status := Main.resolved_status (Main.outcome h) in
    {| Middleware.outcome := Main.outcome h;
       Middleware.app_after :=
         Main.with_metrics (Main.app_after h)
           {| Metrics.http_requests_total :=
                Metrics.incr (Middleware.path rq, status)
                  (Metrics.http_requests_total (Main.metrics app));
              Metrics.webhook_requests_total :=
                Metrics.webhook_requests_total (Main.metrics (Main.app_after h));
              Metrics.request_latency :=
                Spec.histogram_of (done ++ [Metrics.clamp (PrimFloat.sub stop start)]) |};
       Middleware.logged :=
         Some (Logging.info "api" "request"
                 (let extra := [("request_id", JStr (Middleware.request_id rq));
                                ("method", JStr (Middleware.method rq));
                                ("path", JStr (Middleware.path rq));
                                ("status", JInt status);
                                ("latency_ms", JInt ms)] in
                  match Main.webhook_log_fields h with
                  | Some wf => Logging.dict_update extra (Middleware.fields_dict wf)
                  | None => extra
                  end)) |}.
Proof.
  intros Hdone Hhttp Hlat Hms.
  unfold Middleware.request_logging_middleware. rewrite Hms.
  unfold Metrics.observe_latency. cbn [Metrics.inc_http Metrics.request_latency].
  rewrite Hlat, Hdone, observe_histogram_of.
  cbn [bind Metrics.inc_http Metrics.http_requests_total
       Metrics.webhook_requests_total].
  now rewrite Hhttp.
Qed.

(** The ways a webhook request ends, as the middleware needs them: nothing
    was set, or a result was set with its counter; then a response is
    returned whose status agrees with the result, or the response to a
    validation error could not be built. *)
Lemma webhook_cases hmac decode validate now app sig raw :
  (exists e, Main.webhook hmac decode validate now app sig raw = Main.raised app e) \/
  exists o res id dup a,
    Main.webhook hmac decode validate now app sig raw
    = {| Main.outcome := o; Main.app_after := a;
         Main.webhook_log_fields :=
           Some {| Main.log_message_id := id; Main.log_dup := dup;
                   Main.log_result := res |} |} /\
    Main.metrics a = Metrics.inc_webhook (Main.metrics app) res /\
    dup = bool_decide (res = "duplicate") /\
    ((exists r, o = Ok r /\ (Main.status_code r, res) ∈ Totals.status_of_result) \/
     (res = "validation_error" /\ (exists e, o = Raise e) /\
      exists payload errors,
        decode raw = Some payload /\ validate payload = Models.Invalid errors /\
        (Main.json_finite (JList errors) = false ->
         o = Raise (ValueError "Out of range float values are not JSON compliant")))).
Proof.
  assert (forall (res : string) (r : Main.response) (P : Prop),
            bool_decide ((Main.status_code r, res) ∈ Totals.status_of_result) = true ->
            (exists r', Ok r = Ok r' /\
                        (Main.status_code r', res) ∈ Totals.status_of_result) \/ P)
    as Hin.
  { intros res r P Hr. left. exists r. split; [reflexivity|].
    now apply bool_decide_eq_true in Hr. }
  assert (exists o res id dup a,
            Main.reject_signature decode app raw
            = {| Main.outcome := o; Main.app_after := a;
                 Main.webhook_log_fields :=
                   Some {| Main.log_message_id := id; Main.log_dup := dup;
                           Main.log_result := res |} |} /\
            Main.metrics a = Metrics.inc_webhook (Main.metrics app) res /\
            dup = bool_decide (res = "duplicate") /\
            ((exists r, o = Ok r /\ (Main.status_code r, res) ∈ Totals.status_of_result) \/
             (res = "validation_error" /\ (exists e, o = Raise e) /\
              exists payload errors,
                decode raw = Some payload /\ validate payload = Models.Invalid errors /\
                (Main.json_finite (JList errors) = false ->
                 o = Raise (ValueError "Out of range float values are not JSON compliant")))))
    as Hrej.
  { do 5 eexists. split; [reflexivity|]. split; [reflexivity|]. split; [reflexivity|].
    apply Hin. vm_compute. reflexivity. }
  unfold Main.webhook.
  destruct sig as [sg|]; [|right; exact Hrej].
  destruct (negb (Text.truthy sg)); [right; exact Hrej|].
  destruct (negb (Text.truthy_opt _)); [right; exact Hrej|].
  destruct (Main._signature_valid _ _ _ _) as [[|]|e];
    [|right; exact Hrej|left; eexists; reflexivity].
  clear Hrej. unfold Main.accept_signature.
  destruct (decode raw) as [payload|] eqn:Ed.
  2:{ right. do 5 eexists. split; [reflexivity|]. split; [reflexivity|].
      split; [reflexivity|]. apply Hin. vm_compute. reflexivity. }
  destruct (validate payload) as [msg|errors] eqn:Ev.
  2:{ right. do 5 eexists. split; [reflexivity|]. split; [reflexivity|].
      split; [reflexivity|].
      unfold Main._validation_422, Main.JSONResponse.
      destruct (Main.json_finite (JDict _)) eqn:Ef.
      - apply Hin. vm_compute. reflexivity.
      - right. split; [reflexivity|]. split; [eexists; reflexivity|].
        exists payload, errors. split; [reflexivity|]. split; [exact Ev|]. reflexivity. }
  destruct (Storage.insert_message_sync _ _ _ _ _ _ _) as [[[[|]] db']|e];
    [| |left; eexists; reflexivity].
  - right. do 5 eexists. split; [reflexivity|]. split; [reflexivity|].
    split; [reflexivity|]. apply Hin. vm_compute. reflexivity.
  - right. do 5 eexists. split; [reflexivity|]. split; [reflexivity|].
    split; [reflexivity|]. apply Hin. vm_compute. reflexivity.
Qed.

(** X21.  A webhook request through the middleware, on a state whose
    histogram tallies the values recorded so far and with a latency that has
    an integer part in milliseconds, is counted once under its status.  If
    the handler leaves before it has set a result, the status is 500, no
    webhook counter moves, and the log line has no result.  Otherwise the
    request is counted once under its result, which the log line carries,
    with dup true exactly for a duplicate; and either the response is
    returned and status and result agree, 401 with invalid_signature, 422
    with validation_error, 200 with created or duplicate, or the result is
    validation_error and the 422 response could not be built: then the
    request leaves by the exception (ValueError when the errors hold a float
    that is not finite) and is counted and logged with status 500. *)
Theorem webhook_status_and_result
    (hmac : string -> Main.bytes -> string)
    (decode : Main.bytes -> option json)
    (validate : json -> Models.validation)
    (now : string) (start stop : float) (rq : Middleware.Request)
    (app : Main.App) (sig : option string) (raw : Main.bytes)
    (done : list float) (ms : Z) :
  Metrics.request_latency (Main.metrics app) = Spec.histogram_of done ->
  Middleware.py_int (PrimFloat.mul (PrimFloat.sub stop start) 1000) = Ok ms ->
  let s := Middleware.request_logging_middleware start stop rq
             (fun a => Main.webhook hmac decode validate now a sig raw) app in
  let m := Main.metrics app in
  let m' := Main.metrics (Middleware.app_after s) in
  exists status record,
    Metrics.http_requests_total m' !! (Middleware.path rq, status)
    = Some (default 0 (Metrics.http_requests_total m !! (Middleware.path rq, status)) + 1) /\
    Middleware.http_total m' = Middleware.http_total m + 1 /\
    Middleware.logged s = Some record /\
    (forall t, Logging.lookup "status" (Logging.format t record) = Some (JInt status)) /\
    ((status = 500%Z /\
      (exists e, Middleware.outcome s = Raise e) /\
      Metrics.webhook_requests_total m' = Metrics.webhook_requests_total m /\
      (forall t, Logging.lookup "result" (Logging.format t record) = None)) \/
     exists res,
       Metrics.webhook_requests_total m'
       = Metrics.incr res (Metrics.webhook_requests_total m) /\
       Totals.webhook_total m' = Totals.webhook_total m + 1 /\
       (forall t, Logging.lookup "result" (Logging.format t record) = Some (JStr res)) /\
       (forall t, Logging.lookup "dup" (Logging.format t record)
                  = Some (JBool (bool_decide (res = "duplicate")))) /\
       ((exists r, Middleware.outcome s = Ok r /\ Main.status_code r = status /\
                   (status, res) ∈ Totals.status_of_result) \/
        (res = "validation_error" /\ status = 500%Z /\
         (exists e, Middleware.outcome s = Raise e) /\
         exists payload errors,
           decode raw = Some payload /\ validate payload = Models.Invalid errors /\
           (Main.json_finite (JList errors) = false ->
            exists msg, Middleware.outcome s = Raise (ValueError msg))))).
Proof.
  intros Hdone Hms s m m'. subst s m m'.
  destruct (webhook_keeps_http hmac decode validate now app sig raw) as [Hhttp Hlat].
  rewrite (serve_result start stop rq _ app done ms Hdone Hhttp Hlat Hms).
  cbv beta zeta.
  cbn [Middleware.outcome Middleware.app_after Middleware.logged Main.with_metrics
       Main.metrics Metrics.http_requests_total Metrics.webhook_requests_total].
  unfold Middleware.http_total. cbn [Metrics.http_requests_total].
  clear Hhttp Hlat.
  destruct (webhook_cases hmac decode validate now app sig raw)
    as [(e & ->)|(o & res & id & dup & a & -> & Ha & -> & Ho)].
  - cbn [Main.raised Main.outcome Main.app_after Main.webhook_log_fields
         Main.resolved_status].
    exists 500%Z. eexists.
    split; [now rewrite incr_lookup, decide_True by reflexivity|].
    split; [apply sum_incr|]. split; [reflexivity|].
    split; [intros t; reflexivity|]. left. split; [reflexivity|].
    split; [eexists; reflexivity|]. split; [reflexivity|]. intros t; reflexivity.
  - cbn [Main.outcome Main.app_after Main.webhook_log_fields].
    rewrite Ha. cbn [Metrics.inc_webhook Metrics.webhook_requests_total].
    exists (Main.resolved_status o). eexists.
    split; [now rewrite incr_lookup, decide_True by reflexivity|].
    split; [apply sum_incr|]. split; [reflexivity|].
    split; [intros t; reflexivity|]. right.
    exists res. split; [reflexivity|].
    split; [apply sum_incr|]. split; [intros t; reflexivity|].
    split; [intros t; reflexivity|].
    destruct Ho as [(r & -> & Hr)|(-> & (e & ->) & Herr)].
    + left. exists r. repeat split. exact Hr.
    + right. split; [reflexivity|]. split; [reflexivity|].
      split; [eexists; reflexivity|].
      destruct Herr as (payload & errors & Hd & Hv & Hf).
      exists payload, errors. split; [exact Hd|]. split; [exact Hv|].
      intros Hnf. eexists. exact (Hf Hnf).
Qed.

Lemma webhook_status_and_result_witness :
  exists status record,
    Middleware.logged (Middleware.serve Sample.app0 SampleCalls.post_m1) = Some record /\
    forall t, Logging.lookup "status" (Logging.format t record) = Some (JInt status).
Proof.
  destruct (webhook_status_and_result Sample.toy_hmac Sample.toy_decode
              Sample.toy_validate "2025-01-16T00:00:00Z"
              (Middleware.c_start SampleCalls.post_m1)
              (Middleware.c_stop SampleCalls.post_m1)
              (Middleware.c_request SampleCalls.post_m1)
              Sample.app0 (Some "ab") [Byte.x01] [] 250%Z
              ltac:(vm_compute; reflexivity) ltac:(vm_compute; reflexivity))
    as (status & record & _ & _ & H3 & H4 & _).
  exists status, record. split; [exact H3|exact H4].
Defined.
